(** * TruthLens: claim extraction, verification and source credibility

    A shallow embedding of [main_backup.py] (the TruthLens MCP server):
    [extract_claims], [verify_claim], [calculate_source_credibility],
    [ingest_url] and [analyze_source], with the Python builtins and the
    regular expressions they rely on.

    Modelling conventions.
    - A Python [str] is a Rocq [string]; each character is read as a code
      point below 256, and [lower], [isspace], [\s], [\w], [\d] follow
      CPython's Unicode tables on that range.
    - A Python [float] is a rational ([Q]) that names a double: a literal
      of the program names the double nearest to it, and comparisons
      are made on the names. [float()] and the score of the lookup stage
      of [verify_claim] are rounded to binary64 ([PyFloat]): the first
      yields the shortest decimal that names the double (what [repr]
      prints), the second the exact value of the double. The arithmetic of
      [calculate_source_credibility] is exact; its statements are read up
      to [==].
    - A value whose Python type is not fixed by the code (what [json.loads]
      returns, and the verification fields filled from it) is a [pyval].
    - The in-memory [claims_db] is a [gmap string Claim.t], threaded
      explicitly; an uncaught Python exception is the [Raise] outcome.
    - The collaborators (oracle, [json.loads], the encyclopedia client, the
      HTTP fetch, the clock) are fields of an environment record [env]. *)

From Stdlib Require Import String Ascii List ZArith QArith Qminmax Bool Lia Lqa
  DecimalString Decimal DecimalNat Permutation Qround Qabs Qpower.
From stdpp Require Import gmap strings.

Import ListNotations.
Local Open Scope string_scope.
Local Open Scope list_scope.

(** ** Python string builtins *)

Module PyStr.

Definition code (c : ascii) : nat := nat_of_ascii c.

Definition in_range (lo hi : nat) (c : ascii) : bool :=
  (lo <=? code c)%nat && (code c <=? hi)%nat.

(** [Py_UNICODE_ISSPACE] below U+0100: TAB..CR, FS..US, SPACE, NEL, NBSP. *)
Definition isspace (c : ascii) : bool :=
  in_range 9 13 c || in_range 28 32 c
  || (code c =? 133)%nat || (code c =? 160)%nat.

(** [\d] on [str] patterns: decimal digits; below U+0100 these are 0..9. *)
Definition isdecimal (c : ascii) : bool := in_range 48 57 c.

(** [Py_UNICODE_ISALNUM] below U+0100, plus the underscore: the class [\w]. *)
Definition isword (c : ascii) : bool :=
  in_range 48 57 c || in_range 65 90 c || in_range 97 122 c
  || (code c =? 95)%nat
  || (code c =? 170)%nat || (code c =? 181)%nat || (code c =? 186)%nat
  || (code c =? 178)%nat || (code c =? 179)%nat || (code c =? 185)%nat
  || in_range 188 190 c
  || in_range 192 214 c || in_range 216 246 c || in_range 248 255 c.

(** [str.lower] on one character: A..Z and the Latin-1 capitals
    U+00C0..U+00DE (the multiplication sign U+00D7 apart) move up by 32. *)
Definition lower_char (c : ascii) : ascii :=
  if in_range 65 90 c
     || (in_range 192 222 c && negb (code c =? 215)%nat)
  then ascii_of_nat (code c + 32)
  else c.

Fixpoint lower (s : string) : string :=
  match s with
  | EmptyString => EmptyString
  | String c s' => String (lower_char c) (lower s')
  end.

Fixpoint lstrip (s : string) : string :=
  match s with
  | EmptyString => EmptyString
  | String c s' => if isspace c then lstrip s' else s
  end.

Fixpoint rstrip (s : string) : string :=
  match s with
  | EmptyString => EmptyString
  | String c s' =>
      match rstrip s' with
      | EmptyString => if isspace c then EmptyString else String c EmptyString
      | r => String c r
      end
  end.

(** [s.strip()] *)
Definition strip (s : string) : string := rstrip (lstrip s).

(** [s.startswith(p)] *)
Fixpoint startswith (p s : string) : bool :=
  match p, s with
  | EmptyString, _ => true
  | String a p', String b s' => Ascii.eqb a b && startswith p' s'
  | String _ _, EmptyString => false
  end.

(** [needle in hay] *)
Fixpoint contains (needle hay : string) : bool :=
  startswith needle hay
  || match hay with
     | EmptyString => false
     | String _ hay' => contains needle hay'
     end.

(** [s[:n]] *)
Fixpoint take (n : nat) (s : string) : string :=
  match n, s with
  | O, _ => EmptyString
  | S n', String c s' => String c (take n' s')
  | S _, EmptyString => EmptyString
  end.

(** [s[n:]] *)
Fixpoint drop (n : nat) (s : string) : string :=
  match n, s with
  | O, _ => s
  | S n', String _ s' => drop n' s'
  | S _, EmptyString => EmptyString
  end.

(** Splitting at every character satisfying [sep]: [s.split(c)] for a
    one-character separator, and [re.split] on a character class. *)
Fixpoint split_where (sep : ascii -> bool) (s : string) : list string :=
  match s with
  | EmptyString => [EmptyString]
  | String c s' =>
      if sep c then EmptyString :: split_where sep s'
      else match split_where sep s' with
           | h :: t => String c h :: t
           | [] => [String c EmptyString]
           end
  end.

(** [s.split(sep)] for a non-empty separator string. The fuel is the
    length of [s]; every step consumes at least one character. *)
Fixpoint split_str_aux (fuel : nat) (sep s : string) : list string :=
  match fuel with
  | O => [s]
  | S fuel' =>
      match s with
      | EmptyString => [EmptyString]
      | String c s' =>
          if startswith sep s
          then EmptyString :: split_str_aux fuel' sep (drop (String.length sep) s)
          else match split_str_aux fuel' sep s' with
               | h :: t => String c h :: t
               | [] => [String c EmptyString]
               end
      end
  end.

Definition split_str (sep s : string) : list string :=
  split_str_aux (String.length s) sep s.

(** [str(n)] for a non-negative integer *)
Definition of_nat (n : nat) : string := NilZero.string_of_uint (Nat.to_uint n).

Definition newline : ascii := "010"%char.
Definition dquote : ascii := "034"%char.

End PyStr.

Arguments PyStr.isspace c : simpl never.
Arguments PyStr.isdecimal c : simpl never.
Arguments PyStr.isword c : simpl never.
Arguments PyStr.lower_char c : simpl never.

(** ** Regular expressions

    The patterns the program hands to [re.search] only for a yes/no answer
    are kept as syntax and run by derivatives; [search r s] holds exactly
    when some substring of [s] belongs to the language of [r]
    ([search_spec]), which is when [re.search] returns a match. *)

Module Regex.

Inductive regex : Type :=
| Void
| Eps
| Cls (p : ascii -> bool)
| Alt (r1 r2 : regex)
| Seq (r1 r2 : regex)
| Star (r : regex).

Definition Chr (c : ascii) : regex := Cls (Ascii.eqb c).

Fixpoint Lit (s : string) : regex :=
  match s with
  | EmptyString => Eps
  | String c s' => Seq (Chr c) (Lit s')
  end.

Definition Plus (r : regex) : regex := Seq r (Star r).
Definition Opt (r : regex) : regex := Alt r Eps.

Fixpoint Alts (rs : list regex) : regex :=
  match rs with
  | [] => Void
  | [r] => r
  | r :: rs' => Alt r (Alts rs')
  end.

Fixpoint Seqs (rs : list regex) : regex :=
  match rs with
  | [] => Eps
  | [r] => r
  | r :: rs' => Seq r (Seqs rs')
  end.

(** The language of a pattern. *)
Inductive lang : regex -> string -> Prop :=
| L_Eps : lang Eps EmptyString
| L_Cls p c : p c = true -> lang (Cls p) (String c EmptyString)
| L_AltL r1 r2 s : lang r1 s -> lang (Alt r1 r2) s
| L_AltR r1 r2 s : lang r2 s -> lang (Alt r1 r2) s
| L_Seq r1 r2 s1 s2 : lang r1 s1 -> lang r2 s2 -> lang (Seq r1 r2) (s1 ++ s2)
| L_StarNil r : lang (Star r) EmptyString
| L_StarCons r s1 s2 :
    lang r s1 -> lang (Star r) s2 -> lang (Star r) (s1 ++ s2).

Fixpoint nullable (r : regex) : bool :=
  match r with
  | Void => false
  | Eps => true
  | Cls _ => false
  | Alt r1 r2 => nullable r1 || nullable r2
  | Seq r1 r2 => nullable r1 && nullable r2
  | Star _ => true
  end.

(** Constructors that drop a dead branch, so derivatives stay small. *)
Definition alt (r1 r2 : regex) : regex :=
  match r1, r2 with
  | Void, _ => r2
  | _, Void => r1
  | _, _ => Alt r1 r2
  end.

Definition seq (r1 r2 : regex) : regex :=
  match r1, r2 with
  | Void, _ => Void
  | _, Void => Void
  | Eps, _ => r2
  | _, _ => Seq r1 r2
  end.

Fixpoint deriv (c : ascii) (r : regex) : regex :=
  match r with
  | Void => Void
  | Eps => Void
  | Cls p => if p c then Eps else Void
  | Alt r1 r2 => alt (deriv c r1) (deriv c r2)
  | Seq r1 r2 =>
      if nullable r1
      then alt (seq (deriv c r1) r2) (deriv c r2)
      else seq (deriv c r1) r2
  | Star r1 => seq (deriv c r1) (Star r1)
  end.

Definition is_void (r : regex) : bool :=
  match r with Void => true | _ => false end.

(** Some prefix of [s] is in the language of [r]. *)
Fixpoint match_prefix (r : regex) (s : string) : bool :=
  nullable r
  || match s with
     | EmptyString => false
     | String c s' =>
         let d := deriv c r in
         if is_void d then false else match_prefix d s'
     end.

(** [re.search(r, s) is not None] *)
Fixpoint search (r : regex) (s : string) : bool :=
  match_prefix r s
  || match s with
     | EmptyString => false
     | String _ s' => search r s'
     end.

End Regex.

(** ** The program's regular expressions with groups, [re.sub], [re.findall]

    Where the program reads a group or the list of matches, the pattern is
    run by a scanner that follows the matcher: leftmost start first, greedy
    repetition. In each of these patterns a repetition is followed by a
    character outside its class, so giving characters back never helps and
    the greedy choice is the only one. *)

Module Patterns.
Import PyStr Regex.

(** Longest prefix of characters in a class, and the rest. *)
Fixpoint span (p : ascii -> bool) (s : string) : string * string :=
  match s with
  | EmptyString => (EmptyString, EmptyString)
  | String c s' =>
      if p c then let (a, b) := span p s' in (String c a, b)
      else (EmptyString, s)
  end.

Definition is_dquote (c : ascii) : bool := Ascii.eqb c dquote.
Definition not_dquote (c : ascii) : bool := negb (is_dquote c).

(** [re.sub(r'^\d+\.\s*', '', s)]: without MULTILINE the pattern can only
    match at position 0, so at most one prefix is removed. *)
Definition strip_numbering (s : string) : string :=
  match span isdecimal s with
  | (String _ _, String dot rest) =>
      if Ascii.eqb dot "."%char then lstrip rest else s
  | _ => s
  end.

(** The pattern QUOTE ([^QUOTE]+) QUOTE matched at the start of [s], where
    QUOTE is the double-quote character: the group and what follows the
    closing quote. *)
Definition match_quoted (s : string) : option (string * string) :=
  match s with
  | String c s' =>
      if is_dquote c then
        match span not_dquote s' with
        | (String a run, String _ rest) => Some (String a run, rest)
        | _ => None
        end
      else None
  | EmptyString => None
  end.

Definition status_key : string :=
  String dquote "status" ++ String dquote ":".
Definition confidence_key : string :=
  String dquote "confidence_score" ++ String dquote ":".

(** [re.search] tries the pattern at every start position, leftmost
    first; [here] is the pattern tried at the start of its argument. *)
Fixpoint first_from {A : Type} (here : string -> option A) (s : string)
    : option A :=
  match here s with
  | Some a => Some a
  | None =>
      match s with
      | EmptyString => None
      | String _ s' => first_from here s'
      end
  end.

(** The key [status] in double quotes, a colon, [\s*] and a quoted group as
    in [match_quoted], tried at the start of [s]; the group. *)
Definition status_here (s : string) : option string :=
  if startswith status_key s
  then match match_quoted (lstrip (drop (String.length status_key) s)) with
       | Some (g, _) => Some g
       | None => None
       end
  else None.

(** [re.search] with that pattern, returning [group(1)]. *)
Definition search_status (s : string) : option string :=
  first_from status_here s.

Definition is_digit_or_dot (c : ascii) : bool :=
  isdecimal c || Ascii.eqb c "."%char.

(** The key [confidence_score] in double quotes, a colon, [\s*] and the
    group [([\d\.]+)], tried at the start of [s]; the group. *)
Definition confidence_here (s : string) : option string :=
  if startswith confidence_key s
  then match span is_digit_or_dot
                 (lstrip (drop (String.length confidence_key) s)) with
       | (String a run, _) => Some (String a run)
       | _ => None
       end
  else None.

(** [re.search] with that pattern, returning [group(1)]. *)
Definition search_confidence (s : string) : option string :=
  first_from confidence_here s.

(** [re.findall] of the pattern of [match_quoted]: try the pattern where
    we stand; after a match go on behind it, otherwise one character
    further. *)
Fixpoint findall_quoted_aux (fuel : nat) (s : string) : list string :=
  match fuel with
  | O => []
  | S fuel' =>
      match match_quoted s with
      | Some (g, rest) => g :: findall_quoted_aux fuel' rest
      | None =>
          match s with
          | EmptyString => []
          | String _ s' => findall_quoted_aux fuel' s'
          end
      end
  end.

Definition findall_quoted (s : string) : list string :=
  findall_quoted_aux (S (String.length s)) s.

(** [re.findall(r'\b\w{4,}\b', s)]: a match starts where a run of word
    characters starts and, being greedy and closed by [\b], takes the
    whole run; runs shorter than four characters give no match. *)
Fixpoint findall_words4_aux (fuel : nat) (s : string) : list string :=
  match fuel with
  | O => []
  | S fuel' =>
      match s with
      | EmptyString => []
      | String c s' =>
          if isword c then
            let (run, rest) := span isword s in
            (if (4 <=? String.length run)%nat then [run] else [])
              ++ findall_words4_aux fuel' rest
          else findall_words4_aux fuel' s'
      end
  end.

Definition findall_words4 (s : string) : list string :=
  findall_words4_aux (S (String.length s)) s.

(** The four claim patterns of [extract_claims], in the order of
    [claim_patterns]. *)
Definition lower_letter : regex := Cls (in_range 97 122).
Definition whitespace : regex := Cls isspace.

(** [(is|are|was|were)\s+([a-z]+ing|[a-z]+ed)] *)
Definition action_pattern : regex :=
  Seqs [ Alts [Lit "is"; Lit "are"; Lit "was"; Lit "were"];
         Plus whitespace;
         Alt (Seq (Plus lower_letter) (Lit "ing"))
             (Seq (Plus lower_letter) (Lit "ed")) ].

(** [(cause[s]?|lead[s]? to)] *)
Definition causal_pattern : regex :=
  Alt (Seq (Lit "cause") (Opt (Chr "s")))
      (Seqs [Lit "lead"; Opt (Chr "s"); Lit " to"]).

(** [according to|study|research] *)
Definition referenced_pattern : regex :=
  Alts [Lit "according to"; Lit "study"; Lit "research"].

(** [all|none|every|always|never] *)
Definition universal_pattern : regex :=
  Alts [Lit "all"; Lit "none"; Lit "every"; Lit "always"; Lit "never"].

(** The two patterns above as syntax, for comparison with the scanners. *)
Definition quoted_regex : regex :=
  Seqs [Chr dquote; Plus (Cls not_dquote); Chr dquote].

Definition status_regex : regex :=
  Seqs [Lit status_key; Star whitespace; quoted_regex].

Definition confidence_regex : regex :=
  Seqs [Lit confidence_key; Star whitespace; Plus (Cls is_digit_or_dot)].

End Patterns.

(** ** Python values, exceptions, numbers *)

(** What [json.loads] can return, and what the verification fields that are
    filled from it can hold. [PNum] stands for both [int] and [float];
    [PInf] and [PNan] are the non-finite floats, which [json.loads]
    accepts and, for the infinity, [float()] returns on overflow. *)
#[warning="-register-all"]
Inductive pyval : Type :=
| PNone
| PBool (b : bool)
| PNum (q : Q)
| PInf (negative : bool)
| PNan
| PStr (s : string)
| PList (items : list pyval)
| PDict (entries : list (string * pyval)).

(** The exceptions that can leave a function of the program. Those raised
    inside a [try] of the program ([AttributeError], [ValueError], whatever
    a collaborator raises) are caught there and have no constructor. *)
Inductive exn : Type :=
| KeyError (key : string)
| TypeError.

Inductive result (A : Type) : Type :=
| Ok (a : A)
| Raise (e : exn).
Arguments Ok {A} a.
Arguments Raise {A} e.

Definition Qlt_bool (a b : Q) : bool := negb (Qle_bool b a).

(** [min(a, b)] and [max(a, b)]: the first argument wins a tie. *)
Definition py_min (a b : Q) : Q := if Qlt_bool b a then b else a.
Definition py_max (a b : Q) : Q := if Qlt_bool a b then b else a.

(** [round(q, 2)]: to the nearest hundredth, a tie going to the even one. *)
Definition py_round2 (q : Q) : Q :=
  let n := (Qnum q * 100)%Z in
  let d := Zpos (Qden q) in
  let f := (n / d)%Z in
  let r := (n mod d)%Z in
  let up :=
    match (2 * r ?= d)%Z with
    | Lt => false
    | Gt => true
    | Eq => Z.odd f
    end in
  Qmake (if up then f + 1 else f) 100.

(** ** Binary64

    The doubles of CPython, as the rationals they are. [fl] rounds a
    rational to the nearest double, a tie going to the even mantissa, with
    the subnormal range at the bottom; a result of [2^1024] or more stands
    for an overflow. *)
Module PyFloat.
Local Open Scope Q_scope.

Definition pow2 (e : Z) : Q := 2 ^ e.

(** The [k] with [2^k <= x < 2^(k+1)], for a positive [x]. *)
Definition floor_log2 (x : Q) : Z :=
  let d := (Z.log2 (Qnum x) - Z.log2 (Zpos (Qden x)))%Z in
  if Qle_bool (pow2 d) x then d else (d - 1)%Z.

(** The nearest integer, a tie going to the even one. *)
Definition rne (x : Q) : Z :=
  let f := Qfloor x in
  match Qcompare (x - inject_Z f) (1 # 2) with
  | Lt => f
  | Gt => (f + 1)%Z
  | Eq => if Z.even f then f else (f + 1)%Z
  end.

(** The exponent of the last mantissa bit of the doubles around [x]: 53
    bits of mantissa, and no exponent below that of the subnormals. *)
Definition ulp_exponent (x : Q) : Z := Z.max (floor_log2 x - 52) (-1074).

Definition round_at (e : Z) (x : Q) : Q :=
  inject_Z (rne (x / pow2 e)) * pow2 e.

(** The double nearest to [x], were the exponent range unbounded above. *)
Definition fl (x : Q) : Q :=
  Qred match Qnum x with
       | Z0 => 0
       | Zpos _ => round_at (ulp_exponent x) x
       | Zneg _ => - round_at (ulp_exponent (- x)) (- x)
       end.

(** Rounding [x] leaves the range of the finite doubles. *)
Definition overflows (x : Q) : bool := Qle_bool (pow2 1024) (Qabs (fl x)).

Definition pow10 (e : Z) : Q := 10 ^ e.

(** The [k] with [10^k <= x < 10^(k+1)], for a positive [x]. *)
Definition floor_log10 (x : Q) : Z :=
  let g := (floor_log2 x * 30103 / 100000)%Z in
  match find (fun j => Qle_bool (pow10 j) x) [g + 2; g + 1; g; g - 1]%Z with
  | Some j => j
  | None => (g - 2)%Z
  end.

(** The two decimals of [n] significant digits around [x], the nearer
    one first. *)
Definition digits_near (x : Q) (n : Z) : list Q :=
  let s := pow10 (floor_log10 x - n + 1) in
  let lo := inject_Z (Qfloor (x / s)) * s in
  let hi := lo + s in
  if Qle_bool (x - lo) (hi - x) then [lo; hi] else [hi; lo].

(** The decimal that [repr] prints for the double [x]: the shortest one
    that rounds to [x], and the nearest to [x] among those, looked for
    among the decimals of up to 17 digits ([x] itself, should none of them
    do). *)
Definition shortest (x : Q) : Q :=
  match find (fun c => Qeq_bool (fl c) x)
             (flat_map (digits_near x) (map Z.of_nat (seq 1 17))) with
  | Some c => Qred c
  | None => x
  end.

End PyFloat.

Module PyVal.
Import PyStr.

(** [bool(v)] *)
Definition truthy (v : pyval) : bool :=
  match v with
  | PNone => false
  | PBool b => b
  | PNum q => negb (Qeq_bool q 0)
  | PInf _ => true
  | PNan => true
  | PStr s => negb (String.eqb s EmptyString)
  | PList l => match l with [] => false | _ => true end
  | PDict d => match d with [] => false | _ => true end
  end.

(** [v == s] for a string literal [s] *)
Definition eq_str (v : pyval) (s : string) : bool :=
  match v with
  | PStr t => String.eqb t s
  | _ => false
  end.

(** [v > q] for a float literal [q]; ordering a non-number against a
    float raises [TypeError]. *)
Definition gt (v : pyval) (q : Q) : result bool :=
  match v with
  | PNum x => Ok (Qlt_bool q x)
  | PBool b => Ok (Qlt_bool q (if b then 1 else 0))
  | PInf negative => Ok (negb negative)
  | PNan => Ok false
  | _ => Raise TypeError
  end.

(** [v < q] for a float literal [q] *)
Definition lt (v : pyval) (q : Q) : result bool :=
  match v with
  | PNum x => Ok (Qlt_bool x q)
  | PBool b => Ok (Qlt_bool (if b then 1 else 0) q)
  | PInf negative => Ok negative
  | PNan => Ok false
  | _ => Raise TypeError
  end.

Fixpoint assoc (d : list (string * pyval)) (k : string) : option pyval :=
  match d with
  | [] => None
  | (k', v) :: d' => if String.eqb k' k then Some v else assoc d' k
  end.

(** [d[k]] on a dict *)
Definition getitem (d : list (string * pyval)) (k : string) : result pyval :=
  match assoc d k with
  | Some v => Ok v
  | None => Raise (KeyError k)
  end.

(** [d.get(k, default)] on a dict *)
Definition get (d : list (string * pyval)) (k : string) (default : pyval) : pyval :=
  match assoc d k with
  | Some v => v
  | None => default
  end.

Definition digit_value (c : ascii) : Z := Z.of_nat (code c) - 48.

Fixpoint digits_value (acc : Z) (s : string) : Z :=
  match s with
  | EmptyString => acc
  | String c s' => digits_value (acc * 10 + digit_value c) s'
  end.

Fixpoint all_digits (s : string) : bool :=
  match s with
  | EmptyString => true
  | String c s' => isdecimal c && all_digits s'
  end.

(** The number that a string of digits with at most one point and at
    least one digit denotes; [None] for anything else the group
    [[\d\.]+] can capture. *)
Definition decimal_of_string (s : string) : option Q :=
  match split_where (Ascii.eqb "."%char) s with
  | [i] =>
      if all_digits i && negb (String.eqb i EmptyString)
      then Some (inject_Z (digits_value 0 i))
      else None
  | [i; f] =>
      if all_digits i && all_digits f
         && negb (String.eqb i EmptyString && String.eqb f EmptyString)
      then Some (Qmake (digits_value (digits_value 0 i) f)
                       (Z.to_pos (10 ^ Z.of_nat (String.length f))))
      else None
  | _ => None
  end.

(** [float(s)] on what the group [[\d\.]+] can capture: the double nearest
    to the number written, infinity when that is out of range; a string
    that is no number raises [ValueError] ([None] here). *)
Definition float_of_string (s : string) : option pyval :=
  match decimal_of_string s with
  | Some q =>
      if PyFloat.overflows q then Some (PInf false)
      else Some (PNum (PyFloat.shortest (PyFloat.fl q)))
  | None => None
  end.

End PyVal.

(** ** Records *)

(** An entry of [verification["sources"]]. *)
Module Source.
Record t : Type := mk {
  name : string;
  url : string;
  retrieved : option string
}.
End Source.

(** The [verification] dict of [verify_claim]. The keys [status],
    [confidence_score], [evidence] and [reasoning] may be filled with
    whatever the oracle's JSON holds. *)
Module Verification.
Record t : Type := mk {
  claim : string;
  status : pyval;
  confidence_score : pyval;
  evidence : pyval;
  sources : list Source.t;
  verification_date : string;
  verification_method : string;
  reasoning : option pyval
}.

Definition set_status (x : pyval) (v : t) : t :=
  mk (claim v) x (confidence_score v) (evidence v) (sources v)
     (verification_date v) (verification_method v) (reasoning v).
Definition set_confidence_score (x : pyval) (v : t) : t :=
  mk (claim v) (status v) x (evidence v) (sources v)
     (verification_date v) (verification_method v) (reasoning v).
Definition set_evidence (x : pyval) (v : t) : t :=
  mk (claim v) (status v) (confidence_score v) x (sources v)
     (verification_date v) (verification_method v) (reasoning v).
Definition set_sources (x : list Source.t) (v : t) : t :=
  mk (claim v) (status v) (confidence_score v) (evidence v) x
     (verification_date v) (verification_method v) (reasoning v).
Definition set_verification_method (x : string) (v : t) : t :=
  mk (claim v) (status v) (confidence_score v) (evidence v) (sources v)
     (verification_date v) x (reasoning v).
Definition set_reasoning (x : pyval) (v : t) : t :=
  mk (claim v) (status v) (confidence_score v) (evidence v) (sources v)
     (verification_date v) (verification_method v) (Some x).
End Verification.

(** A claim dict as [extract_claims] builds it; the key [verification] is
    absent until [verify_claim] attaches one. *)
Module Claim.
Record t : Type := mk {
  id : string;
  text : string;
  confidence : Q;
  extraction_method : string;
  source_url : string;
  extraction_date : string;
  verification : option Verification.t
}.

(** [claim["verification"] = v] *)
Definition set_verification (v : Verification.t) (c : t) : t :=
  mk (id c) (text c) (confidence c) (extraction_method c) (source_url c)
     (extraction_date c) (Some v).
End Claim.

(** An entry of [verified_claims] in [analyze_source]. *)
Module VerifiedClaim.
Record t : Type := mk {
  claim_text : string;
  confidence : Q;
  verification : Verification.t
}.
End VerifiedClaim.

(** The report of [analyze_source]. *)
Module Analysis.
Record t : Type := mk {
  url : string;
  title : pyval;
  source_domain : pyval;
  analysis_date : string;
  claims_found : nat;
  claims_verified : nat;
  verified_claims : list VerifiedClaim.t;
  credibility_score : Q;
  credibility_reasoning : string
}.
End Analysis.

(** ** The collaborators *)

(** [model.generate_content(prompt)] followed by [hasattr(response, 'text')]
    and the read of [response.text]: an exception somewhere on the way, a
    response without text, or the text. *)
Inductive oracle_reply : Type :=
| OracleRaises
| NoText
| Reply (text : string).

(** A page of the encyclopedia client. [content] and [summary] are fetched
    when first read, and reading either may raise ([None]). *)
Module WikiPage.
Record t : Type := mk {
  url : string;
  content : option string;
  summary : option string
}.
End WikiPage.

(** What [ingest_url] gets from [requests] and [BeautifulSoup]: an exception
    anywhere inside its [try] (with its message), or the parts of the parsed
    page that it reads. *)
Inductive fetch_result : Type :=
| FetchRaises (message : string)
| Fetched
    (title : option pyval)          (* [soup.title.string], when [soup.title] *)
    (paragraphs : list string)      (* [p.text] for each [<p>] *)
    (published_time : option string). (* [content] of the date [<meta>] *)

(** [json.loads(s)]: the parsed value, [json.JSONDecodeError], or another
    exception (a [RecursionError] on deep nesting). *)
Inductive json_outcome : Type :=
| Parsed (data : pyval)
| JSONDecodeError
| JSONOtherError.

(** The environment of one call. The two prompts are fixed templates around
    one interpolated string, so each oracle entry is given as a function of
    that string. [now] is the reading of [datetime.now().isoformat()]. *)
Record env : Type := mk_env {
  GEMINI_API_KEY : bool;
  now : string;
  extraction_oracle : string -> oracle_reply;
  verification_oracle : string -> oracle_reply;
  json_loads : string -> json_outcome;
  wikipedia_search : string -> option (list string);
  wikipedia_page : string -> option WikiPage.t;
  fetch : string -> fetch_result
}.

(** The claim store, [claims_db]. *)
Abbreviation claims_db := (gmap string Claim.t).

(** ** Claim extraction *)

Section Program.
Import PyStr Regex Patterns PyVal.
Variable E : env.

(** The loop state of [extract_claims]: the list built so far, the next
    [claim_id], and the store. *)
Record extraction : Type := mk_extraction {
  extracted_claims : list Claim.t;
  claim_id : nat;
  store : claims_db
}.

Definition new_claim (n : nat) (text : string) (confidence : Q)
    (method url : string) : Claim.t :=
  Claim.mk ("claim_" ++ of_nat n) text confidence method url (now E) None.

(** [extracted_claims.append(claim); claim_id += 1;
    claims_db[claim["id"]] = claim] *)
Definition record_claim (c : Claim.t) (st : extraction) : extraction :=
  mk_extraction (extracted_claims st ++ [c]) (S (claim_id st))
                (<[Claim.id c := c]> (store st)).

(** The body of [for claim_text in claims_text]. *)
Definition oracle_line (url line : string) (st : extraction) : extraction :=
  let claim_text := strip line in
  if String.eqb claim_text EmptyString
     || String.eqb claim_text "No claims found."
  then st
  else
    let claim_text := strip_numbering claim_text in
    record_claim (new_claim (claim_id st) claim_text 0.85%Q "gemini" url) st.

Definition oracle_lines (url : string) (lines : list string)
    (st : extraction) : extraction :=
  fold_left (fun st line => oracle_line url line st) lines st.

(** The block under [if GEMINI_API_KEY:]; every exception of the [try]
    ends in the [except] branch, which only prints. *)
Definition extraction_oracle_stage (text url : string) (st : extraction)
    : extraction :=
  if GEMINI_API_KEY E then
    match extraction_oracle E (take 4000 text) with
    | Reply response_text =>
        oracle_lines url
          (split_where (Ascii.eqb newline) (strip response_text)) st
    | NoText => st
    | OracleRaises => st
    end
  else st.

Definition claim_patterns : list (regex * Q) :=
  [ (action_pattern, 0.7%Q);
    (causal_pattern, 0.8%Q);
    (referenced_pattern, 0.75%Q);
    (universal_pattern, 0.9%Q) ].

(** [for pattern, conf_boost in claim_patterns], up to its [break]: the
    confidence of the claim to emit, if some pattern matches. *)
Fixpoint first_match (patterns : list (regex * Q)) (sentence : string)
    (confidence : Q) : option Q :=
  match patterns with
  | [] => None
  | (pattern, conf_boost) :: patterns' =>
      if search pattern (lower sentence)
      then Some (py_min 0.95 (confidence + conf_boost))%Q
      else first_match patterns' sentence confidence
  end.

(** The body of [for sentence in sentences]. *)
Definition heuristic_sentence (url sentence : string) (st : extraction)
    : extraction :=
  let sentence := strip sentence in
  if (String.length sentence <? 10)%nat then st
  else
    match first_match claim_patterns sentence 0.5%Q with
    | Some confidence =>
        record_claim
          (new_claim (claim_id st) sentence (py_round2 confidence)
                     "pattern_matching" url) st
    | None => st
    end.

Definition is_sentence_end (c : ascii) : bool :=
  Ascii.eqb c "."%char || Ascii.eqb c "!"%char || Ascii.eqb c "?"%char.

(** The block under [if not extracted_claims:]. *)
Definition heuristic_stage (text url : string) (st : extraction)
    : extraction :=
  match extracted_claims st with
  | [] =>
      fold_left (fun st sentence => heuristic_sentence url sentence st)
                (split_where is_sentence_end text) st
  | _ :: _ => st
  end.

Definition demo_claim (n : nat) (url : string) : Claim.t :=
  new_claim n "Vaccines cause autism." 0.95%Q "demo_hardcoded" url.

(** The block under [if "vaccine" in text.lower():]; [claim_id] is not
    advanced here. *)
Definition demo_stage (text url : string) (st : extraction) : extraction :=
  if contains "vaccine" (lower text) then
    let c := demo_claim (claim_id st) url in
    mk_extraction (extracted_claims st ++ [c]) (claim_id st)
                  (<[Claim.id c := c]> (store st))
  else st.

(** [extract_claims(text, url)]: the returned list and the store after
    the call. *)
Definition extract_claims (text url : string) (db : claims_db)
    : list Claim.t * claims_db :=
  let st := mk_extraction [] 1 db in
  let st := extraction_oracle_stage text url st in
  let st := heuristic_stage text url st in
  let st := demo_stage text url st in
  (extracted_claims st, store st).

(** ** Claim verification *)

Definition initial_verification (claim_text : string) : Verification.t :=
  Verification.mk claim_text (PStr "Unverified") (PNum 0.5) (PList []) []
                  (now E) "pattern_matching" None.

(** [verification.update({...})] from the parsed JSON. A parsed value
    that is not a dict has no [get]: the [AttributeError] leaves the
    inner [try] and is caught by the outer [except], with nothing
    changed. *)
Definition oracle_structured (verification_data : pyval)
    (v : Verification.t) : Verification.t :=
  match verification_data with
  | PDict d =>
      Verification.mk
        (Verification.claim v)
        (get d "status" (PStr "Unverified"))
        (get d "confidence_score" (PNum 0.5))
        (get d "evidence" (PList []))
        (Verification.sources v)
        (Verification.verification_date v)
        "gemini"
        (Some (get d "reasoning" (PStr EmptyString)))
  | _ => v
  end.

(** The tail of the [except json.JSONDecodeError] branch, from the
    evidence matches on. *)
Definition oracle_regex_evidence (text_response : string)
    (v : Verification.t) : Verification.t :=
  let evidence_matches := findall_quoted text_response in
  let v :=
    match evidence_matches with
    | [] => v
    | _ :: _ =>
        Verification.set_evidence
          (PList (map PStr (firstn 3 evidence_matches))) v
    end in
  Verification.set_verification_method "gemini_regex" v.

(** The [except json.JSONDecodeError] branch. When [float] raises
    [ValueError] the outer [except] catches it: a status already written
    stays, the rest of the branch is skipped. *)
Definition oracle_regex (text_response : string) (v : Verification.t)
    : Verification.t :=
  let v :=
    match search_status text_response with
    | Some s => Verification.set_status (PStr s) v
    | None => v
    end in
  match search_confidence text_response with
  | Some g =>
      match float_of_string g with
      | Some confidence =>
          oracle_regex_evidence text_response
            (Verification.set_confidence_score confidence v)
      | None => v
      end
  | None => oracle_regex_evidence text_response v
  end.

(** The block under [if GEMINI_API_KEY:] of [verify_claim]. *)
Definition verification_oracle_stage (claim_text : string)
    (v : Verification.t) : Verification.t :=
  if GEMINI_API_KEY E then
    match verification_oracle E claim_text with
    | Reply response_text =>
        let stripped := strip response_text in
        match json_loads E stripped with
        | Parsed verification_data => oracle_structured verification_data v
        | JSONDecodeError => oracle_regex stripped v
        | JSONOtherError => v
        end
    | NoText => v
    | OracleRaises => v
    end
  else v.

(** [sum(1 for x in l if p x)] *)
Fixpoint count_where {A : Type} (p : A -> bool) (l : list A) : nat :=
  match l with
  | [] => O
  | x :: l' => if p x then S (count_where p l') else count_where p l'
  end.

(** [match_count / len(key_terms) if key_terms else 0]: the quotient of
    two integers is the double nearest to it. *)
Definition match_ratio (key_terms : list string) (content : string) : Q :=
  let match_count := count_where (fun term => contains term content) key_terms in
  match key_terms with
  | [] => 0
  | _ :: _ => PyFloat.fl (inject_Z (Z.of_nat match_count)
                          / inject_Z (Z.of_nat (length key_terms)))
  end.

(** [0.6 + (match_ratio * 0.3)] on doubles: the product is rounded, then
    the sum. *)
Definition lookup_score (ratio : Q) : Q :=
  PyFloat.fl (PyFloat.fl 0.6 + PyFloat.fl (ratio * PyFloat.fl 0.3)).

(** The claim's key terms: [re.findall(r'\b\w{4,}\b', claim_text.lower())] *)
Definition key_terms_of (claim_text : string) : list string :=
  findall_words4 (lower claim_text).

Definition wikipedia_source (page : WikiPage.t) : Source.t :=
  Source.mk "Wikipedia" (WikiPage.url page) (Some (now E)).

(** The block under [if not verification["evidence"]:]. Both [try]
    blocks only print in their [except] branch, so an exception keeps
    what was written before it. [append] on an [evidence] that is no
    list raises [AttributeError]. *)
Definition wikipedia_stage (claim_text : string) (v : Verification.t)
    : Verification.t :=
  if truthy (Verification.evidence v) then v
  else
    match wikipedia_search E claim_text with
    | None => v
    | Some [] => v
    | Some (first :: _) =>
        match wikipedia_page E first with
        | None => v
        | Some wiki_page =>
            let v :=
              Verification.set_sources
                (Verification.sources v ++ [wikipedia_source wiki_page]) v in
            let key_terms := key_terms_of claim_text in
            match WikiPage.content wiki_page with
            | None => v
            | Some page_content =>
                let content := lower page_content in
                let ratio := match_ratio key_terms content in
                if Qlt_bool (PyFloat.fl 0.7) ratio then
                  match WikiPage.summary wiki_page with
                  | None => v
                  | Some page_summary =>
                      let summary := (take 500 page_summary ++ "...")%string in
                      match Verification.evidence v with
                      | PList items =>
                          Verification.set_confidence_score
                            (PNum (lookup_score ratio))
                            (Verification.set_evidence
                               (PList (items ++ [PStr summary])) v)
                      | _ => v
                      end
                  end
                else v
            end
        end
    end.

Definition demo_evidence : list pyval :=
  [ PStr "Multiple large studies have found no link between vaccines and autism.";
    PStr "The original study suggesting a link was retracted due to serious procedural and ethical concerns." ].

Definition demo_sources : list Source.t :=
  [ Source.mk "CDC" "https://www.cdc.gov/vaccinesafety/concerns/autism.html" None;
    Source.mk "WHO" "https://www.who.int/news-room/questions-and-answers/item/vaccines-and-immunization-myths-and-misconceptions" None ].

(** The block under [if "vaccine" in ... and "autism" in ...:]. *)
Definition verification_demo_stage (claim_text : string)
    (v : Verification.t) : Verification.t :=
  if contains "vaccine" (lower claim_text)
     && contains "autism" (lower claim_text)
  then
    Verification.mk (Verification.claim v) (PStr "False") (PNum 0.95)
      (PList demo_evidence) demo_sources
      (Verification.verification_date v) "demo_hardcoded"
      (Verification.reasoning v)
  else v.

(** The last [if] of [verify_claim]; the two comparisons are outside
    every [try]. *)
Definition resolve_status (v : Verification.t) : result Verification.t :=
  if eq_str (Verification.status v) "Unverified"
     && truthy (Verification.evidence v)
  then
    match gt (Verification.confidence_score v) 0.8 with
    | Raise e => Raise e
    | Ok true => Ok (Verification.set_status (PStr "True") v)
    | Ok false =>
        match lt (Verification.confidence_score v) 0.2 with
        | Raise e => Raise e
        | Ok true => Ok (Verification.set_status (PStr "False") v)
        | Ok false =>
            if truthy (Verification.evidence v)
            then Ok (Verification.set_status (PStr "Partially True") v)
            else Ok v
        end
    end
  else Ok v.

(** [claims_db[claim_id]] when [claim_id and claim_id in claims_db]. *)
Definition known_claim (claim_id : option string) (db : claims_db)
    : option (string * Claim.t) :=
  match claim_id with
  | Some i =>
      if String.eqb i EmptyString then None
      else match db !! i with
           | Some claim_obj => Some (i, claim_obj)
           | None => None
           end
  | None => None
  end.

(** The text [verify_claim] works on: the stored text when the id is
    known, the argument otherwise. *)
Definition resolved_text (claim_text : string) (claim_id : option string)
    (db : claims_db) : string :=
  match known_claim claim_id db with
  | Some (_, claim_obj) => Claim.text claim_obj
  | None => claim_text
  end.

(** The verification as it stands before the status is resolved. *)
Definition verification_stages (claim_text : string) : Verification.t :=
  verification_demo_stage claim_text
    (wikipedia_stage claim_text
       (verification_oracle_stage claim_text
          (initial_verification claim_text))).

(** [claims_db[claim_id]["verification"] = verification] under its guard. *)
Definition attach (claim_id : option string) (v : Verification.t)
    (db : claims_db) : claims_db :=
  match known_claim claim_id db with
  | Some (i, claim_obj) => <[i := Claim.set_verification v claim_obj]> db
  | None => db
  end.

(** [verify_claim(claim_text, claim_id)]: what the call returns or raises,
    and the store after it. *)
Definition verify_claim (claim_text : string) (claim_id : option string)
    (db : claims_db) : result Verification.t * claims_db :=
  let claim_text := resolved_text claim_text claim_id db in
  match resolve_status (verification_stages claim_text) with
  | Raise e => (Raise e, db)
  | Ok verification => (Ok verification, attach claim_id verification db)
  end.

(** ** Source credibility *)

Definition has_status (s : string) (vc : VerifiedClaim.t) : bool :=
  eq_str (Verification.status (VerifiedClaim.verification vc)) s.

(** [calculate_source_credibility(verified_claims)] *)
Definition calculate_source_credibility
    (verified_claims : list VerifiedClaim.t) : Q :=
  match verified_claims with
  | [] => 0.5
  | _ :: _ =>
      let total := length verified_claims in
      let true_count := count_where (has_status "True") verified_claims in
      let false_count := count_where (has_status "False") verified_claims in
      if (0 <? total)%nat then
        let credibility :=
          (0.5 + inject_Z (Z.of_nat true_count - Z.of_nat false_count)
                 / inject_Z (2 * Z.of_nat total))%Q in
        py_max 0.01 (py_min 0.99 credibility)
      else 0.5
  end.

(** ** Ingestion and the analysis pipeline *)

(** [url.split("//")[-1].split("/")[0]] *)
Definition source_domain_of (url : string) : string :=
  hd EmptyString
     (split_where (Ascii.eqb "/"%char)
        (List.last (split_str "//" url) EmptyString)).

Definition paragraph_break : string :=
  String newline (String newline EmptyString).

(** [ingest_url(url)]: the dict it returns, as its items in order. *)
Definition ingest_url (url : string) : list (string * pyval) :=
  match fetch E url with
  | Fetched page_title paragraphs published_time =>
      let title :=
        match page_title with
        | Some t => t
        | None => PStr "No title found"
        end in
      let main_content :=
        fold_left (fun acc p => (acc ++ p ++ paragraph_break)%string)
                  paragraphs EmptyString in
      let pub_date :=
        match published_time with
        | Some d => d
        | None => now E
        end in
      [ ("url", PStr url);
        ("title", title);
        ("content", PStr (take 5000 main_content));
        ("publication_date", PStr pub_date);
        ("source_domain", PStr (source_domain_of url));
        ("extraction_date", PStr (now E)) ]
  | FetchRaises message =>
      [ ("url", PStr url);
        ("error", PStr message);
        ("status", PStr "failed") ]
  end.

(** Computations that read and write the store and may raise. *)
Definition M (A : Type) : Type := claims_db -> result A * claims_db.

Definition ret {A : Type} (a : A) : M A := fun db => (Ok a, db).

Definition bind {A B : Type} (m : M A) (k : A -> M B) : M B :=
  fun db =>
    match m db with
    | (Ok a, db') => k a db'
    | (Raise e, db') => (Raise e, db')
    end.

Definition lift {A : Type} (r : result A) : M A := fun db => (r, db).

(** A call that cannot raise. *)
Definition total {A : Type} (f : claims_db -> A * claims_db) : M A :=
  fun db => let (a, db') := f db in (Ok a, db').

Notation "'let*' x := m 'in' k" := (bind m (fun x => k))
  (at level 10, x name, m at level 100, k at level 200).

(** The [for claim in claims] loop of [analyze_source]. *)
Fixpoint verify_each (claims : list Claim.t)
    (verified_claims : list VerifiedClaim.t) : M (list VerifiedClaim.t) :=
  match claims with
  | [] => ret verified_claims
  | claim :: claims' =>
      let* verification :=
        verify_claim (Claim.text claim) (Some (Claim.id claim)) in
      verify_each claims'
        (verified_claims
           ++ [VerifiedClaim.mk (Claim.text claim) (Claim.confidence claim)
                                verification])
  end.

(** [extract_claims] takes a [str]; [ingest_url] never stores anything
    else under [content]. *)
Definition as_text (v : pyval) : result string :=
  match v with
  | PStr s => Ok s
  | _ => Raise TypeError
  end.

(** [analyze_source(url)] *)
Definition analyze_source (url : string) : M Analysis.t :=
  let content_data := ingest_url url in
  let* content := lift (getitem content_data "content") in
  let* text := lift (as_text content) in
  let* claims := total (extract_claims text url) in
  let* verified_claims := verify_each claims [] in
  let* title := lift (getitem content_data "title") in
  let* source_domain := lift (getitem content_data "source_domain") in
  ret (Analysis.mk url title source_domain (now E)
         (length claims) (length verified_claims) verified_claims
         (calculate_source_credibility verified_claims)
         "Based on ratio of true versus false claims").

End Program.

Arguments count_where {A} p l.

(** ** News search, the trending list and monitors *)

(** [l[:n]]: a negative [n] counts from the end. *)
Definition slice_to {A : Type} (n : Z) (l : list A) : list A :=
  if (0 <=? n)%Z then firstn (Z.to_nat n) l
  else firstn (length l - Z.to_nat (- n)) l.

(** [s[:n]] on a string. *)
Definition str_slice_to (n : Z) (s : string) : string :=
  if (0 <=? n)%Z then PyStr.take (Z.to_nat n) s
  else PyStr.take (String.length s - Z.to_nat (- n)) s.

(** [range(a, b)] *)
Definition py_range (a b : Z) : list Z :=
  map (fun k => (a + Z.of_nat k)%Z) (seq 0 (Z.to_nat (b - a))).

(** [str(i)] for an integer *)
Definition str_of_int (i : Z) : string :=
  if (i <? 0)%Z then String "-"%char (PyStr.of_nat (Z.to_nat (- i)))
  else PyStr.of_nat (Z.to_nat i).

(** What [requests.get(url)] gives [search_news]: an exception, or a
    response with its [status_code] and what [response.json()] does on it
    (the parsed body, or [None] when it raises). *)
Inductive http_outcome : Type :=
| HttpRaises
| HttpResponse (status_code : Z) (body : option pyval).

(** The environment of [search_news]: the variable [NEWSAPI_KEY] if it is
    set, the reading of [datetime.now().isoformat()] taken while item [i]
    of a simulated list is built, and the HTTP client as a function of the
    URL. *)
Record news_env : Type := mk_news_env {
  NEWSAPI_KEY : option string;
  news_now : Z -> string;
  requests_get : string -> http_outcome
}.

(** An article dict, as its items in order. *)
Abbreviation article := (list (string * pyval)).

Section News.
Variable N : news_env.

(** [os.getenv("NEWSAPI_KEY", "demo_key")] *)
Definition api_key : string :=
  match NEWSAPI_KEY N with
  | Some k => k
  | None => "demo_key"
  end.

(** The simulated article number [i] of the demo branch. *)
Definition sample_article (query : string) (i : Z) : article :=
  [ ("title", PStr ("Sample article about " ++ query ++ " #" ++ str_of_int i));
    ("url", PStr ("https://example.com/article" ++ str_of_int i));
    ("source", PStr ("News Source " ++ str_of_int i));
    ("published_at", PStr (news_now N i)) ].

(** The simulated discussion number [i] of the reddit branch. *)
Definition reddit_article (query : string) (i : Z) : article :=
  [ ("title", PStr ("Reddit discussion about " ++ query ++ " #" ++ str_of_int i));
    ("url", PStr ("https://reddit.com/r/news/comments/" ++ str_of_int i));
    ("source", PStr "Reddit");
    ("published_at", PStr (news_now N i));
    ("comments", PNum (inject_Z (10 * i))) ].

(** [range(1, min(limit + 1, 6))] *)
Definition demo_range (limit : Z) : list Z :=
  py_range 1 (Z.min (limit + 1) 6).

Definition newsapi_url (query : string) (limit : Z) : string :=
  "https://newsapi.org/v2/everything?q=" ++ query ++ "&apiKey=" ++ api_key
    ++ "&pageSize=" ++ str_of_int limit.

(** The dict appended for one article of the answer. An article, or its
    [source], that is no dict has no [get]: the call raises ([None]). *)
Definition converted_article (a : pyval) : option article :=
  match a with
  | PDict d =>
      match PyVal.get d "source" (PDict []) with
      | PDict source =>
          Some [ ("title", PyVal.get d "title" (PStr EmptyString));
                 ("url", PyVal.get d "url" (PStr EmptyString));
                 ("source", PyVal.get source "name" (PStr EmptyString));
                 ("published_at", PyVal.get d "publishedAt" (PStr EmptyString)) ]
      | _ => None
      end
  | _ => None
  end.

(** The [for article in ...] loop: the first article that raises ends the
    call. *)
Fixpoint converted_articles (articles : list pyval) (results : list article)
    : option (list article) :=
  match articles with
  | [] => Some results
  | a :: articles' =>
      match converted_article a with
      | Some r => converted_articles articles' (results ++ [r])
      | None => None
      end
  end.

(** [for article in data.get("articles", [])[:limit]] on the parsed body.
    A body that is no dict has no [get]; a list is sliced and walked; a
    string is sliced too, and each of its characters then fails on [get];
    any other value cannot be sliced. *)
Definition newsapi_results (data : pyval) (limit : Z) : option (list article) :=
  match data with
  | PDict d =>
      match PyVal.get d "articles" (PList []) with
      | PList articles => converted_articles (slice_to limit articles) []
      | PStr s =>
          match str_slice_to limit s with
          | EmptyString => Some []
          | String _ _ => None
          end
      | _ => None
      end
  | _ => None
  end.

(** [search_news(query, source, limit)]: the list it returns, or [None] when
    an exception reaches the caller (nothing in the function catches one). *)
Definition search_news (query source : string) (limit : Z)
    : option (list article) :=
  if String.eqb source "newsapi" then
    if String.eqb api_key "demo_key" then
      Some (map (sample_article query) (demo_range limit))
    else
      match requests_get N (newsapi_url query limit) with
      | HttpRaises => None
      | HttpResponse status_code body =>
          if (status_code =? 200)%Z then
            match body with
            | Some data => newsapi_results data limit
            | None => None
            end
          else Some []
      end
  else if String.eqb source "reddit" then
    Some (map (reddit_article query) (demo_range limit))
  else Some [].

End News.

(** An entry of the trending list. *)
Module Trend.
Record t : Type := mk {
  claim : string;
  spread_score : Q;
  truth_score : Q;
  topic : string;
  first_seen : string
}.
End Trend.

(** The list [trending] of [get_trending_misinfo]. *)
Definition trending : list Trend.t :=
  [ Trend.mk "5G technology is causing COVID-19 symptoms"
             0.85 0.05 "health" "2025-04-15";
    Trend.mk "Elections were rigged using secret algorithms"
             0.92 0.12 "politics" "2025-03-22";
    Trend.mk "Drinking bleach cures cancer"
             0.75 0.01 "health" "2025-02-07";
    Trend.mk "Climate change is a hoax created by scientists"
             0.88 0.04 "environment" "2025-01-30";
    Trend.mk "New cryptocurrency guaranteed to increase 1000% in value"
             0.79 0.10 "finance" "2025-04-05" ].

(** [topic.lower() in item["topic"].lower()] *)
Definition about_topic (topic : string) (item : Trend.t) : bool :=
  PyStr.contains (PyStr.lower topic) (PyStr.lower (Trend.topic item)).

(** [get_trending_misinfo(topic, limit)]; [if topic:] fails on [None] and
    on the empty string. *)
Definition get_trending_misinfo (topic : option string) (limit : Z)
    : list Trend.t :=
  let filtered :=
    match topic with
    | Some (String c t) => List.filter (about_topic (String c t)) trending
    | Some EmptyString => trending
    | None => trending
    end in
  slice_to limit filtered.

(** The dict of [setup_monitor]. *)
Module Monitor.
Record t : Type := mk {
  id : string;
  keywords : list string;
  threshold : Q;
  status : string;
  created_at : string
}.
End Monitor.

(** [setup_monitor(keywords, threshold)]. The clock is read twice: for
    [str(datetime.now().timestamp())], here [timestamp], and for
    [datetime.now().isoformat()], here [created]. *)
Definition setup_monitor (timestamp created : string)
    (keywords : list string) (threshold : Q) : Monitor.t :=
  Monitor.mk
    ("monitor_" ++ PyStr.of_nat (length keywords) ++ "_" ++ timestamp)
    keywords threshold "active" created.

(** * Vocabulary of the statements *)

(** Every character of the string is in the class. *)
Fixpoint all_chars (p : ascii -> bool) (s : string) : bool :=
  match s with
  | EmptyString => true
  | String c s' => p c && all_chars p s'
  end.

(** The string does not start with a character of the class. *)
Definition stops (p : ascii -> bool) (s : string) : Prop :=
  match s with
  | EmptyString => True
  | String c _ => p c = false
  end.

(** A character that is no word character. *)
Definition nonword (c : ascii) : bool := negb (PyStr.isword c).

(** The words of a text in the spec's sense: the maximal runs of word
    characters, read off by cutting the text at every other character. *)
Definition word_tokens (s : string) : list string :=
  List.filter (fun w => negb (String.eqb w EmptyString))
    (PyStr.split_where nonword s).

(** The words of four characters or more. *)
Definition long_tokens (s : string) : list string :=
  List.filter (fun w => (4 <=? String.length w)%nat) (word_tokens s).

(** How many of the terms occur in the text. *)
Definition terms_found (terms : list string) (content : string) : nat :=
  count_where (fun term => PyStr.contains term content) terms.

(** T, F and N of the credibility rule. *)
Definition true_count (vcs : list VerifiedClaim.t) : Z :=
  Z.of_nat (count_where (has_status "True") vcs).
Definition false_count (vcs : list VerifiedClaim.t) : Z :=
  Z.of_nat (count_where (has_status "False") vcs).
Definition total_count (vcs : list VerifiedClaim.t) : Z :=
  Z.of_nat (length vcs).

(** The score before clamping: 0.5 + (T - F) / (2N). *)
Definition raw_score (vcs : list VerifiedClaim.t) : Q :=
  (0.5 + inject_Z (true_count vcs - false_count vcs)
         / inject_Z (2 * total_count vcs))%Q.


(** [len(v)] is [n], for a list. *)
Definition has_items (n : nat) (v : pyval) : Prop :=
  exists items : list pyval, v = PList items /\ length items = n.

(** A float that is not negative: a number, or the infinity. *)
Definition nonneg_float (v : pyval) : Prop :=
  (exists q : Q, v = PNum q /\ (0 <= q)%Q) \/ v = PInf false.

(** The least double above the double nearest to 0.7, and the double
    below the one nearest to 0.9 (Python prints 0.7000000000000001 and
    0.8999999999999999). *)
Definition above_threshold : Q := 6305039478318695 # 9007199254740992.
Definition below_nine_tenths : Q := 2026619832316723 # 2251799813685248.

(** [float()] returned the double that Python prints as [q]. *)
Definition float_is (outcome : option pyval) (q : Q) : Prop :=
  exists q' : Q, outcome = Some (PNum q') /\ (q' == q)%Q.

(** A value that Python cannot order against a float. *)
Definition unordered (v : pyval) : Prop :=
  match v with
  | PNone | PStr _ | PList _ | PDict _ => True
  | PBool _ | PNum _ | PInf _ | PNan => False
  end.



(** Two claims that agree on every key but [verification]. *)
Definition same_claim (c c' : Claim.t) : Prop :=
  Claim.id c' = Claim.id c
  /\ Claim.text c' = Claim.text c
  /\ Claim.confidence c' = Claim.confidence c
  /\ Claim.extraction_method c' = Claim.extraction_method c
  /\ Claim.source_url c' = Claim.source_url c
  /\ Claim.extraction_date c' = Claim.extraction_date c.

(** The store holds, under [i], the claim [c] with the verification [v]
    as its attachment and every other key as in [c]. *)
Definition attached (db : claims_db) (i : string) (c : Claim.t)
    (v : Verification.t) : Prop :=
  exists c' : Claim.t,
    db !! i = Some c' /\ same_claim c c' /\ Claim.verification c' = Some v.

(** The stores the program can build: [claims_db] starts empty and is
    written by [extract_claims] and [verify_claim] only. *)
Inductive reachable : claims_db -> Prop :=
| reachable_empty : reachable ∅
| reachable_extract (E : env) (text url : string) (db : claims_db) :
    reachable db -> reachable (snd (extract_claims E text url db))
| reachable_verify (E : env) (claim_text : string) (claim_id : option string)
    (db : claims_db) :
    reachable db -> reachable (snd (verify_claim E claim_text claim_id db)).

(** The id of the claim numbered [n]. *)
Definition claim_key (n : nat) : string := "claim_" ++ PyStr.of_nat n.

(** A store after the claims of a list were written to it, in order. *)
Definition store_of (db : claims_db) (cs : list Claim.t) : claims_db :=
  fold_left (fun m c => <[Claim.id c := c]> m) cs db.

(** The same environment with no API key configured. *)
Definition without_key (E : env) : env :=
  mk_env false (now E) (extraction_oracle E) (verification_oracle E)
         (json_loads E) (wikipedia_search E) (wikipedia_page E) (fetch E).

(** A line of the oracle's answer that becomes a claim: not blank and not
    the sentinel. *)
Definition kept_line (line : string) : bool :=
  negb (String.eqb (PyStr.strip line) EmptyString
        || String.eqb (PyStr.strip line) "No claims found.").

(** The three kinds of claim [extract_claims] builds. *)
Definition oracle_made (c : Claim.t) : Prop :=
  Claim.extraction_method c = "gemini" /\ Claim.confidence c = 0.85%Q.
Definition heuristic_made (c : Claim.t) : Prop :=
  Claim.extraction_method c = "pattern_matching"
  /\ Claim.confidence c = 0.95%Q.

(** No sentence terminator. *)
Definition inside_sentence (c : ascii) : bool := negb (is_sentence_end c).

(** The loop state of [extract_claims] seen from the store [db] the call
    started with: the ids are claim_1, claim_2, ... in order, [claim_id] is
    the next number, and the store is [db] with the claims written to it. *)
Definition well_numbered (db : claims_db) (st : extraction) : Prop :=
  map Claim.id (extracted_claims st)
  = map claim_key (seq 1 (length (extracted_claims st)))
  /\ claim_id st = S (length (extracted_claims st))
  /\ store st = store_of db (extracted_claims st).

(** What every claim of one call carries besides its text and kind. *)
Definition fresh_claim (url : string) (c : Claim.t) : Prop :=
  Claim.source_url c = url /\ Claim.verification c = None.

(** A sentence that the heuristic path turns into a claim: ten characters
    or more once trimmed, and some claim pattern matches it. *)
Definition claim_like (sentence : string) : bool :=
  (10 <=? String.length (PyStr.strip sentence))%nat
  && existsb (fun p => Regex.search (fst p)
                         (PyStr.lower (PyStr.strip sentence)))
             claim_patterns.

(** The oracle stage of [extract_claims] has nothing to offer: no key, an
    exception, a response without text, or an answer without a usable
    line. *)
Definition oracle_silent (E : env) (text : string) : Prop :=
  GEMINI_API_KEY E = false
  \/ extraction_oracle E (PyStr.take 4000 text) = OracleRaises
  \/ extraction_oracle E (PyStr.take 4000 text) = NoText
  \/ exists r : string,
      extraction_oracle E (PyStr.take 4000 text) = Reply r
      /\ List.filter kept_line
           (PyStr.split_where (Ascii.eqb PyStr.newline) (PyStr.strip r)) = [].

(** The texts of the fixed claim, when the text calls for it. *)
Definition demo_texts (text : string) : list string :=
  if PyStr.contains "vaccine" (PyStr.lower text)
  then ["Vaccines cause autism."] else [].


(** The text of a claim made by the heuristic path: trimmed, ten characters
    or more, and free of the three sentence terminators. Claims of the other
    two kinds are not constrained. *)
Definition sentence_text (c : Claim.t) : Prop :=
  Claim.extraction_method c = "pattern_matching" ->
  PyStr.strip (Claim.text c) = Claim.text c
  /\ (10 <= String.length (Claim.text c))%nat
  /\ all_chars inside_sentence (Claim.text c) = true.

(** The oracle stage of [verify_claim] has nothing to offer: no key, an
    exception, a response without text, an answer on which [json.loads]
    fails with something other than a decode error, or an answer that
    parses to a value that is no object. *)
Definition verifier_silent (E : env) (text : string) : Prop :=
  GEMINI_API_KEY E = false
  \/ verification_oracle E text = OracleRaises
  \/ verification_oracle E text = NoText
  \/ exists r : string,
      verification_oracle E text = Reply r
      /\ (json_loads E (PyStr.strip r) = JSONOtherError
          \/ exists data : pyval,
              json_loads E (PyStr.strip r) = Parsed data
              /\ forall d, data <> PDict d).

(** The excerpt of a summary that the lookup stage stores as evidence. *)
Definition excerpt (summary : string) : pyval :=
  PStr (PyStr.take 500 summary ++ "...").

(** The four tags of [verification_method]. *)
Definition method_tags : list string :=
  ["pattern_matching"; "gemini"; "gemini_regex"; "demo_hardcoded"].

(** The sources a verification can end up with: none, one encyclopedia
    page, or the two fixed ones. *)
Definition source_shapes (E : env) (sources : list Source.t) : Prop :=
  sources = []
  \/ (exists page : WikiPage.t, sources = [wikipedia_source E page])
  \/ sources = demo_sources.

(** No double quote. *)
Definition quote_free (s : string) : bool := all_chars Patterns.not_dquote s.

(** A list of at most [n] non-empty strings without a double quote. *)
Definition quoted_items (n : nat) (v : pyval) : Prop :=
  exists items : list string,
    v = PList (map PStr items)
    /\ (length items <= n)%nat
    /\ Forall (fun s => s <> EmptyString /\ quote_free s = true) items.

(** The override of [verify_claim] applies to the text. *)
Definition overridden (text : string) : bool :=
  PyStr.contains "vaccine" (PyStr.lower text)
  && PyStr.contains "autism" (PyStr.lower text).

(** An id that the guard of [verify_claim] does not resolve: none at all,
    the empty string, or one the store does not hold. *)
Definition unresolved_id (claim_id : option string) (db : claims_db) : Prop :=
  claim_id = None
  \/ claim_id = Some EmptyString
  \/ exists i : string, claim_id = Some i /\ db !! i = None.

(** The oracle answered [verify_claim] with [reply], which is no JSON
    document. *)
Definition undecodable (E : env) (text reply : string) : Prop :=
  GEMINI_API_KEY E = true
  /\ verification_oracle E text = Reply reply
  /\ json_loads E (PyStr.strip reply) = JSONDecodeError.

(** The confidence group of the fallback exists and [float] refuses it. *)
Definition bad_confidence_group (reply : string) : Prop :=
  exists g : string,
    Patterns.search_confidence (PyStr.strip reply) = Some g
    /\ PyVal.float_of_string g = None.

(** A verification whose fields hold what the callers expect: a string as
    status, a float that is not negative as confidence (the infinity
    included), and a list of at most three items as evidence. *)
Definition well_formed (v : Verification.t) : Prop :=
  (exists s : string, Verification.status v = PStr s)
  /\ nonneg_float (Verification.confidence_score v)
  /\ (exists items : list pyval,
         Verification.evidence v = PList items /\ (length items <= 3)%nat).



(** The text [analyze_source] hands to [extract_claims]: what [ingest_url]
    stored under [content]. *)
Definition fetched_text (E : env) (url : string) : string :=
  match PyVal.assoc (ingest_url E url) "content" with
  | Some (PStr s) => s
  | _ => EmptyString
  end.

(** An entry of the report agrees with the claim it was made from, and the
    store holds that claim with the entry's verification attached. *)
Definition reported (db : claims_db) (c : Claim.t) (vc : VerifiedClaim.t)
    : Prop :=
  VerifiedClaim.claim_text vc = Claim.text c
  /\ VerifiedClaim.confidence vc = Claim.confidence c
  /\ Verification.claim (VerifiedClaim.verification vc) = Claim.text c
  /\ db !! Claim.id c
     = Some (Claim.set_verification (VerifiedClaim.verification vc) c)
  /\ attached db (Claim.id c) c (VerifiedClaim.verification vc).

(** The page was fetched. *)
Definition fetched (E : env) (url : string) : Prop :=
  exists title paragraphs published_time,
    fetch E url = Fetched title paragraphs published_time.

(** The oracle never hands [verify_claim] a parsed JSON document: on every
    text it is silent or its answer cannot be decoded. *)
Definition no_parsed_answer (E : env) : Prop :=
  forall text : string,
    verifier_silent E text \/ exists reply : string, undecodable E text reply.

(** No slash. *)
Definition not_slash (c : ascii) : bool := negb (Ascii.eqb c "/"%char).

(** The dict has the key. *)
Definition has_key (d : list (string * pyval)) (k : string) : bool :=
  match PyVal.assoc d k with
  | Some _ => true
  | None => false
  end.

(** The numbers 1, 2, ..., n. *)
Definition first_numbers (n : nat) : list Z := map Z.of_nat (seq 1 n).

(** A branch of [search_news] that simulates its answer. *)
Definition simulated (N : news_env) (source : string) : Prop :=
  source = "reddit" \/ (source = "newsapi" /\ api_key N = "demo_key").

(** The simulated item number [i] of a source. *)
Definition simulated_item (N : news_env) (query source : string) (i : Z)
    : article :=
  if String.eqb source "reddit" then reddit_article N query i
  else sample_article N query i.

(** An article of the answer that the loop of [search_news] can convert:
    an object whose [source], when present, is an object. *)
Definition convertible (a : pyval) : bool :=
  match converted_article a with
  | Some _ => true
  | None => false
  end.

(** The keys of a converted article. *)
Definition article_keys : list string :=
  ["title"; "url"; "source"; "published_at"].

(** The answer of the news service for [search_news]: status 200 and a
    JSON object whose [articles] is the list given. *)
Definition answered (N : news_env) (query : string) (limit : Z)
    (articles : list pyval) : Prop :=
  api_key N <> "demo_key"
  /\ exists d : list (string * pyval),
      requests_get N (newsapi_url N query limit)
      = HttpResponse 200 (Some (PDict d))
      /\ PyVal.assoc d "articles" = Some (PList articles).

(** The topic filter of [get_trending_misinfo] is in force. *)
Definition filtering (topic : option string) (t : string) : Prop :=
  topic = Some t /\ t <> EmptyString.

(** * Sample inputs *)

(** A verified claim whose verification carries the given status. *)
Definition verified_as (s : string) : VerifiedClaim.t :=
  VerifiedClaim.mk "a claim" 0.95
    (Verification.mk "a claim" (PStr s) (PNum 0.9) (PList [PStr "seen"]) []
       "2025-05-01T10:00:00" "gemini" None).

(** A claim as the heuristic path stores it, and a store that holds it. *)
Definition stored_claim : Claim.t :=
  Claim.mk "claim_1" "The sky is blue" 0.95 "pattern_matching" ""
           "2025-05-01T09:00:00" None.

Definition sample_store : claims_db := <["claim_1" := stored_claim]> ∅.

(** The sample sentence of the heuristic path. *)
Definition studies_sentence : string :=
  "Studies show this leads to increased risk.".

(** The sample claim of the lookup stage. *)
Definition paris_claim : string := "Paris is the capital of France".

(** An encyclopedia page about Paris. *)
Definition paris_page : WikiPage.t :=
  WikiPage.mk "https://en.wikipedia.org/wiki/Paris"
    (Some "Paris is the capital and most populous city of France.")
    (Some "Paris is the capital and largest city of France.").

(** A string literal of JSON: the text between double quotes. *)
Definition quoted (s : string) : string :=
  String PyStr.dquote s ++ String PyStr.dquote EmptyString.

(** An oracle answer that is no JSON document: a sentence, then the key
    [confidence_score] in double quotes, a colon and the number 7. *)
Definition unclamped_reply : string :=
  "Sure: " ++ String PyStr.dquote "confidence_score"
           ++ String PyStr.dquote ": 7".

(** An oracle answer that is a JSON object whose [confidence_score] is a
    string: status Unverified, confidence_score high, evidence one item. *)
Definition worded_confidence : pyval :=
  PDict [ ("status", PStr "Unverified");
          ("confidence_score", PStr "high");
          ("evidence", PList [PStr "Observed on clear days."]) ].

(** The text of the JSON object [worded_confidence]. *)
Definition worded_reply : string :=
  "{" ++ quoted "status" ++ ": " ++ quoted "Unverified" ++ ", "
      ++ quoted "confidence_score" ++ ": " ++ quoted "high" ++ ", "
      ++ quoted "evidence" ++ ": [" ++ quoted "Observed on clear days." ++ "]}".

(** An oracle answer that parses as a JSON object with all four fields. *)
Definition structured_answer : pyval :=
  PDict [ ("status", PStr "True");
          ("confidence_score", PNum 0.9);
          ("evidence", PList [PStr "Rayleigh scattering."]);
          ("reasoning", PStr "Well established.") ].

(** The text of [structured_answer]. *)
Definition structured_reply : string :=
  "{" ++ quoted "status" ++ ": " ++ quoted "True" ++ ", "
      ++ quoted "confidence_score" ++ ": 0.9, "
      ++ quoted "evidence" ++ ": [" ++ quoted "Rayleigh scattering." ++ "], "
      ++ quoted "reasoning" ++ ": " ++ quoted "Well established." ++ "}".

(** A numbered answer of two claims around the sentinel and a blank line. *)
Definition numbered_reply : string :=
  "1. The sky is blue." ++ String PyStr.newline
    ("No claims found." ++ String PyStr.newline
       (String PyStr.newline "  2.   Water is wet.  ")).

(** A group of 310 digits, all 9: beyond the range of the doubles. *)
Definition many_nines : string := Nat.iter 310 (String "9"%char) EmptyString.

(** An oracle answer that is no JSON document: a word, then the keys
    [status] (with the value Unverified) and [confidence_score] (with the
    digits given) as they would stand in a JSON object. *)
Definition fallback_reply (digits : string) : string :=
  "Sure: " ++ quoted "status" ++ ": " ++ quoted "Unverified" ++ ", "
    ++ quoted "confidence_score" ++ ": " ++ digits.

(** No API key, no network: every collaborator fails. *)
Definition offline_env : env :=
  mk_env false "2025-05-01T10:00:00"
    (fun _ => OracleRaises) (fun _ => OracleRaises)
    (fun _ => JSONDecodeError)
    (fun _ => None) (fun _ => None)
    (fun _ => FetchRaises "HTTPSConnectionPool: Max retries exceeded").

(** No API key; the encyclopedia answers every query with [paris_page]. *)
Definition wiki_env : env :=
  mk_env false "2025-05-01T10:00:00"
    (fun _ => OracleRaises) (fun _ => OracleRaises)
    (fun _ => JSONDecodeError)
    (fun _ => Some ["Paris"]) (fun _ => Some paris_page)
    (fun _ => FetchRaises "HTTPSConnectionPool: Max retries exceeded").

(** A page is fetched; no API key; the encyclopedia answers with one page. *)
Definition online_env : env :=
  mk_env false "2025-05-01T10:00:00"
    (fun _ => OracleRaises) (fun _ => OracleRaises)
    (fun _ => JSONDecodeError)
    (fun _ => Some ["Paris"]) (fun _ => Some paris_page)
    (fun _ => Fetched (Some (PStr "City news"))
                      ["Paris was named the capital of France."]
                      None).

(** An API key is set; the oracle answers every verification prompt with
    [reply], on which [json.loads] gives [parse]; no network otherwise. *)
Definition oracle_env (reply : string) (parse : json_outcome) : env :=
  mk_env true "2025-05-01T10:00:00"
    (fun _ => OracleRaises) (fun _ => Reply reply)
    (fun _ => parse)
    (fun _ => None) (fun _ => None)
    (fun _ => FetchRaises "HTTPSConnectionPool: Max retries exceeded").

(** An API key is set; the oracle answers every extraction prompt with
    [reply]; nothing else is reachable. *)
Definition extraction_env (reply : string) : env :=
  mk_env true "2025-05-01T10:00:00"
    (fun _ => Reply reply) (fun _ => OracleRaises)
    (fun _ => JSONDecodeError)
    (fun _ => None) (fun _ => None)
    (fun _ => FetchRaises "HTTPSConnectionPool: Max retries exceeded").

(** An oracle answer that is no JSON document but names a status: the
    word Verdict, then the key [status] in double quotes, a colon and the
    word False in double quotes. *)
Definition status_reply : string :=
  "Verdict " ++ quoted "status" ++ ": " ++ quoted "False".

(** A news service that answers every request with one article and one
    entry that is no object, under a configured key. *)
Definition news_answer : list pyval :=
  [ PDict [ ("title", PStr "Paris named capital");
            ("url", PStr "https://news.example.org/paris");
            ("source", PDict [("id", PNone); ("name", PStr "Example News")]);
            ("author", PStr "A. Writer");
            ("publishedAt", PStr "2025-05-01T08:00:00Z") ];
    PNone ].

Definition news_service : news_env :=
  mk_news_env (Some "k3y") (fun _ => "2025-05-01T10:00:00")
    (fun _ => HttpResponse 200 (Some (PDict [("status", PStr "ok");
                                              ("articles", PList news_answer)]))).

(** No key configured and no network. *)
Definition news_offline : news_env :=
  mk_news_env None (fun _ => "2025-05-01T10:00:00") (fun _ => HttpRaises).

(** * Properties *)

(** ** The matcher against the language of a pattern *)

Section RegexFacts.
Import Regex.

Lemma str_app_nil_l (s : string) : ("" ++ s)%string = s.
Proof. reflexivity. Qed.

Lemma str_app_cons (c : ascii) (a b : string) :
  (String c a ++ b)%string = String c (a ++ b).
Proof. reflexivity. Qed.

Lemma str_app_nil_inv (a b : string) :
  (a ++ b)%string = "" -> a = "" /\ b = "".
Proof. destruct a; [now split|discriminate]. Qed.

Lemma lang_void (s : string) : ~ lang Void s.
Proof. intros H. inversion H. Qed.

Lemma lang_Seq (r1 r2 : regex) (s : string) :
  lang (Seq r1 r2) s
  <-> exists s1 s2, s = (s1 ++ s2)%string /\ lang r1 s1 /\ lang r2 s2.
Proof.
  split.
  - intros H. inversion H; subst. eauto.
  - intros (s1 & s2 & -> & H1 & H2). now constructor.
Qed.

Lemma nullable_lang (r : regex) : nullable r = true <-> lang r "".
Proof.
  induction r as [| |p|r1 IH1 r2 IH2|r1 IH1 r2 IH2|r IH]; simpl.
  - split; [discriminate|intros H; inversion H].
  - split; [constructor|reflexivity].
  - split; [discriminate|intros H; inversion H].
  - rewrite orb_true_iff, IH1, IH2. split.
    + intros [H|H]; [now apply L_AltL|now apply L_AltR].
    + intros H. inversion H; subst; [now left|now right].
  - rewrite andb_true_iff, IH1, IH2. split.
    + intros [H1 H2]. change "" with ("" ++ "")%string. now constructor.
    + intros H. apply lang_Seq in H as (s1 & s2 & Heq & H1 & H2).
      symmetry in Heq. apply str_app_nil_inv in Heq as [-> ->]. now split.
  - split; [constructor|reflexivity].
Qed.

Lemma lang_alt (r1 r2 : regex) (s : string) :
  lang (alt r1 r2) s <-> lang r1 s \/ lang r2 s.
Proof.
  assert (HA : lang (Alt r1 r2) s <-> lang r1 s \/ lang r2 s).
  { split.
    - intros H. inversion H; subst; [now left|now right].
    - intros [H|H]; [now apply L_AltL|now apply L_AltR]. }
  destruct r1, r2; simpl; try exact HA;
    (split; [intros H; (now left) || (now right) | intros [H|H]; try exact H; now inversion H]).
Qed.

Lemma lang_seq (r1 r2 : regex) (s : string) :
  lang (seq r1 r2) s
  <-> exists s1 s2, s = (s1 ++ s2)%string /\ lang r1 s1 /\ lang r2 s2.
Proof.
  assert (HV1 : forall r, lang Void s <-> exists s1 s2, s = (s1 ++ s2)%string /\ lang Void s1 /\ lang r s2).
  { intros r. split; [intros H; inversion H|intros (? & ? & _ & H & _); inversion H]. }
  assert (HV2 : forall r, lang Void s <-> exists s1 s2, s = (s1 ++ s2)%string /\ lang r s1 /\ lang Void s2).
  { intros r. split; [intros H; inversion H|intros (? & ? & _ & _ & H); inversion H]. }
  assert (HE : forall r, lang r s <-> exists s1 s2, s = (s1 ++ s2)%string /\ lang Eps s1 /\ lang r s2).
  { intros r. split.
    - intros H. exists "", s. repeat split; [constructor|exact H].
    - intros (s1 & s2 & -> & H1 & H2). inversion H1; subst. exact H2. }
  destruct r1, r2; simpl; try apply HV1; try apply HV2; try apply HE; apply lang_Seq.
Qed.

Lemma lang_star_cons (r : regex) (c : ascii) (s : string) :
  lang (Star r) (String c s)
  <-> exists s1 s2, s = (s1 ++ s2)%string
                    /\ lang r (String c s1) /\ lang (Star r) s2.
Proof.
  split.
  - intros H. remember (Star r) as r' eqn:Hr. remember (String c s) as t eqn:Ht.
    revert s Ht.
    induction H as [| | | | |r0|r0 s1 s2 H1 _ H2 IH2]; intros tl Ht;
      try discriminate.
    inversion Hr; subst r0.
    destruct s1 as [|c1 s1].
    + rewrite str_app_nil_l in Ht. now apply IH2.
    + rewrite str_app_cons in Ht. inversion Ht; subst.
      exists s1, s2. repeat split; assumption.
  - intros (s1 & s2 & -> & H1 & H2).
    change (String c (s1 ++ s2)) with (String c s1 ++ s2)%string.
    now constructor.
Qed.

Lemma lang_deriv (c : ascii) (r : regex) (s : string) :
  lang (deriv c r) s <-> lang r (String c s).
Proof.
  revert s. induction r as [| |p|r1 IH1 r2 IH2|r1 IH1 r2 IH2|r IH]; intros s; simpl.
  - split; intros H; inversion H.
  - split; intros H; inversion H.
  - destruct (p c) eqn:Hp.
    + split; intros H.
      * inversion H; subst. now constructor.
      * inversion H; subst. constructor.
    + split; intros H; [inversion H|]. inversion H; subst. congruence.
  - rewrite lang_alt, IH1, IH2. split.
    + intros [H|H]; [now apply L_AltL|now apply L_AltR].
    + intros H. inversion H; subst; [now left|now right].
  - assert (Hcons : lang (Seq r1 r2) (String c s)
                    <-> (exists s1 s2, s = (s1 ++ s2)%string
                                       /\ lang r1 (String c s1) /\ lang r2 s2)
                        \/ (lang r1 "" /\ lang r2 (String c s))).
    { rewrite lang_Seq. split.
      - intros (s1 & s2 & Heq & H1 & H2). destruct s1 as [|c1 s1].
        + rewrite str_app_nil_l in Heq. subst s2. now right.
        + rewrite str_app_cons in Heq. inversion Heq; subst. left. eauto.
      - intros [(s1 & s2 & -> & H1 & H2)|[H1 H2]].
        + exists (String c s1), s2. now repeat split.
        + exists "", (String c s). now repeat split. }
    rewrite Hcons.
    destruct (nullable r1) eqn:Hn.
    + rewrite lang_alt, lang_seq, IH2. apply nullable_lang in Hn. split.
      * intros [(s1 & s2 & -> & H1 & H2)|H]; [left|right; now split].
        exists s1, s2. repeat split; [now apply IH1|exact H2].
      * intros [(s1 & s2 & -> & H1 & H2)|[_ H]]; [left|now right].
        exists s1, s2. repeat split; [now apply IH1|exact H2].
    + rewrite lang_seq. split.
      * intros (s1 & s2 & -> & H1 & H2). left.
        exists s1, s2. repeat split; [now apply IH1|exact H2].
      * intros [(s1 & s2 & -> & H1 & H2)|[H _]].
        -- exists s1, s2. repeat split; [now apply IH1|exact H2].
        -- apply nullable_lang in H. congruence.
  - rewrite lang_seq, lang_star_cons. split.
    + intros (s1 & s2 & -> & H1 & H2). exists s1, s2. repeat split; [now apply IH|exact H2].
    + intros (s1 & s2 & -> & H1 & H2). exists s1, s2. repeat split; [now apply IH|exact H2].
Qed.

Lemma is_void_lang (r : regex) (s : string) : is_void r = true -> ~ lang r s.
Proof. destruct r; simpl; try discriminate. intros _. apply lang_void. Qed.

Lemma match_prefix_spec (r : regex) (s : string) :
  match_prefix r s = true
  <-> exists m post, s = (m ++ post)%string /\ lang r m.
Proof.
  revert r. induction s as [|c s IH]; intros r; simpl.
  - rewrite orb_false_r, nullable_lang. split.
    + intros H. exists "", "". now split.
    + intros (m & post & Heq & H). destruct m; [exact H|discriminate].
  - rewrite orb_true_iff, nullable_lang. split.
    + intros [H|H].
      * exists "", (String c s). now split.
      * destruct (is_void (deriv c r)) eqn:Hv; [discriminate|].
        apply IH in H as (m & post & -> & H).
        exists (String c m), post. split; [reflexivity|now apply lang_deriv].
    + intros (m & post & Heq & H). destruct m as [|c' m]; [now left|right].
      rewrite str_app_cons in Heq. inversion Heq; subst.
      apply lang_deriv in H.
      destruct (is_void (deriv c' r)) eqn:Hv.
      * exfalso. exact (is_void_lang _ _ Hv H).
      * apply IH. eauto.
Qed.

(** [search] answers whether some substring of the text is in the language
    of the pattern. *)
Lemma search_spec (r : regex) (s : string) :
  search r s = true
  <-> exists pre m post, s = (pre ++ m ++ post)%string /\ lang r m.
Proof.
  induction s as [|c s IH]; cbn [search].
  - rewrite orb_false_r, match_prefix_spec. split.
    + intros (m & post & Heq & H). exists "", m, post. now split.
    + intros (pre & m & post & Heq & H). destruct pre; [|discriminate].
      exists m, post. now split.
  - rewrite orb_true_iff, match_prefix_spec, IH. split.
    + intros [(m & post & Heq & H)|(pre & m & post & -> & H)].
      * exists "", m, post. now split.
      * exists (String c pre), m, post. now split.
    + intros (pre & m & post & Heq & H). destruct pre as [|c' pre].
      * left. exists m, post. now split.
      * right. rewrite str_app_cons in Heq. inversion Heq; subst.
        exists pre, m, post. now split.
Qed.
End RegexFacts.

(** ** The scanners against their patterns *)

Section ScannerFacts.
Import PyStr Regex Patterns.
Local Open Scope string_scope.

Lemma str_app_assoc (a b c : string) :
  ((a ++ b) ++ c)%string = (a ++ (b ++ c))%string.
Proof.
  induction a as [|x a IH]; [reflexivity|].
  rewrite !str_app_cons. now rewrite IH.
Qed.

Lemma startswith_app (k s : string) :
  startswith k s = true <-> exists rest, s = (k ++ rest)%string.
Proof.
  revert s. induction k as [|a k IH]; intros s.
  - simpl. split; [intros _; now exists s|reflexivity].
  - destruct s as [|b s]; simpl.
    + split; [discriminate|intros [rest H]; discriminate].
    + rewrite andb_true_iff, IH. split.
      * intros [Hab [rest ->]]. apply Ascii.eqb_eq in Hab. subst. now exists rest.
      * intros [rest H]. rewrite str_app_cons in H. inversion H; subst.
        split; [apply Ascii.eqb_refl|now exists rest].
Qed.

Lemma drop_app (k rest : string) : drop (String.length k) (k ++ rest) = rest.
Proof. induction k as [|a k IH]; [reflexivity|exact IH]. Qed.

Lemma span_app (p : ascii -> bool) (s : string) :
  s = (fst (span p s) ++ snd (span p s))%string.
Proof.
  induction s as [|c s IH]; simpl; [reflexivity|].
  destruct (p c); [|reflexivity].
  destruct (span p s) as [a b]. simpl in *. rewrite str_app_cons. now f_equal.
Qed.

Lemma span_all (p : ascii -> bool) (s : string) :
  all_chars p (fst (span p s)) = true.
Proof.
  induction s as [|c s IH]; simpl; [reflexivity|].
  destruct (p c) eqn:Hc; [|reflexivity].
  destruct (span p s) as [a b]. simpl in *. now rewrite Hc.
Qed.

Lemma span_stops (p : ascii -> bool) (s : string) : stops p (snd (span p s)).
Proof.
  induction s as [|c s IH]; simpl; [exact I|].
  destruct (p c) eqn:Hc; [|exact Hc].
  destruct (span p s) as [a b]. exact IH.
Qed.

(** A run of the class followed by something that stops it is what [span]
    finds: the greedy choice is the only one. *)
Lemma span_unique (p : ascii -> bool) (a b : string) :
  all_chars p a = true -> stops p b -> span p (a ++ b) = (a, b).
Proof.
  intros Ha Hb. induction a as [|c a IH].
  - rewrite str_app_nil_l. destruct b as [|c b]; [reflexivity|].
    simpl in *. now rewrite Hb.
  - simpl in Ha. apply andb_true_iff in Ha as [Hc Ha].
    rewrite str_app_cons. simpl. rewrite Hc, (IH Ha). reflexivity.
Qed.

Lemma lstrip_span (s : string) : lstrip s = snd (span isspace s).
Proof.
  induction s as [|c s IH]; simpl; [reflexivity|].
  destruct (isspace c); [|reflexivity].
  destruct (span isspace s) as [a b]. exact IH.
Qed.

Lemma lang_Lit (k m : string) : lang (Lit k) m <-> m = k.
Proof.
  revert m. induction k as [|a k IH]; intros m; simpl.
  - split; [intros H; now inversion H|intros ->; constructor].
  - rewrite lang_Seq. split.
    + intros (s1 & s2 & -> & H1 & H2). apply IH in H2. subst.
      inversion H1; subst. match goal with H : Ascii.eqb _ _ = true |- _ => apply Ascii.eqb_eq in H; subst end.
      reflexivity.
    + intros ->. exists (String a ""), k. repeat split; [|now apply IH].
      constructor. apply Ascii.eqb_refl.
Qed.

Lemma lang_Cls (p : ascii -> bool) (m : string) :
  lang (Cls p) m <-> exists c, m = String c "" /\ p c = true.
Proof.
  split.
  - intros H. inversion H; subst. eauto.
  - intros (c & -> & H). now constructor.
Qed.

Lemma lang_Star_Cls (p : ascii -> bool) (m : string) :
  lang (Star (Cls p)) m <-> all_chars p m = true.
Proof.
  induction m as [|c m IH].
  - split; [reflexivity|constructor].
  - rewrite lang_star_cons. simpl. rewrite andb_true_iff, <- IH. split.
    + intros (s1 & s2 & -> & H1 & H2). inversion H1; subst.
      rewrite str_app_nil_l. now split.
    + intros [Hc Hm]. exists "", m. repeat split; [now constructor|exact Hm].
Qed.

Lemma lang_Plus_Cls (p : ascii -> bool) (m : string) :
  lang (Plus (Cls p)) m <-> all_chars p m = true /\ m <> "".
Proof.
  unfold Plus. rewrite lang_Seq. split.
  - intros (s1 & s2 & -> & H1 & H2). apply lang_Cls in H1 as (c & -> & Hc).
    apply lang_Star_Cls in H2. rewrite str_app_cons, str_app_nil_l. simpl.
    rewrite Hc, H2. now split.
  - intros [Hall Hne]. destruct m as [|c m]; [congruence|].
    simpl in Hall. apply andb_true_iff in Hall as [Hc Hm].
    exists (String c ""), m. repeat split.
    + now constructor.
    + now apply lang_Star_Cls.
Qed.

(** What [match_quoted] accepts and returns. *)
Lemma match_quoted_spec (s g rest : string) :
  match_quoted s = Some (g, rest)
  <-> s = String dquote (g ++ String dquote rest)
      /\ all_chars not_dquote g = true /\ g <> "".
Proof.
  unfold match_quoted. destruct s as [|c s].
  { split; [discriminate|intros [H _]; discriminate]. }
  destruct (is_dquote c) eqn:Hc.
  - apply Ascii.eqb_eq in Hc. subst c.
    pose proof (span_app not_dquote s) as Happ.
    pose proof (span_all not_dquote s) as Hall.
    pose proof (span_stops not_dquote s) as Hstop.
    destruct (span not_dquote s) as [run tl] eqn:Hspan. cbn [fst snd] in *.
    split.
    + destruct run as [|a run]; [discriminate|].
      destruct tl as [|d tl]; [discriminate|].
      intros H. inversion H; subst g rest. clear H.
      simpl in Hstop. unfold not_dquote in Hstop.
      apply negb_false_iff, Ascii.eqb_eq in Hstop. subst d.
      split; [now rewrite Happ|]. split; [exact Hall|discriminate].
    + intros (Hs & Hg & Hne). inversion Hs as [Hs']. clear Hs.
      assert (Hq : stops not_dquote (String dquote rest)).
      { simpl. unfold not_dquote, is_dquote. now rewrite Ascii.eqb_refl. }
      rewrite Hs', (span_unique not_dquote g _ Hg Hq) in Hspan.
      inversion Hspan; subst run tl.
      destruct g; [congruence|reflexivity].
  - split; [discriminate|]. intros [H _]. inversion H; subst.
    unfold is_dquote in Hc. now rewrite Ascii.eqb_refl in Hc.
Qed.

Lemma lang_quoted (m : string) :
  lang quoted_regex m
  <-> exists g, m = String dquote (g ++ String dquote "")
                /\ all_chars not_dquote g = true /\ g <> "".
Proof.
  unfold quoted_regex. cbn [Seqs]. rewrite lang_Seq. split.
  - intros (s1 & s2 & -> & H1 & H2). apply lang_Seq in H2 as (g & s3 & -> & Hg & H3).
    apply lang_Cls in H1 as (c & -> & Hc). apply Ascii.eqb_eq in Hc. subst c.
    apply lang_Cls in H3 as (c & -> & Hc). apply Ascii.eqb_eq in Hc. subst c.
    apply lang_Plus_Cls in Hg as [Hg Hne]. exists g. now repeat split.
  - intros (g & -> & Hg & Hne). exists (String dquote ""), (g ++ String dquote "").
    repeat split.
    + constructor. apply Ascii.eqb_refl.
    + apply lang_Seq. exists g, (String dquote ""). repeat split.
      * now apply lang_Plus_Cls.
      * constructor. apply Ascii.eqb_refl.
Qed.


Lemma lstrip_unique (ws t : string) :
  all_chars isspace ws = true -> stops isspace t -> lstrip (ws ++ t) = t.
Proof.
  intros Hws Ht. rewrite lstrip_span, (span_unique isspace ws t Hws Ht).
  reflexivity.
Qed.

Lemma lstrip_split (s : string) :
  exists ws, s = (ws ++ lstrip s)%string /\ all_chars isspace ws = true.
Proof.
  exists (fst (span isspace s)). rewrite lstrip_span.
  split; [apply span_app|apply span_all].
Qed.

(** What the status pattern accepts at the start of a text, and its group. *)
Lemma status_here_spec (s g : string) :
  status_here s = Some g
  <-> exists ws rest,
      s = (status_key ++ ws ++ String dquote (g ++ String dquote rest))%string
      /\ all_chars isspace ws = true
      /\ all_chars not_dquote g = true /\ g <> "".
Proof.
  unfold status_here. split.
  - destruct (startswith status_key s) eqn:Hk; [|discriminate].
    apply startswith_app in Hk as [r ->]. rewrite drop_app.
    destruct (lstrip_split r) as (ws & Hr & Hws).
    destruct (match_quoted (lstrip r)) as [[g' rest]|] eqn:Hq; [|discriminate].
    intros H. inversion H; subst g'. clear H.
    apply match_quoted_spec in Hq as (Hl & Hg & Hne).
    exists ws, rest. rewrite <- Hl, <- Hr. now repeat split.
  - intros (ws & rest & -> & Hws & Hg & Hne).
    replace (startswith status_key _) with true
      by (symmetry; apply startswith_app; eauto).
    rewrite drop_app, lstrip_unique by (assumption || reflexivity).
    replace (match_quoted _) with (Some (g, rest)); [reflexivity|].
    symmetry. apply match_quoted_spec. now repeat split.
Qed.

Lemma lang_status (m : string) :
  lang status_regex m
  <-> exists ws g,
      m = (status_key ++ ws ++ String dquote (g ++ String dquote ""))%string
      /\ all_chars isspace ws = true
      /\ all_chars not_dquote g = true /\ g <> "".
Proof.
  unfold status_regex. cbn [Seqs]. rewrite lang_Seq. split.
  - intros (k & t & -> & Hk & Ht). apply lang_Lit in Hk. subst k.
    apply lang_Seq in Ht as (ws & q & -> & Hws & Hq).
    apply lang_Star_Cls in Hws. apply lang_quoted in Hq as (g & -> & Hg & Hne).
    exists ws, g. now repeat split.
  - intros (ws & g & -> & Hws & Hg & Hne).
    exists status_key, (ws ++ String dquote (g ++ String dquote "")).
    repeat split; [now apply lang_Lit|].
    apply lang_Seq. exists ws, (String dquote (g ++ String dquote "")).
    repeat split; [now apply lang_Star_Cls|].
    apply lang_quoted. exists g. now repeat split.
Qed.

Lemma status_here_regex (s : string) :
  (exists g, status_here s = Some g) <-> match_prefix status_regex s = true.
Proof.
  rewrite match_prefix_spec. split.
  - intros [g H]. apply status_here_spec in H as (ws & rest & -> & Hws & Hg & Hne).
    exists (status_key ++ ws ++ String dquote (g ++ String dquote "")), rest.
    split.
    + rewrite !str_app_assoc, str_app_cons, str_app_assoc, str_app_cons.
      reflexivity.
    + apply lang_status. exists ws, g. now repeat split.
  - intros (m & post & -> & Hm).
    apply lang_status in Hm as (ws & g & -> & Hws & Hg & Hne).
    exists g. apply status_here_spec. exists ws, post. repeat split; try assumption.
    rewrite !str_app_assoc, str_app_cons, str_app_assoc, str_app_cons.
    reflexivity.
Qed.

(** The leftmost scan: the first start position where the pattern holds. *)
Lemma first_from_spec {A : Type} (here : string -> option A) (s : string) (a : A) :
  first_from here s = Some a
  <-> exists pre t,
      s = (pre ++ t)%string /\ here t = Some a
      /\ forall pre' t', s = (pre' ++ t')%string ->
                         (String.length pre' < String.length pre)%nat ->
                         here t' = None.
Proof.
  induction s as [|c s IH]; cbn [first_from].
  - destruct (here "") as [a'|] eqn:Hh.
    + split.
      * intros H. inversion H; subst. exists "", "". repeat split; [exact Hh|].
        intros pre' t' _ Hlt. simpl in Hlt. lia.
      * intros (pre & t & Heq & Ht & _). symmetry in Heq.
        apply str_app_nil_inv in Heq as [-> ->]. congruence.
    + split; [discriminate|].
      intros (pre & t & Heq & Ht & _). symmetry in Heq.
      apply str_app_nil_inv in Heq as [-> ->]. congruence.
  - destruct (here (String c s)) as [a'|] eqn:Hh.
    + split.
      * intros H. inversion H; subst. exists "", (String c s).
        repeat split; [exact Hh|]. intros pre' t' _ Hlt. simpl in Hlt. lia.
      * intros (pre & t & Heq & Ht & Hleft). destruct pre as [|c' pre].
        -- rewrite str_app_nil_l in Heq. subst t. congruence.
        -- specialize (Hleft "" (String c s) eq_refl). simpl in Hleft.
           rewrite Hleft in Hh by lia. discriminate.
    + rewrite IH. split.
      * intros (pre & t & -> & Ht & Hleft). exists (String c pre), t.
        repeat split; [exact Ht|]. intros pre' t' Heq Hlt.
        destruct pre' as [|c' pre'].
        -- rewrite str_app_nil_l in Heq. now subst t'.
        -- rewrite !str_app_cons in Heq. inversion Heq; subst c'.
           apply (Hleft pre' t'); [assumption|simpl in Hlt; lia].
      * intros (pre & t & Heq & Ht & Hleft). destruct pre as [|c' pre].
        -- rewrite str_app_nil_l in Heq. subst t. congruence.
        -- rewrite str_app_cons in Heq. inversion Heq; subst c'.
           exists pre, t. repeat split; [exact Ht|].
           intros pre' t' Heq' Hlt. apply (Hleft (String c pre') t').
           ++ rewrite str_app_cons. congruence.
           ++ simpl. lia.
Qed.

Lemma first_from_some {A : Type} (here : string -> option A) (s : string) :
  (exists a, first_from here s = Some a)
  <-> exists pre t, s = (pre ++ t)%string /\ exists a, here t = Some a.
Proof.
  induction s as [|c s IH]; cbn [first_from].
  - destruct (here "") as [a'|] eqn:Hh.
    + split; [intros _; exists "", ""; eauto|eauto].
    + split; [intros [a H]; discriminate|].
      intros (pre & t & Heq & a & Ht). symmetry in Heq.
      apply str_app_nil_inv in Heq as [-> ->]. congruence.
  - destruct (here (String c s)) as [a'|] eqn:Hh.
    + split; [intros _; exists "", (String c s); eauto|eauto].
    + rewrite IH. split.
      * intros (pre & t & -> & Ht). exists (String c pre), t. now split.
      * intros (pre & t & Heq & a & Ht). destruct pre as [|c' pre].
        -- rewrite str_app_nil_l in Heq. subst t. congruence.
        -- rewrite str_app_cons in Heq. inversion Heq; subst. eauto.
Qed.

Lemma search_suffix (r : regex) (s : string) :
  search r s = true
  <-> exists pre t, s = (pre ++ t)%string /\ match_prefix r t = true.
Proof.
  induction s as [|c s IH]; cbn [search].
  - rewrite orb_false_r. split.
    + intros H. exists "", "". now split.
    + intros (pre & t & Heq & H). symmetry in Heq.
      apply str_app_nil_inv in Heq as [-> ->]. exact H.
  - rewrite orb_true_iff, IH. split.
    + intros [H|(pre & t & -> & H)].
      * exists "", (String c s). now split.
      * exists (String c pre), t. now split.
    + intros (pre & t & Heq & H). destruct pre as [|c' pre].
      * rewrite str_app_nil_l in Heq. subst t. now left.
      * rewrite str_app_cons in Heq. inversion Heq; subst. right. eauto.
Qed.

(** The status scanner finds a group exactly when the status pattern
    matches somewhere in the text. *)
Lemma search_status_regex (s : string) :
  (exists g, search_status s = Some g) <-> search status_regex s = true.
Proof.
  unfold search_status. rewrite first_from_some, search_suffix.
  split; intros (pre & t & Heq & H); exists pre, t; (split; [exact Heq|]);
    now apply status_here_regex.
Qed.


Lemma digit_or_dot_not_space (c : ascii) :
  is_digit_or_dot c = true -> isspace c = false.
Proof.
  destruct c as [[] [] [] [] [] [] [] []]; vm_compute; congruence.
Qed.

Lemma stops_nonempty_run (g rest : string) :
  all_chars is_digit_or_dot g = true -> g <> "" ->
  stops isspace (g ++ rest).
Proof.
  destruct g as [|c g]; [congruence|]. simpl. intros H _.
  apply andb_true_iff in H as [Hc _]. now apply digit_or_dot_not_space.
Qed.

(** What the confidence pattern accepts at the start of a text, and its
    group: the whole run of digits and points. *)
Lemma confidence_here_spec (s g : string) :
  confidence_here s = Some g
  <-> exists ws rest,
      s = (confidence_key ++ ws ++ g ++ rest)%string
      /\ all_chars isspace ws = true
      /\ all_chars is_digit_or_dot g = true /\ g <> ""
      /\ stops is_digit_or_dot rest.
Proof.
  unfold confidence_here. split.
  - destruct (startswith confidence_key s) eqn:Hk; [|discriminate].
    apply startswith_app in Hk as [r ->]. rewrite drop_app.
    destruct (lstrip_split r) as (ws & Hr & Hws).
    pose proof (span_app is_digit_or_dot (lstrip r)) as Happ.
    pose proof (span_all is_digit_or_dot (lstrip r)) as Hall.
    pose proof (span_stops is_digit_or_dot (lstrip r)) as Hstop.
    destruct (span is_digit_or_dot (lstrip r)) as [run rest].
    cbn [fst snd] in *. destruct run as [|a run]; [discriminate|].
    intros H. inversion H; subst g. clear H.
    exists ws, rest. rewrite <- Happ, <- Hr.
    repeat split; try assumption. discriminate.
  - intros (ws & rest & -> & Hws & Hg & Hne & Hstop).
    replace (startswith confidence_key _) with true
      by (symmetry; apply startswith_app; eauto).
    rewrite drop_app, lstrip_unique
      by (assumption || now apply stops_nonempty_run).
    rewrite (span_unique is_digit_or_dot g rest Hg Hstop).
    destruct g; [congruence|reflexivity].
Qed.

Lemma lang_confidence (m : string) :
  lang confidence_regex m
  <-> exists ws g,
      m = (confidence_key ++ ws ++ g)%string
      /\ all_chars isspace ws = true
      /\ all_chars is_digit_or_dot g = true /\ g <> "".
Proof.
  unfold confidence_regex. cbn [Seqs]. rewrite lang_Seq. split.
  - intros (k & t & -> & Hk & Ht). apply lang_Lit in Hk. subst k.
    apply lang_Seq in Ht as (ws & g & -> & Hws & Hg).
    apply lang_Star_Cls in Hws. apply lang_Plus_Cls in Hg as [Hg Hne].
    exists ws, g. now repeat split.
  - intros (ws & g & -> & Hws & Hg & Hne).
    exists confidence_key, (ws ++ g). repeat split; [now apply lang_Lit|].
    apply lang_Seq. exists ws, g.
    repeat split; [now apply lang_Star_Cls|now apply lang_Plus_Cls].
Qed.

Lemma confidence_here_regex (s : string) :
  (exists g, confidence_here s = Some g)
  <-> match_prefix confidence_regex s = true.
Proof.
  rewrite match_prefix_spec. split.
  - intros [g H].
    apply confidence_here_spec in H as (ws & rest & -> & Hws & Hg & Hne & _).
    exists (confidence_key ++ ws ++ g), rest. split.
    + now rewrite !str_app_assoc.
    + apply lang_confidence. exists ws, g. now repeat split.
  - intros (m & post & -> & Hm).
    apply lang_confidence in Hm as (ws & g & -> & Hws & Hg & Hne).
    unfold confidence_here.
    replace (startswith confidence_key _) with true
      by (symmetry; apply startswith_app; rewrite str_app_assoc; eauto).
    rewrite str_app_assoc, drop_app, str_app_assoc, lstrip_unique
      by (assumption || now apply stops_nonempty_run).
    destruct g as [|c g]; [congruence|].
    rewrite str_app_cons. simpl in Hg. apply andb_true_iff in Hg as [Hc _].
    simpl. rewrite Hc. destruct (span is_digit_or_dot (g ++ post)).
    eauto.
Qed.

(** The confidence scanner finds a group exactly when the confidence
    pattern matches somewhere in the text. *)
Lemma search_confidence_regex (s : string) :
  (exists g, search_confidence s = Some g)
  <-> search confidence_regex s = true.
Proof.
  unfold search_confidence. rewrite first_from_some, search_suffix.
  split; intros (pre & t & Heq & H); exists pre, t; (split; [exact Heq|]);
    now apply confidence_here_regex.
Qed.

(** [strip_numbering] removes a leading run of digits, a point and the
    whitespace behind it, and nothing when the text does not start so. *)
Lemma strip_numbering_spec (digits ws rest : string) :
  all_chars isdecimal digits = true -> digits <> "" ->
  all_chars isspace ws = true -> stops isspace rest ->
  strip_numbering (digits ++ String "."%char (ws ++ rest)) = rest.
Proof.
  intros Hd Hne Hws Hrest. unfold strip_numbering.
  rewrite (span_unique isdecimal digits _ Hd) by reflexivity.
  destruct digits; [congruence|]. rewrite Ascii.eqb_refl.
  now apply lstrip_unique.
Qed.

End ScannerFacts.

(** ** Numbers *)

Section NumberFacts.
Local Open Scope Q_scope.

Lemma Qlt_bool_iff (a b : Q) : Qlt_bool a b = true <-> a < b.
Proof.
  unfold Qlt_bool. rewrite negb_true_iff.
  split; intros H.
  - apply Qnot_le_lt. intros Hle. apply Qle_bool_iff in Hle. congruence.
  - destruct (Qle_bool b a) eqn:Hb; [|reflexivity].
    apply Qle_bool_iff in Hb. exfalso. exact (Qlt_not_le _ _ H Hb).
Qed.

Lemma Qlt_bool_false_iff (a b : Q) : Qlt_bool a b = false <-> b <= a.
Proof.
  unfold Qlt_bool. rewrite negb_false_iff. apply Qle_bool_iff.
Qed.

Lemma py_min_Qmin (a b : Q) : py_min a b == Qmin a b.
Proof.
  unfold py_min. destruct (Qlt_bool b a) eqn:H.
  - apply Qlt_bool_iff in H. symmetry. apply Q.min_r. now apply Qlt_le_weak.
  - apply Qlt_bool_false_iff in H. symmetry. now apply Q.min_l.
Qed.

Lemma py_max_Qmax (a b : Q) : py_max a b == Qmax a b.
Proof.
  unfold py_max. destruct (Qlt_bool a b) eqn:H.
  - apply Qlt_bool_iff in H. symmetry. apply Q.max_r. now apply Qlt_le_weak.
  - apply Qlt_bool_false_iff in H. symmetry. now apply Q.max_l.
Qed.

Lemma clamp_Qminmax (lo hi x : Q) :
  py_max lo (py_min hi x) == Qmax lo (Qmin hi x).
Proof.
  rewrite py_max_Qmax. apply Q.max_compat; [reflexivity | apply py_min_Qmin].
Qed.

End NumberFacts.

(** ** Rounding to binary64 *)

Section FloatFacts.
Import PyFloat.
Local Open Scope Q_scope.

Lemma pow2_pos (e : Z) : 0 < pow2 e.
Proof. apply Qpower_0_lt. reflexivity. Qed.

Lemma pow2_add (a b : Z) : pow2 (a + b) == pow2 a * pow2 b.
Proof. apply Qpower_plus. discriminate. Qed.

Lemma pow2_le (a b : Z) : (a <= b)%Z -> pow2 a <= pow2 b.
Proof. intros H. apply Qpower_le_compat_l; [exact H|discriminate]. Qed.

Lemma pow2_Z (n : Z) : (0 <= n)%Z -> pow2 n == inject_Z (2 ^ n).
Proof. intros H. unfold pow2. now rewrite Zpower_Qpower. Qed.

Lemma pow2_div (a b : Z) : pow2 a / pow2 b == pow2 (a - b).
Proof.
  pose proof (pow2_pos b) as Hb.
  replace a with ((a - b) + b)%Z at 1 by lia. rewrite pow2_add.
  field. intros H. rewrite H in Hb. discriminate.
Qed.

(** A positive fraction against a ratio of integers. *)
Lemma Qmake_lt_frac (a : Z) (b : positive) (u l : Z) :
  (0 < l)%Z -> (a * l < u * Zpos b)%Z -> a # b < inject_Z u / inject_Z l.
Proof.
  intros Hl H. apply Qlt_shift_div_l.
  - replace 0 with (inject_Z 0) by reflexivity. now rewrite <- Zlt_Qlt.
  - unfold Qlt, Qmult, inject_Z. simpl. lia.
Qed.

Lemma Qmake_ge_frac (a : Z) (b : positive) (u l : Z) :
  (0 < l)%Z -> (u * Zpos b <= a * l)%Z -> inject_Z u / inject_Z l <= a # b.
Proof.
  intros Hl H. apply Qle_shift_div_r.
  - replace 0 with (inject_Z 0) by reflexivity. now rewrite <- Zlt_Qlt.
  - unfold Qle, Qmult, inject_Z. simpl. lia.
Qed.

Lemma pow2_frac (a b : Z) :
  (0 <= a)%Z -> (0 <= b)%Z ->
  pow2 (a - b) == inject_Z (2 ^ a) / inject_Z (2 ^ b).
Proof.
  intros Ha Hb. rewrite <- pow2_div, (pow2_Z a Ha), (pow2_Z b Hb). reflexivity.
Qed.

Lemma floor_log2_spec (x : Q) :
  0 < x -> pow2 (floor_log2 x) <= x /\ x < pow2 (floor_log2 x + 1).
Proof.
  intros Hx. destruct x as [a b]. unfold Qlt in Hx. simpl in Hx.
  assert (Ha : (0 < a)%Z) by lia.
  unfold floor_log2. cbn [Qnum Qden].
  pose proof (Z.log2_spec a Ha) as [Hla Hua].
  pose proof (Z.log2_spec (Zpos b) eq_refl) as [Hlb Hub].
  pose proof (Z.log2_nonneg a) as H0a.
  pose proof (Z.log2_nonneg (Zpos b)) as H0b.
  set (la := Z.log2 a) in *. set (lb := Z.log2 (Zpos b)) in *.
  assert (Hpa : (0 < 2 ^ la)%Z) by (apply Z.pow_pos_nonneg; lia).
  assert (Hpb : (0 < 2 ^ lb)%Z) by (apply Z.pow_pos_nonneg; lia).
  assert (Hsa : (2 ^ (la + 1) = 2 * 2 ^ la)%Z)
    by (rewrite Z.pow_add_r by lia; lia).
  assert (Hsb : (2 ^ (lb + 1) = 2 * 2 ^ lb)%Z)
    by (rewrite Z.pow_add_r by lia; lia).
  replace (Z.succ la) with (la + 1)%Z in Hua by lia.
  replace (Z.succ lb) with (lb + 1)%Z in Hub by lia.
  destruct (Qle_bool (pow2 (la - lb)) (a # b)) eqn:Ht.
  - apply Qle_bool_iff in Ht. split; [exact Ht|].
    replace (la - lb + 1)%Z with ((la + 1) - lb)%Z by lia.
    rewrite pow2_frac by lia. apply Qmake_lt_frac; [exact Hpb|]. nia.
  - assert (Hlt : a # b < pow2 (la - lb)).
    { apply Qnot_le_lt. intros H. apply Qle_bool_iff in H. congruence. }
    split.
    + replace (la - lb - 1)%Z with (la - (lb + 1))%Z by lia.
      rewrite pow2_frac by lia. apply Qmake_ge_frac; [lia|]. nia.
    + now replace (la - lb - 1 + 1)%Z with (la - lb)%Z by lia.
Qed.

Lemma floor_log2_unique (x : Q) (k : Z) :
  pow2 k <= x -> x < pow2 (k + 1) -> floor_log2 x = k.
Proof.
  intros Hlo Hhi.
  assert (Hx : 0 < x) by (eapply Qlt_le_trans; [apply pow2_pos|exact Hlo]).
  destruct (floor_log2_spec x Hx) as [Hl Hu].
  set (j := floor_log2 x) in *.
  destruct (Z.lt_trichotomy j k) as [H|[H|H]]; [|exact H|].
  - exfalso. assert (pow2 (j + 1) <= pow2 k) by (apply pow2_le; lia). lra.
  - exfalso. assert (pow2 (k + 1) <= pow2 j) by (apply pow2_le; lia). lra.
Qed.

Lemma floor_log2_mono (x y : Q) :
  0 < x -> x <= y -> (floor_log2 x <= floor_log2 y)%Z.
Proof.
  intros Hx Hxy. assert (Hy : 0 < y) by lra.
  destruct (floor_log2_spec x Hx) as [Hl _].
  destruct (floor_log2_spec y Hy) as [_ Hu].
  destruct (Z_le_gt_dec (floor_log2 x) (floor_log2 y)) as [H|H]; [exact H|].
  exfalso.
  assert (pow2 (floor_log2 y + 1) <= pow2 (floor_log2 x))
    by (apply pow2_le; lia). lra.
Qed.

Lemma rne_bounds (x : Q) : (Qfloor x <= rne x <= Qfloor x + 1)%Z.
Proof.
  unfold rne. destruct (Qcompare _ _); [destruct (Z.even _)| |]; lia.
Qed.

Lemma rne_Z (n : Z) : rne (inject_Z n) = n.
Proof.
  unfold rne. rewrite Qfloor_Z.
  replace (Qcompare (inject_Z n - inject_Z n) (1 # 2)) with Lt; [reflexivity|].
  symmetry. apply Qlt_alt.
  assert (H : inject_Z n - inject_Z n == 0) by ring.
  rewrite H. reflexivity.
Qed.

Lemma rne_mono (x y : Q) : x <= y -> (rne x <= rne y)%Z.
Proof.
  intros Hxy. pose proof (Qfloor_resp_le x y Hxy) as Hf.
  pose proof (rne_bounds x) as Hx. pose proof (rne_bounds y) as Hy.
  destruct (Z.eq_dec (Qfloor x) (Qfloor y)) as [He|Hne]; [|lia].
  unfold rne. rewrite <- He.
  destruct (Qcompare_spec (x - inject_Z (Qfloor x)) (1 # 2)) as [Cx|Cx|Cx];
    destruct (Qcompare_spec (y - inject_Z (Qfloor x)) (1 # 2)) as [Cy|Cy|Cy];
    try (destruct (Z.even (Qfloor x))); try lia; exfalso; lra.
Qed.

Lemma rne_ext (x y : Q) : x == y -> rne x = rne y.
Proof.
  intros H. apply Z.le_antisymm; apply rne_mono; rewrite H; apply Qle_refl.
Qed.

Lemma rne_nonneg (x : Q) : 0 <= x -> (0 <= rne x)%Z.
Proof. intros H. rewrite <- (rne_Z 0). now apply rne_mono. Qed.

Lemma round_at_mono (e : Z) (x y : Q) :
  x <= y -> round_at e x <= round_at e y.
Proof.
  intros H. unfold round_at. pose proof (pow2_pos e) as He.
  apply Qmult_le_compat_r; [|lra]. rewrite <- Zle_Qle. apply rne_mono.
  apply Qmult_le_compat_r; [exact H|]. apply Qlt_le_weak, Qinv_lt_0_compat, He.
Qed.

Lemma round_at_mono_eq (e : Z) (x y : Q) :
  x == y -> round_at e x == round_at e y.
Proof.
  intros H. apply Qle_antisym; apply round_at_mono; rewrite H; apply Qle_refl.
Qed.

Lemma round_at_nonneg (e : Z) (x : Q) : 0 <= x -> 0 <= round_at e x.
Proof.
  intros H. unfold round_at. pose proof (pow2_pos e) as He.
  apply Qmult_le_0_compat; [|lra].
  replace 0 with (inject_Z 0) by reflexivity. rewrite <- Zle_Qle.
  apply rne_nonneg. apply Qle_shift_div_l; [exact He|lra].
Qed.

(** A value that sits on the grid of exponent [e]. *)
Lemma round_at_grid (e : Z) (m : Z) :
  round_at e (inject_Z m * pow2 e) == inject_Z m * pow2 e.
Proof.
  unfold round_at. pose proof (pow2_pos e) as He.
  rewrite (rne_ext _ (inject_Z m)); [now rewrite rne_Z|].
  field. intros H. rewrite H in He. discriminate.
Qed.

Lemma fl_pos (x : Q) : 0 < x -> fl x == round_at (ulp_exponent x) x.
Proof.
  intros Hx. unfold fl. rewrite Qred_correct.
  destruct x as [[|p|p] d]; try reflexivity; unfold Qlt in Hx; simpl in Hx; lia.
Qed.

Lemma fl_zero (x : Q) : x == 0 -> fl x == 0.
Proof.
  intros Hx. unfold fl. rewrite Qred_correct.
  destruct x as [[|p|p] d]; try reflexivity; unfold Qeq in Hx; simpl in Hx; lia.
Qed.

Lemma fl_nonneg (x : Q) : 0 <= x -> 0 <= fl x.
Proof.
  intros Hx. destruct (Qlt_le_dec 0 x) as [Hpos|Hle].
  - rewrite (fl_pos x Hpos). apply round_at_nonneg, Hx.
  - rewrite fl_zero; [apply Qle_refl|]. apply Qle_antisym; assumption.
Qed.

Lemma ulp_exponent_mono (x y : Q) :
  0 < x -> x <= y -> (ulp_exponent x <= ulp_exponent y)%Z.
Proof.
  intros Hx Hxy. unfold ulp_exponent.
  pose proof (floor_log2_mono x y Hx Hxy). lia.
Qed.

(** Rounding never passes a power of two. *)
Lemma round_at_below (e k : Z) (x : Q) :
  (e <= k)%Z -> x <= pow2 k -> round_at e x <= pow2 k.
Proof.
  intros Hek Hx.
  assert (Hk : pow2 k == inject_Z (2 ^ (k - e)) * pow2 e).
  { rewrite <- pow2_Z by lia. rewrite <- pow2_add. now replace (k - e + e)%Z with k by lia. }
  rewrite Hk, <- round_at_grid. apply round_at_mono. now rewrite <- Hk.
Qed.

Lemma round_at_above (e k : Z) (x : Q) :
  (e <= k)%Z -> pow2 k <= x -> pow2 k <= round_at e x.
Proof.
  intros Hek Hx.
  assert (Hk : pow2 k == inject_Z (2 ^ (k - e)) * pow2 e).
  { rewrite <- pow2_Z by lia. rewrite <- pow2_add. now replace (k - e + e)%Z with k by lia. }
  rewrite Hk, <- round_at_grid. apply round_at_mono. now rewrite <- Hk.
Qed.

(** Rounding to binary64 is monotone. *)
Lemma fl_mono (x y : Q) : 0 <= x -> x <= y -> fl x <= fl y.
Proof.
  intros Hx Hxy. destruct (Qlt_le_dec 0 x) as [Hpos|Hle].
  2:{ rewrite (fl_zero x) by (apply Qle_antisym; assumption).
      apply fl_nonneg. lra. }
  assert (Hy : 0 < y) by lra.
  rewrite (fl_pos x Hpos), (fl_pos y Hy).
  pose proof (ulp_exponent_mono x y Hpos Hxy) as He.
  destruct (Z.eq_dec (ulp_exponent x) (ulp_exponent y)) as [Heq|Hne].
  - rewrite Heq. now apply round_at_mono.
  - destruct (floor_log2_spec x Hpos) as [_ Hux].
    destruct (floor_log2_spec y Hy) as [Hly _].
    unfold ulp_exponent in *.
    set (kx := floor_log2 x) in *. set (ky := floor_log2 y) in *.
    apply Qle_trans with (pow2 ky).
    + apply round_at_below; [lia|].
      apply Qle_trans with (pow2 (kx + 1)); [lra|apply pow2_le; lia].
    + apply round_at_above; [lia|exact Hly].
Qed.

(** In the binade from [2^k], above the subnormal range, the grid has
    exponent [k - 52]. *)
Lemma fl_binade (x : Q) (k : Z) :
  (-1022 <= k)%Z -> pow2 k <= x -> x < pow2 (k + 1) ->
  fl x == inject_Z (rne (x / pow2 (k - 52))) * pow2 (k - 52).
Proof.
  intros Hk Hlo Hhi.
  assert (Hx : 0 < x) by (eapply Qlt_le_trans; [apply pow2_pos|exact Hlo]).
  rewrite (fl_pos x Hx). unfold ulp_exponent.
  rewrite (floor_log2_unique x k Hlo Hhi).
  replace (Z.max (k - 52) (-1074)) with (k - 52)%Z by lia. reflexivity.
Qed.

Lemma Qeq_bool_eq (x y : Q) : Qeq_bool x y = true -> x == y.
Proof. apply Qeq_bool_iff. Qed.

Lemma Qle_bool_le (x y : Q) : Qle_bool x y = true -> x <= y.
Proof. apply Qle_bool_iff. Qed.

Lemma Qle_bool_gt (x y : Q) : Qle_bool y x = false -> x < y.
Proof.
  intros H. apply Qnot_le_lt. intros Hle. apply Qle_bool_iff in Hle. congruence.
Qed.

(** A double above the double 0.7 is at least the next double. *)
Lemma fl_above_threshold (x : Q) :
  0 <= x -> fl 0.7 < fl x -> above_threshold <= fl x.
Proof.
  intros Hx Hr.
  assert (Hu : fl above_threshold == above_threshold)
    by (apply Qeq_bool_eq; vm_compute; reflexivity).
  destruct (Qlt_le_dec x above_threshold) as [Hlt|Hge].
  2:{ rewrite <- Hu. apply fl_mono; [|exact Hge]. unfold above_threshold.
      apply Qle_bool_le. reflexivity. }
  assert (Hgt : 0.7 < x).
  { apply Qnot_le_lt. intros Hle.
    pose proof (fl_mono x 0.7 Hx Hle). lra. }
  assert (Hlo : pow2 (-1) <= x).
  { apply Qle_trans with 0.7; [apply Qle_bool_le; reflexivity|lra]. }
  assert (Hhi : x < pow2 (-1 + 1)).
  { apply Qlt_le_trans with above_threshold; [exact Hlt|].
    apply Qle_bool_le. reflexivity. }
  pose proof (fl_binade x (-1) ltac:(lia) Hlo Hhi) as Hfl.
  change (-1 - 52)%Z with (-53)%Z in Hfl.
  assert (H7 : fl 0.7 == inject_Z 6305039478318694 * pow2 (-53))
    by (apply Qeq_bool_eq; vm_compute; reflexivity).
  assert (Hab : above_threshold == inject_Z 6305039478318695 * pow2 (-53))
    by (apply Qeq_bool_eq; vm_compute; reflexivity).
  rewrite Hfl in Hr |- *. rewrite H7 in Hr. rewrite Hab.
  pose proof (pow2_pos (-53)) as Hp.
  apply Qmult_le_compat_r; [|lra]. rewrite <- Zle_Qle.
  assert (Hm : inject_Z 6305039478318694 < inject_Z (rne (x / pow2 (-53)))).
  { apply Qmult_lt_r with (pow2 (-53)); [exact Hp|exact Hr]. }
  rewrite <- Zlt_Qlt in Hm. lia.
Qed.

(** The score of the lookup stage, for a ratio of counts that passed the
    threshold: above 0.81 and below 0.9. *)
Lemma lookup_score_bounds (found total : nat) :
  (found <= total)%nat -> (0 < total)%nat ->
  let ratio := fl (inject_Z (Z.of_nat found) / inject_Z (Z.of_nat total)) in
  fl 0.7 < ratio ->
  0.81 < lookup_score ratio /\ lookup_score ratio < 0.9.
Proof.
  intros Hle Hpos ratio Hr.
  set (x := inject_Z (Z.of_nat found) / inject_Z (Z.of_nat total)) in *.
  assert (Ht : 0 < inject_Z (Z.of_nat total)).
  { replace 0 with (inject_Z 0) by reflexivity. rewrite <- Zlt_Qlt. lia. }
  assert (Hx0 : 0 <= x).
  { apply Qle_shift_div_l; [exact Ht|]. rewrite Qmult_0_l.
    replace 0 with (inject_Z 0) by reflexivity. rewrite <- Zle_Qle. lia. }
  assert (Hx1 : x <= 1).
  { apply Qle_shift_div_r; [exact Ht|]. rewrite Qmult_1_l.
    rewrite <- Zle_Qle. lia. }
  assert (Hr1 : ratio <= 1).
  { assert (H1 : fl 1 == 1) by (apply Qeq_bool_eq; vm_compute; reflexivity).
    rewrite <- H1. now apply fl_mono. }
  pose proof (fl_above_threshold x Hx0 Hr) as Hr0. fold ratio in Hr0.
  assert (H3 : 0 < fl 0.3) by (apply Qle_bool_gt; vm_compute; reflexivity).
  assert (H6 : 0 <= fl 0.6) by (apply Qle_bool_le; vm_compute; reflexivity).
  assert (Hu : 0 <= above_threshold) by (apply Qle_bool_le; reflexivity).
  assert (Hplo : fl (above_threshold * fl 0.3) <= fl (ratio * fl 0.3)).
  { apply fl_mono.
    - apply Qmult_le_0_compat; lra.
    - apply Qmult_le_compat_r; lra. }
  assert (Hphi : fl (ratio * fl 0.3) <= fl (1 * fl 0.3)).
  { apply fl_mono.
    - apply Qmult_le_0_compat; lra.
    - apply Qmult_le_compat_r; lra. }
  assert (Hp0 : 0 <= fl (above_threshold * fl 0.3))
    by (apply Qle_bool_le; vm_compute; reflexivity).
  unfold lookup_score. split.
  - apply Qlt_le_trans
      with (fl (fl 0.6 + fl (above_threshold * fl 0.3))).
    + apply Qle_bool_gt. vm_compute. reflexivity.
    + apply fl_mono; lra.
  - apply Qle_lt_trans with (fl (fl 0.6 + fl (1 * fl 0.3))).
    + apply fl_mono; [|lra].
      pose proof (fl_nonneg (ratio * fl 0.3)
                    ltac:(apply Qmult_le_0_compat; lra)). lra.
    + apply Qle_bool_gt. vm_compute. reflexivity.
Qed.

Lemma pow10_pos (e : Z) : 0 < pow10 e.
Proof. apply Qpower_0_lt. reflexivity. Qed.

Lemma digits_near_nonneg (x : Q) (n : Z) (c : Q) :
  0 <= x -> In c (digits_near x n) -> 0 <= c.
Proof.
  intros Hx. unfold digits_near.
  set (s := pow10 (floor_log10 x - n + 1)).
  pose proof (pow10_pos (floor_log10 x - n + 1)) as Hs. fold s in Hs.
  assert (Hlo : 0 <= inject_Z (Qfloor (x / s)) * s).
  { apply Qmult_le_0_compat; [|lra].
    replace 0 with (inject_Z 0) by reflexivity. rewrite <- Zle_Qle.
    rewrite <- (Qfloor_Z 0). apply Qfloor_resp_le.
    apply Qle_shift_div_l; [exact Hs|]. change (inject_Z 0) with 0. lra. }
  destruct (Qle_bool _ _); intros [<-|[<-|[]]]; lra.
Qed.

(** The decimal printed for a double that is not negative is not
    negative. *)
Lemma shortest_nonneg (x : Q) : 0 <= x -> 0 <= shortest x.
Proof.
  intros Hx. unfold shortest.
  destruct (find _ _) as [c|] eqn:Hf; [|exact Hx].
  apply find_some in Hf as [Hin _].
  apply in_flat_map in Hin as (n & _ & Hc).
  rewrite Qred_correct. now apply (digits_near_nonneg x n).
Qed.

End FloatFacts.

(** ** Names of doubles *)

Section FloatNames.
Import PyFloat.
Local Open Scope Q_scope.

Lemma fl_ext (x y : Q) : 0 <= x -> x == y -> fl x == fl y.
Proof.
  intros Hx Hxy. apply Qle_antisym; apply fl_mono; lra.
Qed.

(** The results of [fl] are in lowest terms, so equal values are the same
    term. *)
Lemma fl_eq (x y : Q) : fl x == fl y -> fl x = fl y.
Proof.
  unfold fl. intros H. rewrite !Qred_correct in H. now apply Qred_complete.
Qed.

(** A mantissa of at most 53 bits on a grid of the format is a double. *)
Lemma fl_on_grid (m e : Z) :
  (0 <= m <= 2 ^ 53)%Z -> (-1074 <= e)%Z ->
  fl (inject_Z m * pow2 e) == inject_Z m * pow2 e.
Proof.
  intros [Hm0 Hm1] He. pose proof (pow2_pos e) as Hp.
  destruct (Z.eq_dec m 0%Z) as [->|Hne].
  { assert (H0 : inject_Z 0 * pow2 e == 0) by ring.
    rewrite (fl_zero _ H0). now rewrite H0. }
  set (x := inject_Z m * pow2 e).
  assert (Hx : 0 < x).
  { apply Qmult_lt_0_compat; [|exact Hp].
    replace 0 with (inject_Z 0) by reflexivity. rewrite <- Zlt_Qlt. lia. }
  rewrite (fl_pos x Hx).
  set (e' := ulp_exponent x).
  assert (He' : (e' <= e \/ (m = 2 ^ 53 /\ e' = e + 1))%Z).
  { subst e'. unfold ulp_exponent.
    destruct (floor_log2_spec x Hx) as [Hl _].
    destruct (Z.eq_dec m (2 ^ 53)%Z) as [->|Hlt].
    - right. split; [reflexivity|].
      assert (Hk : floor_log2 x = (53 + e)%Z).
      { apply floor_log2_unique.
        - subst x. rewrite pow2_add, (pow2_Z 53) by lia. apply Qle_refl.
        - subst x. rewrite <- (pow2_Z 53), <- pow2_add by lia.
          apply Qpower_lt_compat_l; [lia|reflexivity]. }
      rewrite Hk. lia.
    - left.
      assert (Hk : (floor_log2 x < 53 + e)%Z).
      { destruct (Z_lt_ge_dec (floor_log2 x) (53 + e)) as [H|H]; [exact H|].
        exfalso.
        assert (Hb : pow2 (53 + e) <= x)
          by (apply Qle_trans with (pow2 (floor_log2 x));
              [apply pow2_le; lia|exact Hl]).
        subst x. rewrite pow2_add, (pow2_Z 53) in Hb by lia.
        apply Qmult_le_r in Hb; [|exact Hp].
        rewrite <- Zle_Qle in Hb. lia. }
      lia. }
  destruct He' as [Hle|[-> ->]].
  - assert (Hg : x == inject_Z (m * 2 ^ (e - e')) * pow2 e').
    { subst x. rewrite inject_Z_mult, <- pow2_Z by lia.
      rewrite <- Qmult_assoc, <- pow2_add.
      now replace (e - e' + e')%Z with e by lia. }
    rewrite Hg at 2. rewrite <- round_at_grid. apply round_at_mono_eq, Hg.
  - assert (Hg : x == inject_Z (2 ^ 52) * pow2 (e + 1)).
    { subst x. rewrite <- !pow2_Z, <- !pow2_add by lia.
      now replace (53 + e)%Z with (52 + (e + 1))%Z by lia. }
    rewrite Hg at 2. rewrite <- round_at_grid. apply round_at_mono_eq, Hg.
Qed.

Lemma fl_mantissa (x : Q) :
  0 < x -> (0 <= rne (x / pow2 (ulp_exponent x)) <= 2 ^ 53)%Z.
Proof.
  intros Hx. pose proof (pow2_pos (ulp_exponent x)) as Hp.
  destruct (floor_log2_spec x Hx) as [_ Hu]. split.
  - apply rne_nonneg. apply Qle_shift_div_l; [exact Hp|lra].
  - rewrite <- (rne_Z (2 ^ 53)). apply rne_mono.
    apply Qle_shift_div_r; [exact Hp|].
    rewrite <- pow2_Z, <- pow2_add by lia.
    apply Qle_trans with (pow2 (floor_log2 x + 1)); [lra|].
    apply pow2_le. unfold ulp_exponent. lia.
Qed.

(** Rounding a double changes nothing. *)
Lemma fl_idempotent (x : Q) : 0 <= x -> fl (fl x) == fl x.
Proof.
  intros Hx. destruct (Qlt_le_dec 0 x) as [Hpos|Hle].
  - pose proof (fl_pos x Hpos) as Hfl. unfold round_at in Hfl.
    rewrite (fl_ext _ _ (fl_nonneg x Hx) Hfl), Hfl.
    apply fl_on_grid; [apply fl_mantissa, Hpos|unfold ulp_exponent; lia].
  - assert (H0 : fl x == 0) by (apply fl_zero, Qle_antisym; assumption).
    rewrite (fl_zero _ H0). now rewrite H0.
Qed.

(** The decimal printed for a double is a name of that double. *)
Lemma shortest_round_trip (x : Q) : 0 <= x -> fl (shortest (fl x)) == fl x.
Proof.
  intros Hx. pose proof (fl_nonneg x Hx) as Hfx. unfold shortest.
  destruct (find _ _) as [c|] eqn:Hf; [|now apply fl_idempotent].
  apply find_some in Hf as [Hin Hc].
  apply in_flat_map in Hin as (n & _ & Hn).
  apply (digits_near_nonneg (fl x) n c Hfx) in Hn.
  apply Qeq_bool_iff in Hc. rewrite <- Hc.
  apply fl_ext; [now rewrite Qred_correct|apply Qred_correct].
Qed.

(** Comparing the printed decimal of a double with a literal that prints
    as itself is comparing the two doubles. *)
Lemma shortest_compare (x c : Q) :
  0 <= x -> 0 <= c -> shortest (fl c) == c ->
  (c < shortest (fl x) <-> fl c < fl x)
  /\ (shortest (fl x) < c <-> fl x < fl c).
Proof.
  intros Hx Hc Hname.
  pose proof (shortest_round_trip x Hx) as Hrt.
  pose proof (shortest_nonneg (fl x) (fl_nonneg x Hx)) as Hq.
  assert (Hne : ~ fl c == fl x -> ~ shortest (fl x) == c).
  { intros Hd He. apply Hd. rewrite <- Hrt. apply fl_ext; [exact Hc|].
    now symmetry. }
  assert (Heq : fl c == fl x -> shortest (fl x) == c).
  { intros He. apply fl_eq in He. now rewrite <- He. }
  split; split; intros H.
  - destruct (Qlt_le_dec (fl c) (fl x)) as [Hlt|Hle]; [exact Hlt|exfalso].
    pose proof (fl_mono c (shortest (fl x)) Hc (Qlt_le_weak _ _ H)) as Hm.
    rewrite Hrt in Hm. assert (He : fl c == fl x) by (apply Qle_antisym; assumption).
    apply Heq in He. lra.
  - destruct (Qlt_le_dec c (shortest (fl x))) as [Hlt|Hle]; [exact Hlt|exfalso].
    pose proof (fl_mono (shortest (fl x)) c Hq Hle) as Hm.
    rewrite Hrt in Hm. lra.
  - destruct (Qlt_le_dec (fl x) (fl c)) as [Hlt|Hle]; [exact Hlt|exfalso].
    pose proof (fl_mono (shortest (fl x)) c Hq (Qlt_le_weak _ _ H)) as Hm.
    rewrite Hrt in Hm. assert (He : fl c == fl x) by (apply Qle_antisym; assumption).
    apply Heq in He. lra.
  - destruct (Qlt_le_dec (shortest (fl x)) c) as [Hlt|Hle]; [exact Hlt|exfalso].
    pose proof (fl_mono c (shortest (fl x)) Hc Hle) as Hm.
    rewrite Hrt in Hm. lra.
Qed.

End FloatNames.

Lemma count_where_le {A : Type} (p : A -> bool) (l : list A) :
  (count_where p l <= length l)%nat.
Proof.
  induction l as [|x l IH]; simpl; [lia|]. destruct (p x); simpl; lia.
Qed.

(** ** C1: the credibility score *)

Section Credibility.
Local Open Scope Q_scope.

Lemma credibility_nonempty (vcs : list VerifiedClaim.t) :
  vcs <> [] ->
  calculate_source_credibility vcs == Qmax 0.01 (Qmin 0.99 (raw_score vcs)).
Proof.
  intros Hne. unfold calculate_source_credibility.
  destruct vcs as [|vc vcs]; [congruence|].
  replace (0 <? length (vc :: vcs))%nat with true by reflexivity.
  apply clamp_Qminmax.
Qed.

End Credibility.



(** ** C2: a failed fetch in [analyze_source] *)

Lemma ingest_url_failed (E : env) (url message : string) :
  fetch E url = FetchRaises message ->
  ingest_url E url
  = [("url", PStr url); ("error", PStr message); ("status", PStr "failed")].
Proof. intros H. unfold ingest_url. now rewrite H. Qed.

(** C2 (as the code behaves). When the fetch fails, [ingest_url] returns its
    error dict, which has no [content] key, and [analyze_source] reads that
    key first: the call raises [KeyError] and returns no report; the store
    is untouched. *)
Theorem analyze_source_failed_fetch_raises
    (E : env) (url message : string) (db : claims_db) :
  fetch E url = FetchRaises message ->
  PyVal.assoc (ingest_url E url) "error" = Some (PStr message)
  /\ PyVal.assoc (ingest_url E url) "content" = None
  /\ analyze_source E url db = (Raise (KeyError "content"), db).
Proof.
  intros H. unfold analyze_source. rewrite (ingest_url_failed E url message H).
  repeat split.
Qed.

Lemma analyze_source_failed_fetch_raises_witness :
  analyze_source offline_env "http://unreachable.invalid/news" ∅
  = (Raise (KeyError "content"), ∅).
Proof.
  apply (analyze_source_failed_fetch_raises offline_env
           "http://unreachable.invalid/news"
           "HTTPSConnectionPool: Max retries exceeded" ∅).
  reflexivity.
Defined.

(** ** C3: the fixed override of [verify_claim] *)

Lemma resolve_status_settled (v : Verification.t) :
  PyVal.eq_str (Verification.status v) "Unverified" = false ->
  resolve_status v = Ok v.
Proof. intros H. unfold resolve_status. now rewrite H. Qed.

(** C3. Whenever the claim text that [verify_claim] works on (the stored
    text of a known id, the argument itself when no stored claim is
    resolved) contains both vaccine and autism, in any letter case, the call
    returns a verification with status False, confidence_score 0.95, exactly
    two evidence items and exactly two sources, whatever the oracle,
    [json.loads] and the encyclopedia did. *)
Theorem verify_claim_vaccine_autism
    (E : env) (claim_text : string) (claim_id : option string) (db : claims_db) :
  let text := resolved_text claim_text claim_id db in
  PyStr.contains "vaccine" (PyStr.lower text) = true ->
  PyStr.contains "autism" (PyStr.lower text) = true ->
  (known_claim claim_id db = None -> text = claim_text)
  /\ exists v : Verification.t,
      fst (verify_claim E claim_text claim_id db) = Ok v
      /\ Verification.status v = PStr "False"
      /\ Verification.confidence_score v = PNum 0.95
      /\ has_items 2 (Verification.evidence v)
      /\ length (Verification.sources v) = 2.
Proof.
  intros text Hv Ha. split.
  - intros Hnone. subst text. unfold resolved_text. now rewrite Hnone.
  - unfold verify_claim. fold text.
    unfold verification_stages, verification_demo_stage.
    rewrite Hv, Ha. simpl andb. cbv iota.
    rewrite resolve_status_settled by reflexivity.
    eexists. split; [reflexivity|]. simpl.
    repeat split. exists demo_evidence. split; reflexivity.
Qed.

Lemma verify_claim_vaccine_autism_witness :
  exists v : Verification.t,
    fst (verify_claim (oracle_env structured_reply (Parsed structured_answer))
                      "Doctors say VACCINES cause Autism" None ∅) = Ok v
    /\ Verification.status v = PStr "False"
    /\ Verification.confidence_score v = PNum 0.95
    /\ has_items 2 (Verification.evidence v)
    /\ length (Verification.sources v) = 2.
Proof.
  apply (verify_claim_vaccine_autism
           (oracle_env structured_reply (Parsed structured_answer))
           "Doctors say VACCINES cause Autism" None ∅); reflexivity.
Defined.

(** ** C4: the range of confidence values *)

Section ConfidenceRange.
Local Open Scope Q_scope.
Variable E : env.

Lemma fold_left_invariant {A B : Type} (P : A -> Prop) (f : A -> B -> A)
    (l : list B) (a : A) :
  P a -> (forall a x, P a -> P (f a x)) -> P (fold_left f l a).
Proof.
  intros Ha Hstep. revert a Ha.
  induction l as [|x l IH]; intros a Ha; simpl; auto.
Qed.


(** Every boost takes the sum past the cap, so a sentence that matches is
    always given 0.95. *)
Lemma first_match_claim_patterns (sentence : string) (c : Q) :
  first_match claim_patterns sentence 0.5 = Some c -> py_round2 c = 0.95.
Proof.
  unfold claim_patterns. cbn [first_match].
  repeat match goal with
         | |- context [Regex.search ?p ?s] => destruct (Regex.search p s)
         end;
    intros H; inversion H; reflexivity.
Qed.




Lemma match_ratio_le_1 (key_terms : list string) (content : string) :
  match_ratio key_terms content <= 1.
Proof.
  unfold match_ratio. destruct key_terms as [|t ts]; [discriminate|].
  set (l := t :: ts).
  pose proof (count_where_le (fun term => PyStr.contains term content) l) as Hle.
  assert (Hpos : 0 < inject_Z (Z.of_nat (length l))).
  { replace 0 with (inject_Z 0) by reflexivity. rewrite <- Zlt_Qlt.
    subst l. simpl length. lia. }
  assert (H1 : PyFloat.fl 1 == 1) by (apply Qeq_bool_eq; vm_compute; reflexivity).
  rewrite <- H1. apply fl_mono.
  - apply Qle_shift_div_l; [exact Hpos|]. rewrite Qmult_0_l.
    replace 0 with (inject_Z 0) by reflexivity. rewrite <- Zle_Qle. lia.
  - apply Qle_shift_div_r; [exact Hpos|].
    rewrite Qmult_1_l. rewrite <- Zle_Qle. lia.
Qed.

(** The ratio passes the test of the code, [match_ratio > 0.7] on
    doubles, exactly when it exceeds 0.7. *)
Lemma match_ratio_threshold (key_terms : list string) (content : string) :
  PyFloat.fl 0.7 < match_ratio key_terms content
  <-> 0.7 < match_ratio key_terms content.
Proof.
  assert (H7 : PyFloat.fl 0.7 < 0.7)
    by (apply Qle_bool_gt; vm_compute; reflexivity).
  split; [|lra]. unfold match_ratio.
  destruct key_terms as [|t ts].
  - intros H. exfalso. revert H. apply Qle_not_lt.
    apply Qle_bool_le. vm_compute. reflexivity.
  - intros H. set (l := t :: ts) in *.
    eapply Qlt_le_trans; [|apply fl_above_threshold; [|exact H]].
    + apply Qle_bool_gt. vm_compute. reflexivity.
    + apply Qle_shift_div_l.
      * replace 0 with (inject_Z 0) by reflexivity. rewrite <- Zlt_Qlt.
        subst l. simpl length. lia.
      * rewrite Qmult_0_l. replace 0 with (inject_Z 0) by reflexivity.
        rewrite <- Zle_Qle. lia.
Qed.

(** The score stored for a ratio that passed the threshold. *)
Lemma lookup_score_range (key_terms : list string) (content : string) :
  PyFloat.fl 0.7 < match_ratio key_terms content ->
  0.81 < lookup_score (match_ratio key_terms content)
  /\ lookup_score (match_ratio key_terms content) < 0.9.
Proof.
  unfold match_ratio. destruct key_terms as [|t ts].
  - intros H. exfalso. revert H. apply Qle_not_lt.
    apply Qle_bool_le. vm_compute. reflexivity.
  - set (l := t :: ts). intros H.
    apply lookup_score_bounds; [apply count_where_le| |exact H].
    subst l. simpl length. lia.
Qed.



(** With a number as confidence, neither comparison raises, and resolving
    the status leaves the confidence alone. *)
Lemma resolve_status_number (v : Verification.t) (q : Q) :
  Verification.confidence_score v = PNum q ->
  exists v', resolve_status v = Ok v'
             /\ Verification.confidence_score v' = PNum q
             /\ Verification.evidence v' = Verification.evidence v
             /\ Verification.sources v' = Verification.sources v.
Proof.
  intros Hq. unfold resolve_status. rewrite Hq. simpl.
  destruct (_ && _); [|now exists v].
  destruct (Qlt_bool 0.8 q); [eexists; split; [reflexivity|]; now simpl|].
  destruct (Qlt_bool q 0.2); [eexists; split; [reflexivity|]; now simpl|].
  destruct (PyVal.truthy _); [eexists; split; [reflexivity|]; now simpl|].
  now exists v.
Qed.

End ConfidenceRange.




(** ** C5: heuristic extraction, first match wins *)

Section FirstMatch.
Local Open Scope Q_scope.

(** The loop over the patterns stops at the first one that matches, and
    adds that pattern's boost only. *)
Lemma first_match_at (pre post : list (Regex.regex * Q)) (pattern : Regex.regex)
    (boost c0 : Q) (sentence : string) :
  (forall p b, In (p, b) pre -> Regex.search p (PyStr.lower sentence) = false) ->
  Regex.search pattern (PyStr.lower sentence) = true ->
  first_match (pre ++ (pattern, boost) :: post) sentence c0
  = Some (py_min 0.95 (c0 + boost)).
Proof.
  intros Hpre Hhit. induction pre as [|[p b] pre IH]; simpl.
  - now rewrite Hhit.
  - rewrite (Hpre p b) by now left.
    apply IH. intros p' b' Hin. apply (Hpre p' b'). now right.
Qed.

Lemma first_match_none (patterns : list (Regex.regex * Q)) (c0 : Q)
    (sentence : string) :
  (forall p b, In (p, b) patterns ->
               Regex.search p (PyStr.lower sentence) = false) ->
  first_match patterns sentence c0 = None.
Proof.
  intros Hall. induction patterns as [|[p b] patterns IH]; simpl; [reflexivity|].
  rewrite (Hall p b) by now left.
  apply IH. intros p' b' Hin. apply (Hall p' b'). now right.
Qed.

(** For each of the four boosts the capped sum is 0.95, and rounding to two
    places keeps it. *)
Lemma capped_boost (pattern : Regex.regex) (boost : Q) :
  In (pattern, boost) claim_patterns ->
  py_round2 (py_min 0.95 (0.5 + boost)) = 0.95
  /\ Qmin 0.95 (0.5 + boost) == 0.95.
Proof.
  unfold claim_patterns. simpl.
  intros [H|[H|[H|[H|[]]]]]; inversion H; subst; split; reflexivity.
Qed.

End FirstMatch.

(** C5. The patterns are tried in the order action-state verb (+0.7),
    causal connective (+0.8), evidentiary marker (+0.75), universal
    quantifier (+0.9). For a sentence of ten characters or more (after
    [strip]), the first pattern that matches decides: one claim is emitted
    with confidence min(0.95, 0.5 + boost) of that pattern and the method
    [pattern_matching] (the spec's heuristic method), later patterns are
    not consulted; a sentence that matches none emits nothing. Without an
    oracle, the text [Studies show this leads to increased risk.] misses
    the action pattern, matches the causal one, and gives one claim with
    confidence 0.95 and method [pattern_matching]. *)
Theorem heuristic_first_match_wins :
  map snd claim_patterns = [0.7; 0.8; 0.75; 0.9]%Q
  /\ map fst claim_patterns
     = [ Patterns.action_pattern; Patterns.causal_pattern;
         Patterns.referenced_pattern; Patterns.universal_pattern ]
  /\ (forall (E : env) (url raw : string) (st : extraction),
      let sentence := PyStr.strip raw in
      (10 <= String.length sentence)%nat ->
      (forall pre pattern boost post,
          claim_patterns = pre ++ (pattern, boost) :: post ->
          (forall p b, In (p, b) pre ->
                       Regex.search p (PyStr.lower sentence) = false) ->
          Regex.search pattern (PyStr.lower sentence) = true ->
          exists c : Claim.t,
            heuristic_sentence E url raw st = record_claim c st
            /\ Claim.id c = ("claim_" ++ PyStr.of_nat (claim_id st))%string
            /\ Claim.text c = sentence
            /\ (Claim.confidence c == Qmin 0.95 (0.5 + boost))%Q
            /\ Claim.extraction_method c = "pattern_matching")
      /\ ((forall p b, In (p, b) claim_patterns ->
                       Regex.search p (PyStr.lower sentence) = false) ->
          heuristic_sentence E url raw st = st))
  /\ (forall (E : env) (url : string) (db : claims_db),
      GEMINI_API_KEY E = false ->
      let sentence := PyStr.lower (PyStr.strip studies_sentence) in
      Regex.search Patterns.action_pattern sentence = false
      /\ Regex.search Patterns.causal_pattern sentence = true
      /\ fst (extract_claims E studies_sentence url db)
         = [ Claim.mk "claim_1" "Studies show this leads to increased risk"
                      0.95 "pattern_matching" url (now E) None ]).
Proof.
  split; [reflexivity|]. split; [reflexivity|]. split.
  - intros E url raw st sentence Hlen. split.
    + intros pre pattern boost post Hsplit Hpre Hhit.
      unfold heuristic_sentence. fold sentence.
      replace (String.length sentence <? 10)%nat with false
        by (symmetry; apply Nat.ltb_ge; exact Hlen).
      rewrite Hsplit, (first_match_at pre post pattern boost _ _ Hpre Hhit).
      assert (Hin : In (pattern, boost) claim_patterns).
      { rewrite Hsplit. apply in_or_app. right. now left. }
      destruct (capped_boost pattern boost Hin) as [Hround Hcap].
      rewrite Hround. eexists. split; [reflexivity|]. simpl.
      repeat split. now rewrite Hcap.
    + intros Hnone. unfold heuristic_sentence. fold sentence.
      replace (String.length sentence <? 10)%nat with false
        by (symmetry; apply Nat.ltb_ge; exact Hlen).
      now rewrite (first_match_none _ _ _ Hnone).
  - intros E url db Hkey sentence. split; [vm_compute; reflexivity|].
    split; [vm_compute; reflexivity|].
    unfold extract_claims, extraction_oracle_stage. rewrite Hkey.
    reflexivity.
Qed.

Lemma heuristic_first_match_wins_witness :
  fst (extract_claims offline_env studies_sentence "https://example.org/a" ∅)
  = [ Claim.mk "claim_1" "Studies show this leads to increased risk"
               0.95 "pattern_matching" "https://example.org/a"
               "2025-05-01T10:00:00" None ].
Proof.
  apply (heuristic_first_match_wins). reflexivity.
Defined.

(** ** C6: the fixed extra claim of [extract_claims] *)

(** C6. Whenever the text contains vaccine, in any letter case,
    [extract_claims] returns what the oracle and heuristic stages produced
    followed by one more claim, with the text [Vaccines cause autism.],
    confidence 0.95 and the method [demo_hardcoded]; this holds for every
    environment, so with or without an oracle. The claim is also stored. *)
Theorem extract_claims_vaccine_claim
    (E : env) (text url : string) (db : claims_db) :
  PyStr.contains "vaccine" (PyStr.lower text) = true ->
  let st := heuristic_stage E text url
              (extraction_oracle_stage E text url (mk_extraction [] 1 db)) in
  let c := demo_claim E (claim_id st) url in
  fst (extract_claims E text url db) = extracted_claims st ++ [c]
  /\ Claim.text c = "Vaccines cause autism."
  /\ (Claim.confidence c == 0.95)%Q
  /\ Claim.extraction_method c = "demo_hardcoded"
  /\ snd (extract_claims E text url db) !! Claim.id c = Some c.
Proof.
  intros Hv st c. unfold extract_claims. fold st.
  unfold demo_stage. rewrite Hv. fold c. simpl.
  repeat split; try reflexivity.
  apply lookup_insert_eq.
Qed.

Lemma extract_claims_vaccine_claim_witness :
  fst (extract_claims offline_env "The Vaccine was tested on adults." "" ∅)
  = [ Claim.mk "claim_1" "The Vaccine was tested on adults" 0.95
               "pattern_matching" "" "2025-05-01T10:00:00" None ]
    ++ [ demo_claim offline_env 2 "" ].
Proof.
  apply (extract_claims_vaccine_claim offline_env
           "The Vaccine was tested on adults." "" ∅).
  reflexivity.
Defined.

(** ** C7: the knowledge-lookup stage *)

Section Tokens.
Import PyStr Patterns.

Lemma span_length (p : ascii -> bool) (s : string) :
  (String.length (fst (span p s)) + String.length (snd (span p s))
   = String.length s)%nat.
Proof.
  induction s as [|c s IH]; simpl; [reflexivity|].
  destruct (p c).
  - destruct (span p s) as [a b]. simpl in *. lia.
  - reflexivity.
Qed.

(** Cutting at the non-word characters: the first piece is the leading run
    of word characters, and the other pieces are those of the rest. *)
Lemma split_where_span (s : string) :
  split_where nonword s
  = fst (span isword s) :: List.tl (split_where nonword (snd (span isword s))).
Proof.
  induction s as [|c s IH]; [reflexivity|].
  cbn [split_where span].
  destruct (isword c) eqn:Hc.
  - assert (Hn : nonword c = false) by (unfold nonword; now rewrite Hc).
    rewrite Hn, IH. destruct (span isword s) as [a b]. reflexivity.
  - assert (Hn : nonword c = true) by (unfold nonword; now rewrite Hc).
    cbn [fst snd split_where]. rewrite Hn. reflexivity.
Qed.

Lemma word_tokens_boundary (s : string) :
  stops isword s ->
  word_tokens s
  = List.filter (fun w => negb (String.eqb w EmptyString))
                (List.tl (split_where nonword s)).
Proof.
  intros H. unfold word_tokens.
  destruct s as [|c s]; [reflexivity|].
  cbn [stops] in H. cbn [split_where].
  assert (Hn : nonword c = true) by (unfold nonword; now rewrite H).
  rewrite Hn. reflexivity.
Qed.

Lemma word_tokens_span (c : ascii) (s : string) :
  isword c = true ->
  word_tokens (String c s)
  = fst (span isword (String c s))
      :: word_tokens (snd (span isword (String c s))).
Proof.
  intros Hc.
  rewrite (word_tokens_boundary (snd (span isword (String c s))))
    by apply span_stops.
  unfold word_tokens at 1. rewrite split_where_span.
  cbn [span]. rewrite Hc. destruct (span isword s) as [a b]. reflexivity.
Qed.

Lemma word_tokens_skip (c : ascii) (s : string) :
  isword c = false -> word_tokens (String c s) = word_tokens s.
Proof.
  intros Hc. unfold word_tokens. cbn [split_where].
  assert (Hn : nonword c = true) by (unfold nonword; now rewrite Hc).
  rewrite Hn. reflexivity.
Qed.

Lemma findall_words4_aux_tokens (fuel : nat) (s : string) :
  (String.length s < fuel)%nat -> findall_words4_aux fuel s = long_tokens s.
Proof.
  revert s. induction fuel as [|fuel IH]; intros s Hlen; [lia|].
  destruct s as [|c s]; [reflexivity|].
  cbn [findall_words4_aux]. destruct (isword c) eqn:Hc.
  - unfold long_tokens. rewrite (word_tokens_span c s Hc).
    pose proof (span_length isword (String c s)) as Hsum.
    destruct (span isword (String c s)) as [run rest] eqn:Hspan.
    cbn [fst snd] in *.
    assert (Hrun : (0 < String.length run)%nat).
    { simpl in Hspan. rewrite Hc in Hspan.
      destruct (span isword s) as [a b]. inversion Hspan. simpl. lia. }
    cbn [List.filter]. fold (long_tokens rest).
    rewrite IH by (simpl in *; lia).
    destruct (4 <=? String.length run)%nat; reflexivity.
  - unfold long_tokens. rewrite (word_tokens_skip c s Hc).
    apply IH. simpl in Hlen. lia.
Qed.

(** The scanner for [\b\w{4,}\b] returns the words of four characters or
    more, in order. *)
Lemma findall_words4_tokens (s : string) : findall_words4 s = long_tokens s.
Proof. apply findall_words4_aux_tokens. lia. Qed.

End Tokens.

Section Lookup.
Local Open Scope Q_scope.
Variable E : env.

Lemma wikipedia_stage_skipped (claim_text : string) (v : Verification.t) :
  PyVal.truthy (Verification.evidence v) = true ->
  wikipedia_stage E claim_text v = v.
Proof. intros H. unfold wikipedia_stage. now rewrite H. Qed.

(** The stage on a successful lookup, from an empty evidence list. *)
Lemma wikipedia_stage_found (claim_text first : string) (rest : list string)
    (page : WikiPage.t) (content summary : string) (v : Verification.t) :
  Verification.evidence v = PList [] ->
  wikipedia_search E claim_text = Some (first :: rest) ->
  wikipedia_page E first = Some page ->
  WikiPage.content page = Some content ->
  WikiPage.summary page = Some summary ->
  let ratio := match_ratio (key_terms_of claim_text) (PyStr.lower content) in
  let v' := wikipedia_stage E claim_text v in
  (0.7 < ratio ->
   Verification.evidence v'
   = PList [PStr (PyStr.take 500 summary ++ "...")%string]
   /\ Verification.confidence_score v' = PNum (lookup_score ratio))
  /\ (ratio <= 0.7 ->
      Verification.evidence v' = PList []
      /\ Verification.confidence_score v' = Verification.confidence_score v).
Proof.
  intros Hev Hsearch Hpage Hcontent Hsummary ratio v'.
  subst v'. unfold wikipedia_stage.
  rewrite Hev, Hsearch, Hpage, Hcontent, Hsummary. simpl PyVal.truthy. cbv iota.
  subst ratio. split; intros Hr.
  - apply match_ratio_threshold, Qlt_bool_iff in Hr. rewrite Hr. simpl.
    rewrite Hev. simpl. split; reflexivity.
  - assert (Hf : Qlt_bool (PyFloat.fl 0.7)
                   (match_ratio (key_terms_of claim_text) (PyStr.lower content))
                 = false).
    { apply Qlt_bool_false_iff, Qnot_lt_le. intros H.
      apply match_ratio_threshold in H. lra. }
    rewrite Hf. simpl. now rewrite Hev.
Qed.

Lemma match_ratio_fraction (terms : list string) (content : string) :
  terms <> [] ->
  match_ratio terms content
  = PyFloat.fl (inject_Z (Z.of_nat (terms_found terms content))
                / inject_Z (Z.of_nat (length terms))).
Proof.
  intros Hne. unfold match_ratio, terms_found.
  destruct terms; [congruence|reflexivity].
Qed.

Lemma paris_key_terms :
  key_terms_of paris_claim = ["paris"; "capital"; "france"].
Proof. vm_compute. reflexivity. Qed.

Lemma paris_ratio (content : string) :
  PyStr.contains "paris" content = true ->
  PyStr.contains "capital" content = true ->
  PyStr.contains "france" content = true ->
  match_ratio (key_terms_of paris_claim) content = 1.
Proof.
  intros H1 H2 H3. rewrite paris_key_terms. unfold match_ratio.
  cbn [count_where]. rewrite H1, H2, H3. vm_compute. reflexivity.
Qed.

End Lookup.

(** C7 (counterexample). For the claim [Paris is the capital of France]
    and a reference that contains all of its key terms, the ratio is 1 and
    the code evaluates 0.6 + 1.0 * 0.3 on doubles: [verify_claim] returns
    the double below the one nearest to 0.9 (Python prints
    0.8999999999999999), which is neither 0.9 nor the double for 0.9. *)
Lemma verify_claim_paris_confidence :
  exists (v : Verification.t) (q : Q),
    fst (verify_claim wiki_env paris_claim None ∅) = Ok v
    /\ Verification.confidence_score v = PNum q
    /\ (q == below_nine_tenths)%Q
    /\ (PyFloat.shortest q == 0.8999999999999999)%Q
    /\ ~ (q == 0.9)%Q
    /\ ~ (q == PyFloat.fl 0.9)%Q.
Proof.
  eexists. eexists. split; [vm_compute; reflexivity|].
  split; [reflexivity|]. split; [reflexivity|].
  split; [vm_compute; reflexivity|].
  split; intros H; vm_compute in H; discriminate H.
Qed.

(** C7 (amended). In [verify_claim] the lookup stage is applied to what the
    oracle stage left, and does nothing unless the evidence is still
    empty. The key terms are the lower-cased words of four characters or
    more of the claim; the ratio is the number of key terms that occur in
    the lower-cased reference text over the number of key terms, as a
    double. When the lookup succeeds from an empty evidence list and the
    ratio exceeds 0.7, the evidence becomes the excerpt (500 characters of
    the summary and an ellipsis) and confidence_score becomes
    0.6 + ratio * 0.3 evaluated on doubles, a value above 0.81 and below
    0.9. For the claim [Paris is the capital of France] and a reference
    that contains paris, capital and france, the ratio is 1 and
    [verify_claim] returns, with the excerpt as evidence, the confidence
    0.8999999999999999: the double below the one nearest to 0.9. *)
Theorem knowledge_lookup_stage (E : env) :
  (forall claim_text : string,
      verification_stages E claim_text
      = verification_demo_stage claim_text
          (wikipedia_stage E claim_text
             (verification_oracle_stage E claim_text
                (initial_verification E claim_text))))
  /\ (forall (claim_text : string) (v : Verification.t),
      PyVal.truthy (Verification.evidence v) = true ->
      wikipedia_stage E claim_text v = v)
  /\ (forall claim_text : string,
      key_terms_of claim_text = long_tokens (PyStr.lower claim_text))
  /\ (forall (terms : list string) (content : string),
      terms <> [] ->
      match_ratio terms content
      = PyFloat.fl (inject_Z (Z.of_nat (terms_found terms content))
                    / inject_Z (Z.of_nat (length terms))))
  /\ (forall (claim_text first : string) (rest : list string)
             (page : WikiPage.t) (content summary : string)
             (v : Verification.t),
      Verification.evidence v = PList [] ->
      wikipedia_search E claim_text = Some (first :: rest) ->
      wikipedia_page E first = Some page ->
      WikiPage.content page = Some content ->
      WikiPage.summary page = Some summary ->
      let ratio := match_ratio (key_terms_of claim_text) (PyStr.lower content) in
      (0.7 < ratio)%Q ->
      Verification.evidence (wikipedia_stage E claim_text v)
      = PList [PStr (PyStr.take 500 summary ++ "...")%string]
      /\ Verification.confidence_score (wikipedia_stage E claim_text v)
         = PNum (PyFloat.fl (PyFloat.fl 0.6
                             + PyFloat.fl (ratio * PyFloat.fl 0.3)))
      /\ (0.81 < PyFloat.fl (PyFloat.fl 0.6
                              + PyFloat.fl (ratio * PyFloat.fl 0.3)) < 0.9)%Q)
  /\ (forall (db : claims_db) (first : string) (rest : list string)
             (page : WikiPage.t) (content summary : string),
      Verification.evidence
        (verification_oracle_stage E paris_claim
           (initial_verification E paris_claim)) = PList [] ->
      wikipedia_search E paris_claim = Some (first :: rest) ->
      wikipedia_page E first = Some page ->
      WikiPage.content page = Some content ->
      WikiPage.summary page = Some summary ->
      PyStr.contains "paris" (PyStr.lower content) = true ->
      PyStr.contains "capital" (PyStr.lower content) = true ->
      PyStr.contains "france" (PyStr.lower content) = true ->
      (match_ratio (key_terms_of paris_claim) (PyStr.lower content) == 1)%Q
      /\ exists (v : Verification.t) (q : Q),
          fst (verify_claim E paris_claim None db) = Ok v
          /\ Verification.confidence_score v = PNum q
          /\ (q == below_nine_tenths)%Q
          /\ (PyFloat.shortest q == 0.8999999999999999)%Q
          /\ (q < 0.9)%Q
          /\ Verification.evidence v
             = PList [PStr (PyStr.take 500 summary ++ "...")%string]).
Proof.
  split; [reflexivity|].
  split; [apply wikipedia_stage_skipped|].
  split; [intros; apply findall_words4_tokens|].
  split; [apply match_ratio_fraction|].
  split.
  - intros claim_text first rest page content summary v
           Hev Hsearch Hpage Hcontent Hsummary ratio Hr.
    destruct (wikipedia_stage_found E claim_text first rest page content
                summary v Hev Hsearch Hpage Hcontent Hsummary) as [Hfound _].
    destruct (Hfound Hr) as [Hevidence Hconfidence].
    split; [exact Hevidence|]. split; [exact Hconfidence|].
    apply lookup_score_range, match_ratio_threshold, Hr.
  - intros db first rest page content summary
           Hev Hsearch Hpage Hcontent Hsummary H1 H2 H3.
    pose proof (paris_ratio (PyStr.lower content) H1 H2 H3) as Hratio.
    split; [now rewrite Hratio|].
    assert (Hr : (0.7 < match_ratio (key_terms_of paris_claim)
                                     (PyStr.lower content))%Q)
      by (rewrite Hratio; reflexivity).
    destruct (wikipedia_stage_found E paris_claim first rest page content
                summary _ Hev Hsearch Hpage Hcontent Hsummary) as [Hfound _].
    destruct (Hfound Hr) as [Hevidence Hconfidence].
    rewrite Hratio in Hconfidence.
    unfold verify_claim.
    change (resolved_text paris_claim None db) with paris_claim.
    unfold verification_stages.
    assert (Hdemo : forall v, verification_demo_stage paris_claim v = v)
      by reflexivity.
    rewrite Hdemo.
    destruct (resolve_status_number _ _ Hconfidence) as [v' [Hres [Hq [He _]]]].
    rewrite Hres. exists v'. eexists. split; [reflexivity|].
    split; [exact Hq|]. split; [vm_compute; reflexivity|].
    split; [vm_compute; reflexivity|]. split; [vm_compute; reflexivity|].
    rewrite He. exact Hevidence.
Qed.

Lemma knowledge_lookup_stage_witness :
  exists (v : Verification.t) (q : Q),
    fst (verify_claim wiki_env paris_claim None ∅) = Ok v
    /\ Verification.confidence_score v = PNum q
    /\ (q == below_nine_tenths)%Q
    /\ (PyFloat.shortest q == 0.8999999999999999)%Q
    /\ (q < 0.9)%Q
    /\ Verification.evidence v
       = PList [PStr "Paris is the capital and largest city of France...."].
Proof.
  destruct (knowledge_lookup_stage wiki_env) as (_ & _ & _ & _ & _ & H).
  apply (H ∅ "Paris" [] paris_page
           "Paris is the capital and most populous city of France."
           "Paris is the capital and largest city of France."); reflexivity.
Defined.

(** ** C8: status resolution *)

Lemma eq_str_true (v : pyval) (s : string) :
  PyVal.eq_str v s = true <-> v = PStr s.
Proof.
  destruct v; simpl; split; intros H; try discriminate.
  - apply String.eqb_eq in H. now subst.
  - inversion H. apply String.eqb_refl.
Qed.

Section Resolution.
Local Open Scope Q_scope.

Lemma resolve_status_cases (v : Verification.t) (q : Q) :
  Verification.confidence_score v = PNum q ->
  exists v',
    resolve_status v = Ok v'
    /\ (Verification.status v = PStr "Unverified" ->
        PyVal.truthy (Verification.evidence v) = true ->
        (0.8 < q -> v' = Verification.set_status (PStr "True") v)
        /\ (q < 0.2 -> v' = Verification.set_status (PStr "False") v)
        /\ (0.2 <= q -> q <= 0.8 ->
            v' = Verification.set_status (PStr "Partially True") v))
    /\ (Verification.status v <> PStr "Unverified"
        \/ PyVal.truthy (Verification.evidence v) = false -> v' = v).
Proof.
  intros Hq. unfold resolve_status. rewrite Hq. simpl.
  destruct (PyVal.eq_str (Verification.status v) "Unverified") eqn:Hs;
    destruct (PyVal.truthy (Verification.evidence v)) eqn:He; simpl.
  - destruct (Qlt_bool 0.8 q) eqn:Hhi; [|destruct (Qlt_bool q 0.2) eqn:Hlo].
    + apply Qlt_bool_iff in Hhi. eexists. split; [reflexivity|]. split.
      * intros _ _. repeat split; intros; try reflexivity; lra.
      * apply eq_str_true in Hs. intros [H|H]; congruence.
    + apply Qlt_bool_false_iff in Hhi. apply Qlt_bool_iff in Hlo.
      eexists. split; [reflexivity|]. split.
      * intros _ _. repeat split; intros; try reflexivity; lra.
      * apply eq_str_true in Hs. intros [H|H]; congruence.
    + apply Qlt_bool_false_iff in Hhi. apply Qlt_bool_false_iff in Hlo.
      eexists. split; [reflexivity|]. split.
      * intros _ _. repeat split; intros; try reflexivity; lra.
      * apply eq_str_true in Hs. intros [H|H]; congruence.
  - exists v. split; [reflexivity|]. split; [congruence|reflexivity].
  - exists v. split; [reflexivity|]. split; [|reflexivity].
    intros H. apply eq_str_true in H. congruence.
  - exists v. split; [reflexivity|]. split; [congruence|reflexivity].
Qed.

End Resolution.



(** ** C9: exceptions that reach the caller *)

(** The status resolution raises exactly when it has to compare a
    confidence that is no number: the status is Unverified, the evidence is
    non-empty, and confidence_score is None, a string, a list or a dict. *)
Lemma resolve_status_raises (v : Verification.t) (e : exn) :
  resolve_status v = Raise e
  <-> e = TypeError
      /\ Verification.status v = PStr "Unverified"
      /\ PyVal.truthy (Verification.evidence v) = true
      /\ unordered (Verification.confidence_score v).
Proof.
  unfold resolve_status. rewrite <- eq_str_true.
  destruct (PyVal.eq_str (Verification.status v) "Unverified");
    destruct (PyVal.truthy (Verification.evidence v)); simpl;
    try (split; [discriminate|intros (_ & ? & ? & _); discriminate]).
  destruct (Verification.confidence_score v) as [|b|q|n| |s|l|d]; simpl;
    try (split; [intros H; now inversion H|intros (-> & _); reflexivity]).
  - destruct (Qlt_bool 0.8 (if b then 1 else 0));
      [|destruct (Qlt_bool (if b then 1 else 0) 0.2)];
      (split; [discriminate|intros (_ & _ & _ & [])]).
  - destruct (Qlt_bool 0.8 q); [|destruct (Qlt_bool q 0.2)];
      (split; [discriminate|intros (_ & _ & _ & [])]).
  - destruct n; simpl; (split; [discriminate|intros (_ & _ & _ & [])]).
  - split; [discriminate|intros (_ & _ & _ & [])].
Qed.

(** No other exception leaves [verify_claim]. *)
Lemma verify_claim_outcomes (E : env) (claim_text : string)
    (claim_id : option string) (db : claims_db) :
  (exists v, fst (verify_claim E claim_text claim_id db) = Ok v)
  \/ verify_claim E claim_text claim_id db = (Raise TypeError, db).
Proof.
  unfold verify_claim.
  destruct (resolve_status _) as [v|e] eqn:Hr; [left; now exists v|right].
  apply resolve_status_raises in Hr as (-> & _). reflexivity.
Qed.

(** C9 (as the code behaves). [verify_claim] compares confidence_score with
    0.8 outside every [try]. When the oracle's answer parses as a JSON
    object that leaves the status Unverified, gives a non-empty evidence
    list and gives a string as confidence_score, and the override does not
    apply, that comparison raises [TypeError] and the call returns nothing;
    the store is untouched. *)
Theorem verify_claim_raises_type_error
    (E : env) (claim_text reply s : string) (d : list (string * pyval))
    (item : pyval) (items : list pyval) (db : claims_db) :
  GEMINI_API_KEY E = true ->
  verification_oracle E claim_text = Reply reply ->
  json_loads E (PyStr.strip reply) = Parsed (PDict d) ->
  PyVal.get d "status" (PStr "Unverified") = PStr "Unverified" ->
  PyVal.assoc d "confidence_score" = Some (PStr s) ->
  PyVal.assoc d "evidence" = Some (PList (item :: items)) ->
  PyStr.contains "vaccine" (PyStr.lower claim_text)
  && PyStr.contains "autism" (PyStr.lower claim_text) = false ->
  verify_claim E claim_text None db = (Raise TypeError, db).
Proof.
  intros Hkey Hreply Hparse Hstatus Hconf Hev Hdemo.
  unfold verify_claim.
  change (resolved_text claim_text None db) with claim_text.
  unfold verification_stages, verification_demo_stage. rewrite Hdemo.
  unfold verification_oracle_stage. rewrite Hkey, Hreply, Hparse.
  unfold oracle_structured, wikipedia_stage, PyVal.get in *.
  rewrite Hconf, Hev. simpl PyVal.truthy. cbv iota.
  unfold resolve_status. simpl. rewrite Hstatus. reflexivity.
Qed.

Lemma verify_claim_raises_type_error_witness :
  verify_claim (oracle_env worded_reply (Parsed worded_confidence))
               "The sky is blue" None ∅
  = (Raise TypeError, ∅).
Proof.
  apply (verify_claim_raises_type_error
           (oracle_env worded_reply (Parsed worded_confidence))
           "The sky is blue" worded_reply "high"
           [ ("status", PStr "Unverified");
             ("confidence_score", PStr "high");
             ("evidence", PList [PStr "Observed on clear days."]) ]
           (PStr "Observed on clear days.") [] ∅); reflexivity.
Defined.

(** ** C10: what [verify_claim] changes in the store *)

Lemma same_claim_refl (c : Claim.t) : same_claim c c.
Proof. repeat split. Qed.

Lemma same_claim_set_verification (v : Verification.t) (c : Claim.t) :
  same_claim c (Claim.set_verification v c).
Proof. repeat split. Qed.

Lemma set_verification_same (v : Verification.t) (c c' : Claim.t) :
  same_claim c c' -> Claim.set_verification v c' = Claim.set_verification v c.
Proof.
  destruct c, c'. unfold same_claim. simpl.
  intros (-> & -> & -> & -> & -> & ->). reflexivity.
Qed.

(** The store after a call: untouched when the call raises or the id is the
    empty string, the one entry rewritten otherwise. *)
Lemma verify_claim_store (E : env) (claim_text i : string) (db : claims_db)
    (c : Claim.t) :
  db !! i = Some c ->
  let r := fst (verify_claim E claim_text (Some i) db) in
  let db' := snd (verify_claim E claim_text (Some i) db) in
  (forall v, r = Ok v -> i <> EmptyString ->
             db' = <[i := Claim.set_verification v c]> db)
  /\ ((forall v, r <> Ok v) \/ i = EmptyString -> db' = db).
Proof.
  intros Hc r db'. subst r db'. unfold verify_claim.
  destruct (resolve_status _) as [v|e]; simpl.
  - unfold attach, known_claim.
    destruct (String.eqb i EmptyString) eqn:Hi.
    + apply String.eqb_eq in Hi. split; [congruence|reflexivity].
    + rewrite Hc. split.
      * intros v' Hv _. inversion Hv. reflexivity.
      * intros [H|H]; [now destruct (H v)|].
        apply String.eqb_neq in Hi. congruence.
  - split; [discriminate|reflexivity].
Qed.

Lemma verify_claim_entry (E : env) (claim_text i : string) (db : claims_db)
    (c : Claim.t) :
  db !! i = Some c ->
  exists c', snd (verify_claim E claim_text (Some i) db) !! i = Some c'
             /\ same_claim c c'.
Proof.
  intros Hc.
  destruct (verify_claim_store E claim_text i db c Hc) as [Hok Hkeep].
  destruct (fst (verify_claim E claim_text (Some i) db)) as [v|e] eqn:Hr;
    [destruct (String.eqb i EmptyString) eqn:Hi|].
  - apply String.eqb_eq in Hi. rewrite Hkeep by now right.
    exists c. split; [exact Hc|apply same_claim_refl].
  - apply String.eqb_neq in Hi. rewrite (Hok v eq_refl Hi).
    rewrite lookup_insert_eq. eexists. split; [reflexivity|].
    apply same_claim_set_verification.
  - rewrite Hkeep by (left; discriminate).
    exists c. split; [exact Hc|apply same_claim_refl].
Qed.

Lemma verify_claim_others (E : env) (claim_text i j : string) (db : claims_db)
    (c : Claim.t) :
  db !! i = Some c -> j <> i ->
  snd (verify_claim E claim_text (Some i) db) !! j = db !! j.
Proof.
  intros Hc Hj.
  destruct (verify_claim_store E claim_text i db c Hc) as [Hok Hkeep].
  destruct (fst (verify_claim E claim_text (Some i) db)) as [v|e] eqn:Hr;
    [destruct (String.eqb i EmptyString) eqn:Hi|].
  - apply String.eqb_eq in Hi. now rewrite Hkeep by now right.
  - apply String.eqb_neq in Hi. rewrite (Hok v eq_refl Hi).
    now rewrite lookup_insert_ne by congruence.
  - now rewrite Hkeep by (left; discriminate).
Qed.

(** [extract_claims] writes under keys of the form claim_N only, so the
    empty string is never a key of a store the program has built. *)
Lemma record_claim_empty_key (E : env) (n : nat) (text : string) (q : Q)
    (method url : string) (st : extraction) :
  store st !! EmptyString = None ->
  store (record_claim (new_claim E n text q method url) st) !! EmptyString
  = None.
Proof.
  intros H. unfold record_claim. simpl.
  rewrite lookup_insert_ne by discriminate. exact H.
Qed.

Lemma extract_claims_empty_key (E : env) (text url : string) (db : claims_db) :
  db !! EmptyString = None ->
  snd (extract_claims E text url db) !! EmptyString = None.
Proof.
  intros Hdb. unfold extract_claims. simpl.
  set (P := fun st : extraction => store st !! EmptyString = None).
  assert (H0 : P (mk_extraction [] 1 db)) by exact Hdb.
  assert (H1 : P (extraction_oracle_stage E text url (mk_extraction [] 1 db))).
  { unfold extraction_oracle_stage.
    destruct (GEMINI_API_KEY E); [|exact H0].
    destruct (extraction_oracle E _); try exact H0.
    unfold oracle_lines. apply fold_left_invariant; [exact H0|].
    intros st line Hst. unfold oracle_line.
    destruct (_ || _); [exact Hst|]. now apply record_claim_empty_key. }
  set (st1 := extraction_oracle_stage E text url (mk_extraction [] 1 db)) in *.
  assert (H2 : P (heuristic_stage E text url st1)).
  { unfold heuristic_stage. destruct (extracted_claims st1); [|exact H1].
    apply fold_left_invariant; [exact H1|].
    intros st sentence Hst. unfold heuristic_sentence.
    destruct (_ <? _)%nat; [exact Hst|].
    destruct (first_match _ _ _); [|exact Hst].
    now apply record_claim_empty_key. }
  set (st2 := heuristic_stage E text url st1) in *.
  unfold demo_stage. destruct (PyStr.contains _ _); [|exact H2].
  simpl. rewrite lookup_insert_ne by discriminate. exact H2.
Qed.

Lemma verify_claim_empty_key (E : env) (claim_text : string)
    (claim_id : option string) (db : claims_db) :
  db !! EmptyString = None ->
  snd (verify_claim E claim_text claim_id db) !! EmptyString = None.
Proof.
  intros Hdb. unfold verify_claim.
  destruct (resolve_status _) as [v|e]; simpl; [|exact Hdb].
  unfold attach, known_claim. destruct claim_id as [i|]; [|exact Hdb].
  destruct (String.eqb i EmptyString) eqn:Hi; [exact Hdb|].
  destruct (db !! i); [|exact Hdb].
  apply String.eqb_neq in Hi. now rewrite lookup_insert_ne.
Qed.

Lemma reachable_empty_key (db : claims_db) :
  reachable db -> db !! EmptyString = None.
Proof.
  induction 1 as [|E text url db _ IH|E claim_text claim_id db _ IH].
  - apply lookup_empty.
  - now apply extract_claims_empty_key.
  - now apply verify_claim_empty_key.
Qed.

(** C10. For an id present in the store, [verify_claim] leaves the entry in
    place with its id, text, confidence, extraction method, source url and
    extraction date unchanged, and changes no other entry. When the call
    returns (and the id is not the empty string, which the guard treats as
    no id) the verification attached to the entry is the returned one,
    whatever was attached before; so after a second call on the same id
    the attachment is the second verification alone. In a store the program
    has built no id is the empty string. *)
Theorem verify_claim_frame
    (E : env) (claim_text i : string) (db : claims_db) (c : Claim.t) :
  db !! i = Some c ->
  let db' := snd (verify_claim E claim_text (Some i) db) in
  (exists c' : Claim.t, db' !! i = Some c' /\ same_claim c c')
  /\ (forall j : string, j <> i -> db' !! j = db !! j)
  /\ (forall v : Verification.t,
      fst (verify_claim E claim_text (Some i) db) = Ok v ->
      i <> EmptyString ->
      db' !! i = Some (Claim.set_verification v c)
      /\ attached db' i c v)
  /\ (forall (E2 : env) (text2 : string) (v2 : Verification.t),
      fst (verify_claim E2 text2 (Some i) db') = Ok v2 ->
      i <> EmptyString ->
      snd (verify_claim E2 text2 (Some i) db') !! i
      = Some (Claim.set_verification v2 c)
      /\ attached (snd (verify_claim E2 text2 (Some i) db')) i c v2
      /\ forall j : string,
          j <> i -> snd (verify_claim E2 text2 (Some i) db') !! j = db !! j)
  /\ (reachable db -> i <> EmptyString).
Proof.
  intros Hc db'.
  pose proof (verify_claim_entry E claim_text i db c Hc) as [c' [Hc' Hsame]].
  fold db' in Hc'.
  assert (Hattached : forall (m : claims_db) (v : Verification.t),
             m !! i = Some (Claim.set_verification v c) -> attached m i c v).
  { intros m v Hm. exists (Claim.set_verification v c).
    split; [exact Hm|]. split; [apply same_claim_set_verification|].
    reflexivity. }
  split; [now exists c'|].
  split; [intros j Hj; now apply (verify_claim_others E claim_text i j db c)|].
  split; [|split].
  - intros v Hv Hi.
    destruct (verify_claim_store E claim_text i db c Hc) as [Hok _].
    assert (Hm : db' !! i = Some (Claim.set_verification v c)).
    { subst db'. rewrite (Hok v Hv Hi). apply lookup_insert_eq. }
    split; [exact Hm|now apply Hattached].
  - intros E2 text2 v2 Hv2 Hi.
    assert (Hm : snd (verify_claim E2 text2 (Some i) db') !! i
                 = Some (Claim.set_verification v2 c)).
    { destruct (verify_claim_store E2 text2 i db' c' Hc') as [Hok _].
      rewrite (Hok v2 Hv2 Hi), lookup_insert_eq.
      now rewrite (set_verification_same v2 c c' Hsame). }
    split; [exact Hm|]. split; [now apply Hattached|].
    intros j Hj.
    rewrite (verify_claim_others E2 text2 i j db' c' Hc' Hj).
    now apply (verify_claim_others E claim_text i j db c).
  - intros Hreach ->. apply reachable_empty_key in Hreach. congruence.
Qed.

Lemma verify_claim_frame_witness :
  exists (v : Verification.t) (c' : Claim.t),
    fst (verify_claim wiki_env "ignored" (Some "claim_1") sample_store) = Ok v
    /\ snd (verify_claim wiki_env "ignored" (Some "claim_1") sample_store)
         !! "claim_1" = Some c'
    /\ Claim.verification c' = Some v
    /\ Claim.text c' = "The sky is blue"
    /\ Claim.verification stored_claim = None.
Proof.
  pose proof (verify_claim_frame wiki_env "ignored" "claim_1" sample_store
                stored_claim eq_refl) as (_ & _ & H & _).
  destruct (fst (verify_claim wiki_env "ignored" (Some "claim_1")
                   sample_store)) as [v|e] eqn:Hv;
    [|vm_compute in Hv; discriminate Hv].
  destruct (H v eq_refl ltac:(discriminate))
    as (_ & c' & Hc' & Hsame & Hattachment).
  exists v, c'. split; [reflexivity|]. split; [exact Hc'|].
  split; [exact Hattachment|]. split; [|reflexivity].
  destruct Hsame as (_ & Htext & _). exact Htext.
Defined.

(** ** Sample runs *)

Example lower_sample :
  PyStr.lower "Do VACCINES cause Autism?" = "do vaccines cause autism?".
Proof. reflexivity. Qed.

Example strip_sample :
  PyStr.strip (String PyStr.newline "  a claim  ") = "a claim".
Proof. reflexivity. Qed.

Example sentences_sample :
  PyStr.split_where is_sentence_end "One. Two! Three?"
  = ["One"; " Two"; " Three"; ""].
Proof. reflexivity. Qed.

Example strip_numbering_sample :
  Patterns.strip_numbering "12.   Water boils" = "Water boils"
  /\ Patterns.strip_numbering "12 apples" = "12 apples"
  /\ Patterns.strip_numbering "7." = "".
Proof. repeat split. Qed.

Example regex_fallback_sample :
  Patterns.search_status worded_reply = Some "Unverified"
  /\ Patterns.search_confidence unclamped_reply = Some "7"
  /\ Patterns.search_confidence worded_reply = None
  /\ Patterns.findall_quoted unclamped_reply = ["confidence_score"]
  /\ length (Patterns.findall_quoted worded_reply) = 6.
Proof. repeat split. Qed.

Example float_of_string_sample :
  float_is (PyVal.float_of_string "7") 7
  /\ float_is (PyVal.float_of_string "0.25") 0.25
  /\ float_is (PyVal.float_of_string "7.") 7
  /\ float_is (PyVal.float_of_string ".5") 0.5
  /\ float_is (PyVal.float_of_string "0.80000000000000001") 0.8
  /\ float_is (PyVal.float_of_string "0.1234567890123456789")
              0.12345678901234568
  /\ PyVal.float_of_string many_nines = Some (PInf false)
  /\ PyVal.float_of_string "." = None
  /\ PyVal.float_of_string "1.2.3" = None.
Proof.
  repeat split; try (vm_compute; reflexivity);
    (eexists; split; [vm_compute; reflexivity|reflexivity]).
Qed.

(** [float] rounds to a double before the status is resolved: a
    confidence written 0.80000000000000001 is 0.8 and does not exceed 0.8,
    one written 0.19999999999999999 is below 0.2, and 310 digits are the
    infinity, which exceeds 0.8. *)
Example fallback_rounding_sample :
  (exists v : Verification.t,
      fst (verify_claim
             (oracle_env (fallback_reply "0.80000000000000001") JSONDecodeError)
             "The sky is green" None ∅) = Ok v
      /\ Verification.status v = PStr "Partially True"
      /\ Verification.confidence_score v = PNum (4 # 5))
  /\ (exists v : Verification.t,
      fst (verify_claim
             (oracle_env (fallback_reply "0.19999999999999999") JSONDecodeError)
             "The sky is green" None ∅) = Ok v
      /\ Verification.status v = PStr "False"
      /\ float_is (Some (Verification.confidence_score v))
                  0.19999999999999998)
  /\ (exists v : Verification.t,
      fst (verify_claim
             (oracle_env (fallback_reply many_nines) JSONDecodeError)
             "The sky is green" None ∅) = Ok v
      /\ Verification.status v = PStr "True"
      /\ Verification.confidence_score v = PInf false).
Proof.
  split; [|split]; eexists; (split; [vm_compute; reflexivity|]).
  - now split.
  - split; [reflexivity|]. eexists. split; reflexivity.
  - now split.
Qed.

(** The score of the lookup stage for five key terms out of seven: Python
    prints 0.8142857142857143. *)
Example lookup_score_sample :
  (PyFloat.shortest (PyFloat.fl (5 # 7)) == 0.7142857142857143)%Q
  /\ (PyFloat.shortest (lookup_score (PyFloat.fl (5 # 7)))
      == 0.8142857142857143)%Q
  /\ (PyFloat.shortest (lookup_score (PyFloat.fl (3 # 4))) == 0.825)%Q
  /\ (PyFloat.shortest (lookup_score 1) == 0.8999999999999999)%Q.
Proof. repeat split; vm_compute; reflexivity. Qed.

Example round_sample :
  py_round2 0.95 = 0.95%Q
  /\ py_round2 (1 # 8) = 0.12%Q
  /\ py_round2 (3 # 8) = 0.38%Q.
Proof. repeat split. Qed.

Example oracle_extraction_sample :
  map (fun c => (Claim.id c, Claim.text c, Claim.extraction_method c))
      (fst (extract_claims (extraction_env numbered_reply) "Some article." "" ∅))
  = [ ("claim_1", "The sky is blue.", "gemini");
      ("claim_2", "Water is wet.", "gemini") ].
Proof. vm_compute. reflexivity. Qed.

Example structured_verification_sample :
  exists v : Verification.t,
    fst (verify_claim (oracle_env structured_reply (Parsed structured_answer))
                      "The sky is blue" None ∅) = Ok v
    /\ Verification.status v = PStr "True"
    /\ Verification.confidence_score v = PNum 0.9
    /\ Verification.verification_method v = "gemini".
Proof. eexists. split; [vm_compute; reflexivity|]. repeat split. Qed.

Example credibility_samples :
  (calculate_source_credibility
     [verified_as "Unverified"; verified_as "Partially True";
      verified_as "Unverified"; verified_as "Unverified";
      verified_as "Partially True"] == 0.5
   /\ calculate_source_credibility [verified_as "True"; verified_as "False"]
      == 0.5
   /\ calculate_source_credibility [verified_as "False"; verified_as "False"]
      == 0.01
   /\ calculate_source_credibility
        [verified_as "True"; verified_as "Unverified"] == 0.75)%Q.
Proof. repeat split. Qed.

Example analyze_source_sample :
  exists a : Analysis.t,
    fst (analyze_source online_env "https://news.example.org/paris" ∅) = Ok a
    /\ Analysis.source_domain a = PStr "news.example.org"
    /\ Analysis.claims_found a = 1
    /\ Analysis.claims_verified a = 1
    /\ (Analysis.credibility_score a == 0.99)%Q.
Proof. eexists. split; [vm_compute; reflexivity|]. repeat split. Qed.

(** * Further properties of the code *)

(** ** Decimal numerals *)

Section Numerals.
Import PyStr.

Lemma string_of_uint_digits (d : Decimal.uint) :
  all_chars isdecimal (NilEmpty.string_of_uint d) = true.
Proof. induction d; simpl; try reflexivity; exact IHd. Qed.

Lemma to_uint_not_nil (n : nat) : Nat.to_uint n <> Decimal.Nil.
Proof.
  intros H. pose proof (DecimalNat.Unsigned.of_to n) as Hn.
  rewrite H in Hn. simpl in Hn. subst n. discriminate.
Qed.

Lemma of_nat_digits (n : nat) : all_chars isdecimal (of_nat n) = true.
Proof.
  unfold of_nat, NilZero.string_of_uint.
  destruct (Nat.to_uint n); try reflexivity; apply string_of_uint_digits.
Qed.

Lemma of_nat_not_empty (n : nat) : of_nat n <> EmptyString.
Proof.
  unfold of_nat, NilZero.string_of_uint.
  destruct (Nat.to_uint n); discriminate.
Qed.

Lemma of_nat_inj (n m : nat) : of_nat n = of_nat m -> n = m.
Proof.
  unfold of_nat. intros H.
  apply DecimalNat.Unsigned.to_uint_inj.
  pose proof (NilZero.usu _ (to_uint_not_nil n)) as Hn.
  pose proof (NilZero.usu _ (to_uint_not_nil m)) as Hm.
  rewrite H in Hn. congruence.
Qed.

Lemma claim_key_inj (n m : nat) : claim_key n = claim_key m -> n = m.
Proof.
  unfold claim_key. intros H. apply of_nat_inj.
  now apply (String.app_inj "claim_") in H.
Qed.

Lemma claim_key_not_empty (n : nat) : claim_key n <> EmptyString.
Proof. discriminate. Qed.

End Numerals.

(** ** [extract_claims]: numbering and the store *)

Section ExtractionShape.
Variable E : env.
Variable url : string.

Lemma store_of_snoc (db : claims_db) (cs : list Claim.t) (c : Claim.t) :
  store_of db (cs ++ [c]) = <[Claim.id c := c]> (store_of db cs).
Proof. unfold store_of. now rewrite fold_left_app. Qed.

Lemma store_of_lookup_other (db : claims_db) (cs : list Claim.t) (key : string) :
  ~ In key (map Claim.id cs) -> store_of db cs !! key = db !! key.
Proof.
  induction cs as [|c cs IH] using rev_ind; [reflexivity|].
  rewrite map_app, in_app_iff. simpl. intros Hnot.
  rewrite store_of_snoc, lookup_insert_ne by (intros Heq; apply Hnot; auto).
  apply IH. intros Hin. apply Hnot. now left.
Qed.

Lemma store_of_lookup_in (db : claims_db) (cs : list Claim.t) (c : Claim.t) :
  List.NoDup (map Claim.id cs) -> In c cs -> store_of db cs !! Claim.id c = Some c.
Proof.
  induction cs as [|c' cs IH] using rev_ind; [intros _ []|].
  rewrite map_app. simpl. intros Hnd Hin.
  apply NoDup_remove in Hnd as [Hnd Hnot]. rewrite app_nil_r in Hnd, Hnot.
  rewrite store_of_snoc. apply in_app_iff in Hin as [Hin|[->|[]]].
  - rewrite lookup_insert_ne.
    + now apply IH.
    + intros Heq. apply Hnot. rewrite Heq. now apply in_map.
  - apply lookup_insert_eq.
Qed.

Lemma well_numbered_record (db : claims_db) (st : extraction) (text : string)
    (q : Q) (method : string) :
  well_numbered db st ->
  well_numbered db
    (record_claim (new_claim E (claim_id st) text q method url) st).
Proof.
  intros (Hids & Hnext & Hstore). unfold well_numbered, record_claim. simpl.
  rewrite length_app, Nat.add_1_r. simpl length.
  rewrite seq_S, !map_app, <- Hids, Hstore, store_of_snoc. simpl.
  rewrite Hnext. repeat split.
Qed.

Lemma oracle_line_numbered (db : claims_db) (line : string) (st : extraction) :
  well_numbered db st -> well_numbered db (oracle_line E url line st).
Proof.
  intros H. unfold oracle_line. destruct (_ || _); [exact H|].
  now apply well_numbered_record.
Qed.

Lemma heuristic_sentence_numbered (db : claims_db) (sentence : string)
    (st : extraction) :
  well_numbered db st -> well_numbered db (heuristic_sentence E url sentence st).
Proof.
  intros H. unfold heuristic_sentence. destruct (_ <? _)%nat; [exact H|].
  destruct (first_match _ _ _); [|exact H]. now apply well_numbered_record.
Qed.

Lemma stages_numbered (text : string) (db : claims_db) :
  well_numbered db
    (heuristic_stage E text url
       (extraction_oracle_stage E text url (mk_extraction [] 1 db))).
Proof.
  assert (H0 : well_numbered db (mk_extraction [] 1 db)) by (repeat split).
  assert (H1 : well_numbered db
                 (extraction_oracle_stage E text url (mk_extraction [] 1 db))).
  { unfold extraction_oracle_stage.
    destruct (GEMINI_API_KEY E); [|exact H0].
    destruct (extraction_oracle E _); try exact H0.
    unfold oracle_lines. apply fold_left_invariant; [exact H0|].
    intros; now apply oracle_line_numbered. }
  unfold heuristic_stage. destruct (extracted_claims _); [|exact H1].
  apply fold_left_invariant; [exact H1|].
  intros; now apply heuristic_sentence_numbered.
Qed.

(** The result of a call: ids in sequence, and the store it leaves. *)
Lemma extract_claims_shape (text : string) (db : claims_db) :
  let cs := fst (extract_claims E text url db) in
  map Claim.id cs = map claim_key (seq 1 (length cs))
  /\ snd (extract_claims E text url db) = store_of db cs.
Proof.
  pose proof (stages_numbered text db) as (Hids & Hnext & Hstore).
  unfold extract_claims. simpl.
  set (st := heuristic_stage E text url _) in *.
  unfold demo_stage. destruct (PyStr.contains _ _); simpl; [|now split].
  rewrite length_app, Nat.add_1_r, seq_S, !map_app, <- Hids, Hstore,
    store_of_snoc. simpl. rewrite Hnext. now split.
Qed.

Lemma claim_keys_NoDup (n : nat) : List.NoDup (map claim_key (seq 1 n)).
Proof.
  apply Finite.Injective_map_NoDup; [|apply seq_NoDup].
  intros a b. apply claim_key_inj.
Qed.

Lemma extract_claims_NoDup (text : string) (db : claims_db) :
  List.NoDup (map Claim.id (fst (extract_claims E text url db))).
Proof.
  destruct (extract_claims_shape text db) as [Hids _].
  rewrite Hids. apply claim_keys_NoDup.
Qed.

Lemma extract_claims_nth_id (text : string) (db : claims_db) (k : nat)
    (c : Claim.t) :
  nth_error (fst (extract_claims E text url db)) k = Some c ->
  Claim.id c = claim_key (S k).
Proof.
  intros Hk. destruct (extract_claims_shape text db) as [Hids _].
  assert (Hlen : (k < length (fst (extract_claims E text url db)))%nat)
    by (apply nth_error_Some; congruence).
  pose proof (map_nth_error Claim.id k _ Hk) as Hid.
  rewrite Hids in Hid.
  rewrite (map_nth_error claim_key k (seq 1 _) (d := S k)) in Hid.
  - now inversion Hid.
  - rewrite nth_error_nth' with (d := O) by now rewrite length_seq.
    now rewrite seq_nth.
Qed.

End ExtractionShape.

(** X1. The claims returned by one call of [extract_claims] carry the ids
    claim_1, claim_2, ... in the order of the list, whichever stage made
    them; so no two claims of one call share an id. *)
Theorem extract_claims_ids_in_sequence
    (E : env) (text url : string) (db : claims_db) :
  let cs := fst (extract_claims E text url db) in
  (forall (k : nat) (c : Claim.t),
      nth_error cs k = Some c -> Claim.id c = claim_key (S k))
  /\ List.NoDup (map Claim.id cs).
Proof.
  split.
  - intros k c. apply extract_claims_nth_id.
  - apply extract_claims_NoDup.
Qed.

(** X2. After [extract_claims], every returned claim is the entry of the
    store under its own id, and every key that is not the id of a returned
    claim holds what it held before the call. *)
Theorem extract_claims_writes_its_claims
    (E : env) (text url : string) (db : claims_db) :
  let cs := fst (extract_claims E text url db) in
  let db' := snd (extract_claims E text url db) in
  (forall c : Claim.t, In c cs -> db' !! Claim.id c = Some c)
  /\ (forall key : string,
      ~ In key (map Claim.id cs) -> db' !! key = db !! key).
Proof.
  intros cs db'. subst cs db'.
  destruct (extract_claims_shape E url text db) as [_ Hstore].
  rewrite Hstore. split.
  - intros c Hin. apply store_of_lookup_in; [|exact Hin].
    apply extract_claims_NoDup.
  - intros key. apply store_of_lookup_other.
Qed.

(** ** [extract_claims]: what each stage contributes *)

Section ExtractionStages.
Import PyStr.
Variable E : env.
Variable url : string.

Lemma first_match_existsb (patterns : list (Regex.regex * Q))
    (sentence : string) (c0 : Q) :
  first_match patterns sentence c0 = None
  <-> existsb (fun p => Regex.search (fst p) (lower sentence)) patterns = false.
Proof.
  induction patterns as [|[p b] patterns IH]; simpl; [tauto|].
  destruct (Regex.search p (lower sentence)); simpl; [|exact IH].
  split; discriminate.
Qed.

(** One sentence: a claim is appended exactly when it is [claim_like]. *)
Lemma heuristic_sentence_cases (sentence : string) (st : extraction) :
  (claim_like sentence = true
   /\ heuristic_sentence E url sentence st
      = record_claim (new_claim E (claim_id st) (strip sentence) 0.95
                                "pattern_matching" url) st)
  \/ (claim_like sentence = false
      /\ heuristic_sentence E url sentence st = st).
Proof.
  unfold heuristic_sentence, claim_like.
  destruct (String.length (strip sentence) <? 10)%nat eqn:Hlen.
  - right. apply Nat.ltb_lt in Hlen.
    replace (10 <=? _)%nat with false by (symmetry; apply Nat.leb_gt; lia).
    now split.
  - apply Nat.ltb_ge in Hlen.
    replace (10 <=? _)%nat with true by (symmetry; apply Nat.leb_le; lia).
    rewrite andb_true_l.
    destruct (first_match claim_patterns (strip sentence) 0.5) as [c|] eqn:Hm.
    + left. rewrite (first_match_claim_patterns _ _ Hm). split; [|reflexivity].
      apply not_false_iff_true. intros Hex.
      apply first_match_existsb with (c0 := 0.5%Q) in Hex. congruence.
    + right. split; [|reflexivity]. now apply first_match_existsb in Hm.
Qed.

Lemma oracle_line_cases (line : string) (st : extraction) :
  (kept_line line = true
   /\ oracle_line E url line st
      = record_claim (new_claim E (claim_id st)
                                (Patterns.strip_numbering (strip line)) 0.85
                                "gemini" url) st)
  \/ (kept_line line = false /\ oracle_line E url line st = st).
Proof.
  unfold oracle_line, kept_line.
  destruct (_ || _); [right|left]; now split.
Qed.

Lemma heuristic_fold_texts (sentences : list string) (st : extraction) :
  map Claim.text
      (extracted_claims
         (fold_left (fun st s => heuristic_sentence E url s st) sentences st))
  = map Claim.text (extracted_claims st)
    ++ map strip (List.filter claim_like sentences).
Proof.
  revert st. induction sentences as [|s sentences IH]; intros st; simpl.
  - now rewrite app_nil_r.
  - rewrite IH.
    destruct (heuristic_sentence_cases s st) as [[Hs ->]|[Hs ->]]; rewrite Hs.
    + simpl. rewrite map_app, <- app_assoc. reflexivity.
    + reflexivity.
Qed.

Lemma oracle_fold_texts (lines : list string) (st : extraction) :
  map Claim.text (extracted_claims (oracle_lines E url lines st))
  = map Claim.text (extracted_claims st)
    ++ map (fun l => Patterns.strip_numbering (strip l))
           (List.filter kept_line lines).
Proof.
  unfold oracle_lines. revert st.
  induction lines as [|l lines IH]; intros st; simpl.
  - now rewrite app_nil_r.
  - rewrite IH.
    destruct (oracle_line_cases l st) as [[Hl ->]|[Hl ->]]; rewrite Hl.
    + simpl. rewrite map_app, <- app_assoc. reflexivity.
    + reflexivity.
Qed.

Lemma oracle_fold_silent (lines : list string) (st : extraction) :
  List.filter kept_line lines = [] -> oracle_lines E url lines st = st.
Proof.
  unfold oracle_lines. revert st.
  induction lines as [|l lines IH]; intros st; simpl; [reflexivity|].
  destruct (oracle_line_cases l st) as [[Hl ->]|[Hl ->]]; rewrite Hl.
  - discriminate.
  - apply IH.
Qed.

Lemma heuristic_fold_silent (sentences : list string) (st : extraction) :
  List.filter claim_like sentences = [] ->
  fold_left (fun st s => heuristic_sentence E url s st) sentences st = st.
Proof.
  revert st. induction sentences as [|s sentences IH]; intros st; simpl;
    [reflexivity|].
  destruct (heuristic_sentence_cases s st) as [[Hs ->]|[Hs ->]]; rewrite Hs.
  - discriminate.
  - apply IH.
Qed.

Lemma oracle_silent_stage (text : string) (st : extraction) :
  oracle_silent E text -> extraction_oracle_stage E text url st = st.
Proof.
  unfold oracle_silent, extraction_oracle_stage.
  intros [H|[H|[H|(r & H & Hnone)]]]; rewrite ?H.
  - reflexivity.
  - now destruct (GEMINI_API_KEY E).
  - now destruct (GEMINI_API_KEY E).
  - destruct (GEMINI_API_KEY E); [|reflexivity].
    now apply oracle_fold_silent.
Qed.

Lemma heuristic_stage_skipped (text : string) (st : extraction) :
  extracted_claims st <> [] -> heuristic_stage E text url st = st.
Proof.
  intros H. unfold heuristic_stage. destruct (extracted_claims st); congruence.
Qed.

(** The kinds of claim each stage appends. *)
Lemma oracle_stage_kind (text : string) (st : extraction) :
  Forall (fun c => oracle_made c /\ fresh_claim url c) (extracted_claims st) ->
  Forall (fun c => oracle_made c /\ fresh_claim url c)
         (extracted_claims (extraction_oracle_stage E text url st)).
Proof.
  intros H0. unfold extraction_oracle_stage.
  destruct (GEMINI_API_KEY E); [|exact H0].
  destruct (extraction_oracle E _); try exact H0.
  unfold oracle_lines.
  apply (fold_left_invariant
           (fun st => Forall (fun c => oracle_made c /\ fresh_claim url c)
                             (extracted_claims st))); [exact H0|].
  intros st' line Hst.
  destruct (oracle_line_cases line st') as [[_ ->]|[_ ->]]; [|exact Hst].
  simpl. apply Forall_app. split; [exact Hst|].
  repeat constructor.
Qed.

Lemma heuristic_fold_kind (sentences : list string) (st : extraction) :
  Forall (fun c => heuristic_made c /\ fresh_claim url c)
         (extracted_claims st) ->
  Forall (fun c => heuristic_made c /\ fresh_claim url c)
         (extracted_claims
            (fold_left (fun st s => heuristic_sentence E url s st)
                       sentences st)).
Proof.
  intros H0.
  apply (fold_left_invariant
           (fun st => Forall (fun c => heuristic_made c /\ fresh_claim url c)
                             (extracted_claims st))); [exact H0|].
  intros st' s Hst.
  destruct (heuristic_sentence_cases s st') as [[_ ->]|[_ ->]]; [|exact Hst].
  simpl. apply Forall_app. split; [exact Hst|].
  repeat constructor.
Qed.

End ExtractionStages.

(** X3. The list returned by [extract_claims] is a body followed by at most
    one fixed claim. The body is made by one stage only: either every claim
    has method gemini and confidence 0.85, or every claim has method
    pattern_matching and confidence 0.95 (every boost passes the cap, so
    the heuristic confidence is never anything else). The fixed claim is
    present exactly when the text contains vaccine, and is numbered after
    the body. Every claim carries the call's url and no verification. *)
Theorem extract_claims_kinds (E : env) (text url : string) (db : claims_db) :
  exists body tail : list Claim.t,
    fst (extract_claims E text url db) = body ++ tail
    /\ (Forall oracle_made body \/ Forall heuristic_made body)
    /\ ((PyStr.contains "vaccine" (PyStr.lower text) = false /\ tail = [])
        \/ (PyStr.contains "vaccine" (PyStr.lower text) = true
            /\ tail = [demo_claim E (S (length body)) url]))
    /\ Forall (fresh_claim url) (body ++ tail).
Proof.
  pose proof (stages_numbered E url text db) as (_ & Hnext & _).
  set (st1 := extraction_oracle_stage E text url (mk_extraction [] 1 db)) in *.
  assert (H1 : Forall (fun c => oracle_made c /\ fresh_claim url c)
                      (extracted_claims st1))
    by (apply oracle_stage_kind; constructor).
  set (st2 := heuristic_stage E text url st1) in *.
  assert (H2 : Forall (fun c => oracle_made c /\ fresh_claim url c)
                      (extracted_claims st2)
               \/ Forall (fun c => heuristic_made c /\ fresh_claim url c)
                         (extracted_claims st2)).
  { subst st2. unfold heuristic_stage.
    destruct (extracted_claims st1) eqn:H; [right|left; now rewrite H].
    apply heuristic_fold_kind. rewrite H. constructor. }
  assert (Hfresh : Forall (fresh_claim url) (extracted_claims st2)).
  { destruct H2 as [H2|H2]; eapply Forall_impl; try exact H2;
      now intros c [_ Hc]. }
  assert (Hkind : Forall oracle_made (extracted_claims st2)
                  \/ Forall heuristic_made (extracted_claims st2)).
  { destruct H2 as [H2|H2]; [left|right]; eapply Forall_impl; try exact H2;
      now intros c [Hc _]. }
  exists (extracted_claims st2).
  unfold extract_claims. simpl. fold st1. fold st2.
  unfold demo_stage. destruct (PyStr.contains _ _); simpl.
  - exists [demo_claim E (claim_id st2) url]. rewrite Hnext.
    split; [reflexivity|]. split; [exact Hkind|]. split; [now right|].
    apply Forall_app. split; [exact Hfresh|]. repeat constructor.
  - exists []. rewrite app_nil_r. split; [reflexivity|].
    split; [exact Hkind|]. split; [now left|exact Hfresh].
Qed.

(** X4. When the oracle stage has nothing to offer (no key, an exception, a
    response without text, or an answer whose lines are all blank or the
    sentinel), [extract_claims] returns the same list and leaves the same
    store as it does with no API key configured at all. *)
Theorem extract_claims_falls_back
    (E : env) (text url : string) (db : claims_db) :
  oracle_silent E text ->
  extract_claims E text url db = extract_claims (without_key E) text url db.
Proof.
  intros Hsilent. unfold extract_claims.
  rewrite (oracle_silent_stage E url text _ Hsilent). reflexivity.
Qed.

Lemma extract_claims_falls_back_witness :
  extract_claims (extraction_env "No claims found.")
                 studies_sentence "" ∅
  = extract_claims (without_key (extraction_env "No claims found."))
                   studies_sentence "" ∅.
Proof.
  apply (extract_claims_falls_back (extraction_env "No claims found.")
           studies_sentence "" ∅).
  right. right. right. exists "No claims found.". split; reflexivity.
Defined.

(** X5. When the oracle stage has nothing to offer, the texts returned by
    [extract_claims] are exactly the trimmed sentences (the pieces of the
    text between the characters . ! ?) that have ten characters or more and
    match at least one claim pattern, in the order of the text, followed by
    the fixed text when the text contains vaccine. *)
Theorem extract_claims_heuristic_texts
    (E : env) (text url : string) (db : claims_db) :
  oracle_silent E text ->
  map Claim.text (fst (extract_claims E text url db))
  = map PyStr.strip
        (List.filter claim_like (PyStr.split_where is_sentence_end text))
    ++ demo_texts text.
Proof.
  intros Hsilent. unfold extract_claims. simpl.
  rewrite (oracle_silent_stage E url text _ Hsilent).
  unfold heuristic_stage. simpl extracted_claims. cbv iota.
  unfold demo_stage, demo_texts.
  destruct (PyStr.contains _ _); simpl.
  - rewrite map_app, heuristic_fold_texts. reflexivity.
  - rewrite heuristic_fold_texts, app_nil_r. reflexivity.
Qed.

Lemma extract_claims_heuristic_texts_witness :
  map Claim.text
      (fst (extract_claims offline_env
              "Short one. The vaccine was tested on adults! Is that all?"
              "" ∅))
  = ["The vaccine was tested on adults"; "Is that all";
     "Vaccines cause autism."].
Proof.
  apply (extract_claims_heuristic_texts offline_env
           "Short one. The vaccine was tested on adults! Is that all?" "" ∅).
  now left.
Defined.

(** X6. When the oracle answers with at least one usable line, the texts
    returned by [extract_claims] are exactly the usable lines of the
    trimmed answer (those that are neither blank nor the sentinel), each
    trimmed and stripped of a leading number, in order, followed by the
    fixed text when the input contains vaccine; the heuristic stage adds
    nothing. *)
Theorem extract_claims_oracle_texts
    (E : env) (text url reply : string) (db : claims_db) :
  GEMINI_API_KEY E = true ->
  extraction_oracle E (PyStr.take 4000 text) = Reply reply ->
  let kept :=
    List.filter kept_line
      (PyStr.split_where (Ascii.eqb PyStr.newline) (PyStr.strip reply)) in
  kept <> [] ->
  map Claim.text (fst (extract_claims E text url db))
  = map (fun l => Patterns.strip_numbering (PyStr.strip l)) kept
    ++ demo_texts text.
Proof.
  intros Hkey Hreply kept Hkept. unfold extract_claims. simpl.
  unfold extraction_oracle_stage. rewrite Hkey, Hreply.
  pose proof (oracle_fold_texts E url
                (PyStr.split_where (Ascii.eqb PyStr.newline) (PyStr.strip reply))
                (mk_extraction [] 1 db)) as Htexts.
  simpl in Htexts. fold kept in Htexts.
  set (st1 := oracle_lines E url _ _) in *.
  assert (Hne : extracted_claims st1 <> []).
  { intros Hnil. rewrite Hnil in Htexts. simpl in Htexts.
    destruct kept; [congruence|discriminate]. }
  rewrite (heuristic_stage_skipped E url text st1 Hne).
  unfold demo_stage, demo_texts.
  destruct (PyStr.contains _ _); simpl.
  - rewrite map_app, Htexts. reflexivity.
  - rewrite Htexts, app_nil_r. reflexivity.
Qed.

Lemma extract_claims_oracle_texts_witness :
  map Claim.text
      (fst (extract_claims (extraction_env numbered_reply) "Some article." "" ∅))
  = ["The sky is blue."; "Water is wet."].
Proof.
  apply (extract_claims_oracle_texts (extraction_env numbered_reply)
           "Some article." "" numbered_reply ∅); try reflexivity.
  discriminate.
Defined.

(** ** Trimming and splitting *)

Section StringShapes.
Import PyStr Patterns.

Lemma lstrip_length (s : string) : (String.length (lstrip s) <= String.length s)%nat.
Proof.
  induction s as [|c s IH]; simpl; [lia|]. destruct (isspace c); simpl; lia.
Qed.

Lemma rstrip_length (s : string) : (String.length (rstrip s) <= String.length s)%nat.
Proof.
  induction s as [|c s IH]; simpl; [lia|].
  destruct (rstrip s); [destruct (isspace c)|]; simpl in *; lia.
Qed.

Lemma strip_length (s : string) : (String.length (strip s) <= String.length s)%nat.
Proof.
  unfold strip. pose proof (rstrip_length (lstrip s)). pose proof (lstrip_length s).
  lia.
Qed.

Lemma split_where_lengths (sep : ascii -> bool) (s : string) :
  Forall (fun p => (String.length p <= String.length s)%nat) (split_where sep s).
Proof.
  induction s as [|c s IH]; cbn [split_where].
  - constructor; [simpl; lia|constructor].
  - destruct (sep c).
    + constructor; [simpl; lia|].
      eapply List.Forall_impl; [|exact IH]. simpl. intros; lia.
    + destruct (split_where sep s) as [|h t].
      * constructor; [simpl; lia|constructor].
      * inversion IH; subst. constructor; [simpl in *; lia|].
        eapply List.Forall_impl; [|eassumption]. simpl. intros; lia.
Qed.

Lemma split_where_pieces (sep : ascii -> bool) (s : string) :
  Forall (fun p => all_chars (fun c => negb (sep c)) p = true)
         (split_where sep s).
Proof.
  induction s as [|c s IH]; simpl.
  - repeat constructor.
  - destruct (sep c) eqn:Hc.
    + constructor; [reflexivity|exact IH].
    + destruct (split_where sep s) as [|h t]; [repeat constructor; simpl; now rewrite Hc|].
      inversion IH; subst. constructor; [|assumption].
      simpl. rewrite Hc. assumption.
Qed.

Lemma lstrip_all (p : ascii -> bool) (s : string) :
  all_chars p s = true -> all_chars p (lstrip s) = true.
Proof.
  induction s as [|c s IH]; simpl; [reflexivity|].
  intros H. apply andb_true_iff in H as [Hc Hs].
  destruct (isspace c); [now apply IH|]. simpl. now rewrite Hc.
Qed.

Lemma rstrip_all (p : ascii -> bool) (s : string) :
  all_chars p s = true -> all_chars p (rstrip s) = true.
Proof.
  induction s as [|c s IH]; simpl; [reflexivity|].
  intros H. apply andb_true_iff in H as [Hc Hs]. specialize (IH Hs).
  destruct (rstrip s); [destruct (isspace c)|]; simpl in *;
    rewrite ?Hc; auto.
Qed.

Lemma strip_all (p : ascii -> bool) (s : string) :
  all_chars p s = true -> all_chars p (strip s) = true.
Proof. intros H. unfold strip. now apply rstrip_all, lstrip_all. Qed.

Lemma rstrip_idem (s : string) : rstrip (rstrip s) = rstrip s.
Proof.
  induction s as [|c s IH]; simpl; [reflexivity|].
  destruct (rstrip s) as [|d r] eqn:Hr.
  - destruct (isspace c) eqn:Hc; simpl; [reflexivity|]. now rewrite Hc.
  - cbn [rstrip]. fold rstrip. simpl in IH. simpl. rewrite IH. reflexivity.
Qed.

Lemma rstrip_head (c : ascii) (s : string) :
  isspace c = false -> exists r, rstrip (String c s) = String c r.
Proof.
  intros Hc. simpl. destruct (rstrip s); [rewrite Hc|]; eauto.
Qed.

(** Trimming a trimmed string changes nothing. *)
Lemma strip_idem (s : string) : strip (strip s) = strip s.
Proof.
  unfold strip.
  assert (Hl : lstrip (rstrip (lstrip s)) = rstrip (lstrip s)).
  { pose proof (span_stops isspace s) as Hstop. rewrite <- lstrip_span in Hstop.
    destruct (lstrip s) as [|c t]; [reflexivity|]. simpl in Hstop.
    destruct (rstrip_head c t Hstop) as [r ->]. simpl. now rewrite Hstop. }
  rewrite Hl. apply rstrip_idem.
Qed.

End StringShapes.

(** ** [extract_claims]: short texts, heuristic texts, repeated calls *)

Lemma fold_left_invariant_in {A B : Type} (P : A -> Prop) (f : A -> B -> A)
    (l : list B) (a : A) :
  P a -> (forall a x, In x l -> P a -> P (f a x)) -> P (fold_left f l a).
Proof.
  revert a. induction l as [|x l IH]; intros a Ha Hstep; simpl; [exact Ha|].
  apply IH.
  - apply Hstep; [now left|exact Ha].
  - intros a' y Hy. apply Hstep. now right.
Qed.

Lemma short_text_no_sentence (text : string) :
  (String.length text < 10)%nat ->
  List.filter claim_like (PyStr.split_where is_sentence_end text) = [].
Proof.
  intros Hlen.
  pose proof (split_where_lengths is_sentence_end text) as Hall.
  induction Hall as [|p ps Hp _ IH]; [reflexivity|].
  simpl. rewrite IH. unfold claim_like.
  replace (10 <=? String.length (PyStr.strip p))%nat with false; [reflexivity|].
  symmetry. apply Nat.leb_gt. pose proof (strip_length p). lia.
Qed.

(** X7. When the oracle stage has nothing to offer, a text of fewer than
    ten characters (the empty text included) yields no heuristic claim:
    [extract_claims] returns the empty list and leaves the store as it was,
    unless the text contains vaccine, in which case it returns the fixed
    claim alone, numbered claim_1, and stores it. *)
Theorem extract_claims_short_text
    (E : env) (text url : string) (db : claims_db) :
  oracle_silent E text ->
  (String.length text < 10)%nat ->
  extract_claims E text url db
  = if PyStr.contains "vaccine" (PyStr.lower text)
    then ([demo_claim E 1 url], <["claim_1" := demo_claim E 1 url]> db)
    else ([], db).
Proof.
  intros Hsilent Hlen. unfold extract_claims.
  rewrite (oracle_silent_stage E url text _ Hsilent).
  unfold heuristic_stage. simpl extracted_claims. cbv iota.
  rewrite heuristic_fold_silent by now apply short_text_no_sentence.
  unfold demo_stage. destruct (PyStr.contains _ _); reflexivity.
Qed.

Lemma extract_claims_short_text_witness :
  extract_claims offline_env "" "" ∅ = ([], ∅).
Proof.
  apply (extract_claims_short_text offline_env "" "" ∅); [now left|simpl; lia].
Defined.

Section HeuristicTexts.
Variable E : env.
Variable url : string.

Lemma heuristic_stage_texts (text : string) (st : extraction) :
  Forall sentence_text (extracted_claims st) ->
  Forall sentence_text (extracted_claims (heuristic_stage E text url st)).
Proof.
  intros H0.
  destruct (extracted_claims st) as [|c0 cs] eqn:Hst;
    [|rewrite heuristic_stage_skipped by (rewrite Hst; discriminate);
      now rewrite Hst].
  unfold heuristic_stage. rewrite Hst.
  apply (fold_left_invariant_in
           (fun st => Forall sentence_text (extracted_claims st))).
  - rewrite Hst. constructor.
  - intros st' s Hin Hst'.
    destruct (heuristic_sentence_cases E url s st') as [[Hs ->]|[_ ->]];
      [|exact Hst'].
    simpl. apply Forall_app. split; [exact Hst'|].
    constructor; [|constructor]. intros _. simpl.
    unfold claim_like in Hs. apply andb_true_iff in Hs as [Hlen _].
    apply Nat.leb_le in Hlen.
    split; [apply strip_idem|]. split; [exact Hlen|].
    apply strip_all.
    pose proof (split_where_pieces is_sentence_end text) as Hall.
    rewrite List.Forall_forall in Hall. now apply Hall.
Qed.

End HeuristicTexts.

(** X8. Every claim of kind pattern_matching returned by [extract_claims]
    has a text that is trimmed (trimming it again changes nothing), is ten
    characters or longer, and contains none of the characters . ! ? at
    which the text was cut into sentences. *)
Theorem extract_claims_sentence_texts
    (E : env) (text url : string) (db : claims_db) :
  Forall sentence_text (fst (extract_claims E text url db)).
Proof.
  unfold extract_claims. simpl.
  set (st1 := extraction_oracle_stage E text url (mk_extraction [] 1 db)).
  assert (H1 : Forall sentence_text (extracted_claims st1)).
  { pose proof (oracle_stage_kind E url text (mk_extraction [] 1 db)) as Hk.
    fold st1 in Hk. eapply List.Forall_impl; [|apply Hk; constructor].
    intros c [[Hm _] _] Hp. rewrite Hm in Hp. discriminate. }
  apply (heuristic_stage_texts E url text) in H1.
  unfold demo_stage. destruct (PyStr.contains _ _); simpl; [|exact H1].
  apply Forall_app. split; [exact H1|].
  constructor; [|constructor]. intros Hp. discriminate.
Qed.

(** X9. Numbering restarts at claim_1 on every call. After two calls in a
    row, the entry claim_k of the store, for a claim numbered k by the
    first call, is the second call's k-th claim when it returned that
    many, and the first call's claim otherwise. *)
Theorem extract_claims_twice
    (E : env) (text1 url1 text2 url2 : string) (db : claims_db)
    (k : nat) (c1 : Claim.t) :
  let first := extract_claims E text1 url1 db in
  let second := extract_claims E text2 url2 (snd first) in
  nth_error (fst first) k = Some c1 ->
  snd second !! claim_key (S k)
  = Some (match nth_error (fst second) k with
          | Some c2 => c2
          | None => c1
          end).
Proof.
  intros first second Hk. subst first second.
  set (r1 := extract_claims E text1 url1 db) in *.
  destruct (extract_claims_shape E url2 text2 (snd r1)) as [Hids2 Hstore2].
  rewrite Hstore2.
  destruct (nth_error (fst (extract_claims E text2 url2 (snd r1))) k)
    as [c2|] eqn:Hk2.
  - rewrite <- (extract_claims_nth_id E url2 text2 (snd r1) k c2 Hk2).
    apply store_of_lookup_in; [apply extract_claims_NoDup|].
    eapply nth_error_In; eassumption.
  - apply nth_error_None in Hk2.
    rewrite store_of_lookup_other.
    + subst r1. destruct (extract_claims_shape E url1 text1 db) as [_ Hstore1].
      rewrite Hstore1.
      rewrite <- (extract_claims_nth_id E url1 text1 db k c1 Hk).
      apply store_of_lookup_in; [apply extract_claims_NoDup|].
      eapply nth_error_In; eassumption.
    + rewrite Hids2. intros Hin. apply in_map_iff in Hin as (j & Hj & Hin).
      apply claim_key_inj in Hj. apply in_seq in Hin. lia.
Qed.

Lemma extract_claims_twice_witness :
  snd (extract_claims offline_env "A vaccine." "second"
         (snd (extract_claims offline_env "The vaccine." "first" ∅)))
    !! claim_key 1
  = Some (demo_claim offline_env 1 "second").
Proof.
  apply (extract_claims_twice offline_env "The vaccine." "first"
           "A vaccine." "second" ∅ 0 (demo_claim offline_env 1 "first")).
  reflexivity.
Defined.

(** ** [verify_claim]: the stages one by one *)

Section VerificationStages.
Local Open Scope Q_scope.
Variable E : env.

Lemma verifier_silent_stage (text : string) (v : Verification.t) :
  verifier_silent E text -> verification_oracle_stage E text v = v.
Proof.
  unfold verification_oracle_stage.
  intros [H|[H|[H|(r & H & [Hj|(data & Hj & Hd)])]]]; rewrite H;
    try reflexivity; try (destruct (GEMINI_API_KEY E); reflexivity).
  - rewrite Hj. destruct (GEMINI_API_KEY E); reflexivity.
  - rewrite Hj. destruct (GEMINI_API_KEY E); [|reflexivity].
    destruct data; try reflexivity. now destruct (Hd entries).
Qed.

(** What the oracle stage never touches, and the tags it can leave. *)
Lemma oracle_stage_frame (text : string) (v : Verification.t) :
  let v' := verification_oracle_stage E text v in
  Verification.claim v' = Verification.claim v
  /\ Verification.sources v' = Verification.sources v
  /\ (Verification.verification_method v' = Verification.verification_method v
      \/ Verification.verification_method v' = "gemini"%string
      \/ Verification.verification_method v' = "gemini_regex"%string).
Proof.
  unfold verification_oracle_stage.
  destruct (GEMINI_API_KEY E); [|now auto].
  destruct (verification_oracle E text) as [| |r]; try now auto.
  destruct (json_loads E (PyStr.strip r)) as [data| |]; try now auto.
  - destruct data; simpl; now auto.
  - unfold oracle_regex, oracle_regex_evidence.
    set (t := PyStr.strip r).
    destruct (Patterns.search_status t);
      destruct (Patterns.search_confidence t) as [g|];
      try destruct (PyVal.float_of_string g);
      destruct (Patterns.findall_quoted t); simpl; now auto.
Qed.

(** The lookup stage adds at most one source and changes nothing but the
    evidence, the confidence and the sources. *)
Lemma wikipedia_stage_frame (text : string) (v : Verification.t) :
  let v' := wikipedia_stage E text v in
  Verification.claim v' = Verification.claim v
  /\ Verification.status v' = Verification.status v
  /\ Verification.verification_method v' = Verification.verification_method v
  /\ Verification.reasoning v' = Verification.reasoning v
  /\ (Verification.sources v' = Verification.sources v
      \/ exists page,
          Verification.sources v'
          = Verification.sources v ++ [wikipedia_source E page]).
Proof.
  unfold wikipedia_stage.
  destruct (PyVal.truthy _); [now auto 6|].
  destruct (wikipedia_search E text) as [[|first rest]|]; try now auto 6.
  destruct (wikipedia_page E first) as [page|]; [|now auto 6].
  destruct (WikiPage.content page) as [content|];
    [|simpl; repeat split; right; now exists page].
  destruct (Qlt_bool (PyFloat.fl 0.7) _);
    [|simpl; repeat split; right; now exists page].
  destruct (WikiPage.summary page) as [summary|];
    [|simpl; repeat split; right; now exists page].
  simpl. destruct (Verification.evidence v); simpl; repeat split; right;
    now exists page.
Qed.

(** The lookup stage from an empty evidence list: nothing but a source is
    added, or the excerpt becomes the one evidence item and the confidence
    goes above 0.81. *)
Lemma wikipedia_stage_cases (text : string) (v : Verification.t) :
  Verification.evidence v = PList [] ->
  let v' := wikipedia_stage E text v in
  (Verification.evidence v' = PList []
   /\ Verification.confidence_score v' = Verification.confidence_score v)
  \/ exists (summary : string) (q : Q),
      Verification.evidence v' = PList [excerpt summary]
      /\ Verification.confidence_score v' = PNum q
      /\ 0.81 < q /\ q <= 0.9.
Proof.
  intros Hev. unfold wikipedia_stage. rewrite Hev. simpl PyVal.truthy. cbv iota.
  destruct (wikipedia_search E text) as [[|first rest]|]; try now left.
  destruct (wikipedia_page E first) as [page|]; [|now left].
  destruct (WikiPage.content page) as [content|]; [|now left].
  destruct (Qlt_bool (PyFloat.fl 0.7) _) eqn:Hr; [|now left].
  destruct (WikiPage.summary page) as [summary|]; [|now left].
  simpl. rewrite Hev. right. exists summary. eexists.
  split; [reflexivity|]. split; [reflexivity|].
  apply Qlt_bool_iff in Hr.
  destruct (lookup_score_range _ _ Hr) as [Hlo Hhi].
  split; lra.
Qed.

(** Resolving the status changes the status at most. *)
Lemma resolve_status_frame (v v' : Verification.t) :
  resolve_status v = Ok v' ->
  v' = v \/ exists s, v' = Verification.set_status (PStr s) v.
Proof.
  unfold resolve_status. destruct (_ && _); [|intros H; inversion H; now left].
  destruct (PyVal.gt _ _) as [[|]|]; try discriminate.
  - intros H; inversion H. right. now eexists.
  - destruct (PyVal.lt _ _) as [[|]|]; try discriminate.
    + intros H; inversion H. right. now eexists.
    + destruct (PyVal.truthy _); intros H; inversion H;
        [right; now eexists|now left].
Qed.

End VerificationStages.

(** X10. When the oracle stage of [verify_claim] has nothing to offer (no
    key, an exception, a response without text, a failure of [json.loads]
    other than a decode error, or an answer that parses to something that
    is no JSON object), the call returns the same outcome and leaves the
    same store as it does with no API key configured at all. *)
Theorem verify_claim_falls_back
    (E : env) (claim_text : string) (claim_id : option string)
    (db : claims_db) :
  verifier_silent E (resolved_text claim_text claim_id db) ->
  verify_claim E claim_text claim_id db
  = verify_claim (without_key E) claim_text claim_id db.
Proof.
  intros Hsilent. unfold verify_claim, verification_stages.
  rewrite (verifier_silent_stage E _ _ Hsilent). reflexivity.
Qed.

Lemma verify_claim_falls_back_witness :
  verify_claim (oracle_env "[1, 2]" (Parsed (PList [PNum 1; PNum 2])))
               paris_claim None ∅
  = verify_claim (without_key
                    (oracle_env "[1, 2]" (Parsed (PList [PNum 1; PNum 2]))))
                 paris_claim None ∅.
Proof.
  apply (verify_claim_falls_back
           (oracle_env "[1, 2]" (Parsed (PList [PNum 1; PNum 2])))
           paris_claim None ∅).
  right. right. right. exists "[1, 2]". split; [reflexivity|].
  right. eexists. split; [reflexivity|]. discriminate.
Defined.

(** X11. When the oracle stage has nothing to offer, [verify_claim] always
    returns, and what it returns has one of three shapes: the fixed
    override (status False, confidence 0.95); status Unverified with no
    evidence and confidence 0.5; or status True with the excerpt of the
    reference summary as the one evidence item and a confidence above 0.81
    and at most 0.9. So without the oracle the status is never Partially
    True, and False only through the override. *)
Theorem verify_claim_without_oracle
    (E : env) (claim_text : string) (claim_id : option string)
    (db : claims_db) :
  verifier_silent E (resolved_text claim_text claim_id db) ->
  exists v : Verification.t,
    fst (verify_claim E claim_text claim_id db) = Ok v
    /\ ((Verification.status v = PStr "False"
         /\ Verification.confidence_score v = PNum 0.95
         /\ Verification.verification_method v = "demo_hardcoded")
        \/ (Verification.status v = PStr "Unverified"
            /\ Verification.confidence_score v = PNum 0.5
            /\ Verification.evidence v = PList []
            /\ Verification.verification_method v = "pattern_matching")
        \/ (Verification.status v = PStr "True"
            /\ (exists (summary : string) (q : Q),
                   Verification.evidence v = PList [excerpt summary]
                   /\ Verification.confidence_score v = PNum q
                   /\ (0.81 < q /\ q <= 0.9)%Q)
            /\ Verification.verification_method v = "pattern_matching")).
Proof.
  intros Hsilent. unfold verify_claim, verification_stages.
  set (text := resolved_text claim_text claim_id db) in *.
  rewrite (verifier_silent_stage E _ _ Hsilent).
  set (v0 := initial_verification E text).
  pose proof (wikipedia_stage_frame E text v0) as (_ & Hst & Hm & _).
  pose proof (wikipedia_stage_cases E text v0 eq_refl) as Hcases.
  set (v1 := wikipedia_stage E text v0) in *. simpl in Hst, Hm, Hcases.
  unfold verification_demo_stage.
  destruct (_ && _).
  - rewrite resolve_status_settled by reflexivity.
    eexists. split; [reflexivity|]. left. now repeat split.
  - destruct Hcases as [[Hev Hq]|(summary & q & Hev & Hq & Hlo & Hhi)].
    + destruct (resolve_status_cases v1 _ Hq) as (v & Hres & _ & Hkeep).
      rewrite Hres. exists v. split; [reflexivity|].
      rewrite (Hkeep (or_intror (f_equal PyVal.truthy Hev))).
      right. left. now repeat split.
    + destruct (resolve_status_cases v1 q Hq) as (v & Hres & Hset & _).
      rewrite Hres. exists v. split; [reflexivity|].
      destruct (Hset Hst (f_equal PyVal.truthy Hev)) as (Htrue & _).
      rewrite Htrue by lra.
      right. right. simpl. split; [reflexivity|]. split; [|exact Hm].
      exists summary, q. now repeat split.
Qed.

Lemma verify_claim_without_oracle_witness :
  exists v : Verification.t,
    fst (verify_claim wiki_env paris_claim None ∅) = Ok v
    /\ ((Verification.status v = PStr "False"
         /\ Verification.confidence_score v = PNum 0.95
         /\ Verification.verification_method v = "demo_hardcoded")
        \/ (Verification.status v = PStr "Unverified"
            /\ Verification.confidence_score v = PNum 0.5
            /\ Verification.evidence v = PList []
            /\ Verification.verification_method v = "pattern_matching")
        \/ (Verification.status v = PStr "True"
            /\ (exists (summary : string) (q : Q),
                   Verification.evidence v = PList [excerpt summary]
                   /\ Verification.confidence_score v = PNum q
                   /\ (0.81 < q /\ q <= 0.9)%Q)
            /\ Verification.verification_method v = "pattern_matching")).
Proof.
  apply (verify_claim_without_oracle wiki_env paris_claim None ∅).
  now left.
Defined.

(** X12. Whatever the collaborators did, a verification returned by
    [verify_claim] is about the resolved text, carries one of the four
    method tags, and has no source, one encyclopedia source, or the two
    fixed sources; the tag demo_hardcoded and the two fixed sources appear
    exactly when the resolved text contains both vaccine and autism. *)
Theorem verify_claim_record
    (E : env) (claim_text : string) (claim_id : option string)
    (db : claims_db) (v : Verification.t) :
  fst (verify_claim E claim_text claim_id db) = Ok v ->
  let text := resolved_text claim_text claim_id db in
  Verification.claim v = text
  /\ In (Verification.verification_method v) method_tags
  /\ source_shapes E (Verification.sources v)
  /\ (Verification.verification_method v = "demo_hardcoded"
      <-> overridden text = true)
  /\ (Verification.sources v = demo_sources <-> overridden text = true).
Proof.
  intros Hv text. revert Hv. unfold verify_claim. fold text.
  destruct (resolve_status _) as [v'|e] eqn:Hres; [|discriminate].
  simpl. intros Hv. inversion Hv; subst v'. clear Hv.
  assert (Hpre : exists pre, resolve_status pre = Ok v
                 /\ Verification.claim pre = text
                 /\ In (Verification.verification_method pre) method_tags
                 /\ source_shapes E (Verification.sources pre)
                 /\ (Verification.verification_method pre = "demo_hardcoded"
                     <-> overridden text = true)
                 /\ (Verification.sources pre = demo_sources
                     <-> overridden text = true)).
  { eexists. split; [exact Hres|]. unfold verification_stages.
    set (v0 := initial_verification E text).
    pose proof (oracle_stage_frame E text v0) as (Hc1 & Hs1 & Hm1).
    set (v1 := verification_oracle_stage E text v0) in *.
    pose proof (wikipedia_stage_frame E text v1) as (Hc2 & _ & Hm2 & _ & Hs2).
    set (v2 := wikipedia_stage E text v1) in *.
    simpl in Hc1, Hs1, Hm1, Hc2, Hm2, Hs2.
    rewrite <- Hm2 in Hm1. rewrite Hs1 in Hs2. rewrite Hc1 in Hc2.
    unfold verification_demo_stage. fold (overridden text).
    destruct (overridden text); simpl.
    - split; [exact Hc2|]. split; [unfold method_tags; simpl; tauto|].
      split; [right; now right|]. split; tauto.
    - split; [exact Hc2|]. split.
      { unfold method_tags. simpl.
        destruct Hm1 as [->|[->| ->]]; tauto. }
      split.
      { destruct Hs2 as [->|[page ->]]; [now left|right; left; now exists page]. }
      split.
      + split; [|discriminate].
        destruct Hm1 as [->|[->| ->]]; discriminate.
      + split; [|discriminate].
        destruct Hs2 as [->|[page ->]]; discriminate. }
  destruct Hpre as (pre & Hr & Hpre).
  apply resolve_status_frame in Hr as [->|[s ->]]; exact Hpre.
Qed.

Lemma verify_claim_record_witness :
  exists v : Verification.t,
    fst (verify_claim wiki_env paris_claim None ∅) = Ok v
    /\ Verification.claim v = paris_claim
    /\ In (Verification.verification_method v) method_tags.
Proof.
  destruct (fst (verify_claim wiki_env paris_claim None ∅)) as [v|e] eqn:Hv;
    [|vm_compute in Hv; discriminate Hv].
  exists v. split; [reflexivity|].
  destruct (verify_claim_record wiki_env paris_claim None ∅ v Hv)
    as (H1 & H2 & _).
  split; [exact H1|exact H2].
Defined.

(** X13. For an id that the store holds (and that is not the empty
    string), the text argument of [verify_claim] is ignored: any two text
    arguments give the same outcome and the same store, and the outcome is
    the one of verifying the stored text without an id. *)
Theorem verify_claim_known_id
    (E : env) (text1 text2 i : string) (db : claims_db) (c : Claim.t) :
  db !! i = Some c ->
  i <> EmptyString ->
  verify_claim E text1 (Some i) db = verify_claim E text2 (Some i) db
  /\ fst (verify_claim E text1 (Some i) db)
     = fst (verify_claim E (Claim.text c) None db).
Proof.
  intros Hc Hi. apply String.eqb_neq in Hi.
  unfold verify_claim, resolved_text, attach, known_claim.
  rewrite Hi, Hc. split; [reflexivity|].
  now destruct (resolve_status _).
Qed.

Lemma verify_claim_known_id_witness :
  verify_claim wiki_env "one text" (Some "claim_1") sample_store
  = verify_claim wiki_env "another" (Some "claim_1") sample_store.
Proof.
  destruct (verify_claim_known_id wiki_env "one text" "another" "claim_1"
              sample_store stored_claim) as [H _];
    [reflexivity|discriminate|exact H].
Defined.

(** X14. With no id, the empty string as id, or an id the store does not
    hold, [verify_claim] works on the text argument and leaves the store
    exactly as it was, also when the store has an entry under the empty
    string. *)
Theorem verify_claim_unresolved_id
    (E : env) (claim_text : string) (claim_id : option string)
    (db : claims_db) :
  unresolved_id claim_id db ->
  verify_claim E claim_text claim_id db
  = (fst (verify_claim E claim_text None db), db).
Proof.
  intros Hid.
  assert (Hk : known_claim claim_id db = None).
  { destruct Hid as [->|[->|(i & -> & Hi)]]; try reflexivity.
    unfold known_claim. rewrite Hi. now destruct (String.eqb i EmptyString). }
  unfold verify_claim, resolved_text, attach. rewrite Hk. simpl.
  now destruct (resolve_status _).
Qed.

Lemma verify_claim_unresolved_id_witness :
  verify_claim wiki_env paris_claim (Some "") (<["" := stored_claim]> ∅)
  = (fst (verify_claim wiki_env paris_claim None (<["" := stored_claim]> ∅)),
     <["" := stored_claim]> ∅).
Proof.
  apply (verify_claim_unresolved_id wiki_env paris_claim (Some "")
           (<["" := stored_claim]> ∅)).
  right. now left.
Defined.

(** ** [verify_claim]: the regex fallback *)

Section RegexFallback.
Import PyStr Patterns PyVal.
Local Open Scope Q_scope.

Lemma digits_value_nonneg (s : string) (acc : Z) :
  all_digits s = true -> (0 <= acc)%Z -> (0 <= digits_value acc s)%Z.
Proof.
  revert acc. induction s as [|c s IH]; intros acc Hd Hacc; simpl; [exact Hacc|].
  simpl in Hd. apply andb_true_iff in Hd as [Hc Hs].
  apply IH; [exact Hs|].
  unfold isdecimal, in_range in Hc. apply andb_true_iff in Hc as [Hlo _].
  apply Nat.leb_le in Hlo. unfold digit_value. lia.
Qed.

(** [float] of a captured group is never negative. *)
Lemma decimal_of_string_nonneg (s : string) (q : Q) :
  decimal_of_string s = Some q -> 0 <= q.
Proof.
  unfold decimal_of_string.
  destruct (split_where _ s) as [|i [|f [|x l]]]; try discriminate.
  - destruct (all_digits i && _) eqn:H; [|discriminate].
    apply andb_true_iff in H as [Hi _].
    intros Hq. inversion Hq. subst q.
    replace 0 with (inject_Z 0) by reflexivity. rewrite <- Zle_Qle.
    now apply digits_value_nonneg.
  - destruct (all_digits i && all_digits f && _) eqn:H; [|discriminate].
    apply andb_true_iff in H as [H _]. apply andb_true_iff in H as [Hi Hf].
    intros Hq. inversion Hq. subst q. unfold Qle. simpl. rewrite Z.mul_1_r.
    apply digits_value_nonneg; [exact Hf|].
    now apply digits_value_nonneg.
Qed.

(** [float] of a captured group is never negative: a number that is not
    negative, or the infinity when the digits are out of range. *)
Lemma float_of_string_nonneg (s : string) (f : pyval) :
  float_of_string s = Some f -> nonneg_float f.
Proof.
  unfold float_of_string.
  destruct (decimal_of_string s) as [q|] eqn:Hq; [|discriminate].
  apply decimal_of_string_nonneg in Hq.
  destruct (PyFloat.overflows q); intros H; inversion H; [now right|].
  left. eexists. split; [reflexivity|].
  apply shortest_nonneg, fl_nonneg, Hq.
Qed.

(** The comparisons of the status resolution, made on the decimal that
    [float] returns, are the comparisons of the doubles. *)
Lemma float_of_string_compare (s : string) (d q : Q) :
  decimal_of_string s = Some d ->
  float_of_string s = Some (PNum q) ->
  gt (PNum q) 0.8 = Ok (Qlt_bool (PyFloat.fl 0.8) (PyFloat.fl d))
  /\ lt (PNum q) 0.2 = Ok (Qlt_bool (PyFloat.fl d) (PyFloat.fl 0.2)).
Proof.
  intros Hd. pose proof (decimal_of_string_nonneg s d Hd) as Hd0.
  unfold float_of_string. rewrite Hd.
  destruct (PyFloat.overflows d); intros H; inversion H. subst q. clear H.
  assert (H8 : PyFloat.shortest (PyFloat.fl 0.8) == 0.8)
    by (apply Qeq_bool_eq; vm_compute; reflexivity).
  assert (H2 : PyFloat.shortest (PyFloat.fl 0.2) == 0.2)
    by (apply Qeq_bool_eq; vm_compute; reflexivity).
  destruct (shortest_compare d 0.8 Hd0 ltac:(discriminate) H8) as [Hgt _].
  destruct (shortest_compare d 0.2 Hd0 ltac:(discriminate) H2) as [_ Hlt].
  simpl. split; f_equal; apply eq_true_iff_eq;
    rewrite !Qlt_bool_iff; assumption.
Qed.

Lemma findall_quoted_aux_items (fuel : nat) (s : string) :
  Forall (fun g => g <> EmptyString /\ quote_free g = true)
         (findall_quoted_aux fuel s).
Proof.
  revert s. induction fuel as [|fuel IH]; intros s; simpl; [constructor|].
  destruct (match_quoted s) as [[g rest]|] eqn:Hm.
  - apply match_quoted_spec in Hm as (_ & Hall & Hne).
    constructor; [now split|apply IH].
  - destruct s; [constructor|apply IH].
Qed.

(** A quoted group somewhere in the text: [findall] returns something. *)
Lemma findall_quoted_aux_found (fuel : nat) (pre g rest : string) :
  (String.length (pre ++ String dquote (g ++ String dquote rest)) < fuel)%nat ->
  all_chars not_dquote g = true -> g <> EmptyString ->
  findall_quoted_aux fuel (pre ++ String dquote (g ++ String dquote rest)) <> [].
Proof.
  revert fuel. induction pre as [|c pre IH]; intros fuel Hfuel Hall Hne.
  - rewrite str_app_nil_l in *. destruct fuel as [|fuel]; [lia|].
    cbn [findall_quoted_aux].
    assert (Hm : match_quoted (String dquote (g ++ String dquote rest))
                 = Some (g, rest)) by now apply match_quoted_spec.
    rewrite Hm. discriminate.
  - rewrite str_app_cons in *. destruct fuel as [|fuel]; [simpl in Hfuel; lia|].
    cbn [findall_quoted_aux].
    destruct (match_quoted _) as [[g' rest']|]; [discriminate|].
    apply IH; [simpl in Hfuel; lia|exact Hall|exact Hne].
Qed.

Lemma search_status_found (s g : string) :
  search_status s = Some g ->
  g <> EmptyString /\ quote_free g = true /\ findall_quoted s <> [].
Proof.
  intros H. apply first_from_spec in H as (pre & t & -> & Ht & _).
  apply status_here_spec in Ht as (ws & rest & -> & _ & Hall & Hne).
  split; [exact Hne|]. split; [exact Hall|].
  unfold findall_quoted, status_key.
  rewrite str_app_cons.
  change (String dquote ("status" ++ String dquote ":"))
    with (String dquote ("status" ++ String dquote ":"))%string.
  replace (pre ++ String dquote ("status" ++ String dquote ":")
               ++ ws ++ String dquote (g ++ String dquote rest))%string
    with (pre ++ String dquote
                   ("status" ++ String dquote
                      (":" ++ ws ++ String dquote (g ++ String dquote rest))))%string.
  - apply findall_quoted_aux_found; [lia|reflexivity|discriminate].
  - f_equal.
Qed.

End RegexFallback.

Section FallbackShape.
Import PyStr Patterns PyVal.
Local Open Scope Q_scope.
Variable E : env.

Lemma well_formed_initial (text : string) :
  well_formed (initial_verification E text).
Proof.
  split; [now eexists|]. split; [left; exists 0.5; now split|].
  exists []. split; [reflexivity|simpl; lia].
Qed.

Lemma oracle_regex_evidence_shape (t : string) (v : Verification.t) :
  well_formed v ->
  let v' := oracle_regex_evidence t v in
  well_formed v' /\ Verification.verification_method v' = "gemini_regex"%string.
Proof.
  intros (Hs & Hq & He). unfold oracle_regex_evidence.
  destruct (findall_quoted t) as [|g gs]; simpl; [now repeat split|].
  split; [|reflexivity]. split; [exact Hs|]. split; [exact Hq|].
  eexists. split; [reflexivity|].
  cbn [length]. rewrite length_map.
  pose proof (firstn_le_length 2 gs). lia.
Qed.

(** The fallback writes a string, a number that is not negative and a
    short list, and tags the result unless [float] refused the group. *)
Lemma oracle_regex_shape (reply : string) (v : Verification.t) :
  well_formed v ->
  let v' := oracle_regex (strip reply) v in
  well_formed v'
  /\ (Verification.verification_method v' = "gemini_regex"%string
      \/ (Verification.verification_method v'
          = Verification.verification_method v
          /\ bad_confidence_group reply)).
Proof.
  intros Hv. unfold oracle_regex.
  set (v1 := match search_status (strip reply) with
             | Some s => Verification.set_status (PStr s) v
             | None => v
             end).
  assert (H1 : well_formed v1
               /\ Verification.verification_method v1
                  = Verification.verification_method v).
  { subst v1. destruct (search_status _); [|now split].
    destruct Hv as (_ & Hq & He). split; [|reflexivity].
    split; [now eexists|]. now split. }
  destruct H1 as [H1 Hm1].
  destruct (search_confidence (strip reply)) as [g|] eqn:Hg.
  - destruct (float_of_string g) as [f|] eqn:Hf.
    + pose proof (float_of_string_nonneg g f Hf) as Hq.
      destruct (oracle_regex_evidence_shape (strip reply)
                  (Verification.set_confidence_score f v1)) as [H Hm].
      { destruct H1 as (Hs & _ & He). split; [exact Hs|].
        split; [exact Hq|exact He]. }
      split; [exact H|now left].
    + split; [exact H1|]. right. split; [exact Hm1|]. now exists g.
  - destruct (oracle_regex_evidence_shape (strip reply) v1 H1) as [H Hm].
    split; [exact H|now left].
Qed.

Lemma wikipedia_stage_well_formed (text : string) (v : Verification.t) :
  well_formed v -> well_formed (wikipedia_stage E text v).
Proof.
  intros Hv.
  pose proof (wikipedia_stage_frame E text v) as (_ & Hst & _).
  simpl in Hst.
  destruct (truthy (Verification.evidence v)) eqn:Ht.
  { now rewrite wikipedia_stage_skipped. }
  destruct Hv as (Hs & Hq & items & He & Hlen).
  assert (Hnil : Verification.evidence v = PList []).
  { rewrite He in Ht |- *. destruct items; [reflexivity|discriminate]. }
  split; [now rewrite Hst|].
  destruct (wikipedia_stage_cases E text v Hnil)
    as [[He' Hq']|(summary & q & He' & Hq' & Hlo & _)].
  - split; [now rewrite Hq'|]. exists []. split; [exact He'|simpl; lia].
  - split; [left; exists q; split; [exact Hq'|lra]|].
    eexists. split; [exact He'|simpl; lia].
Qed.

Lemma demo_stage_well_formed (text : string) (v : Verification.t) :
  well_formed v -> well_formed (verification_demo_stage text v).
Proof.
  intros Hv. unfold verification_demo_stage. destruct (_ && _); [|exact Hv].
  split; [now eexists|]. split; [left; exists 0.95; now split|].
  eexists. split; [reflexivity|simpl; lia].
Qed.

(** With the infinity as confidence, the first comparison holds and
    nothing raises. *)
Lemma resolve_status_infinite (v : Verification.t) :
  Verification.confidence_score v = PInf false ->
  exists v', resolve_status v = Ok v'
             /\ Verification.confidence_score v' = PInf false
             /\ Verification.evidence v' = Verification.evidence v.
Proof.
  intros Hq. unfold resolve_status. rewrite Hq. simpl.
  destruct (_ && _); [|now exists v].
  eexists. split; [reflexivity|]. now simpl.
Qed.

(** A well-formed verification is resolved without an exception, and
    stays well formed. *)
Lemma resolve_status_well_formed (v : Verification.t) :
  well_formed v ->
  exists v', resolve_status v = Ok v' /\ well_formed v'
             /\ Verification.verification_method v'
                = Verification.verification_method v.
Proof.
  intros (Hs & Hq & He).
  assert (H : exists v', resolve_status v = Ok v'
                /\ Verification.confidence_score v'
                   = Verification.confidence_score v
                /\ Verification.evidence v' = Verification.evidence v).
  { destruct Hq as [(q & Hq & _)|Hq].
    - destruct (resolve_status_number v q Hq) as (v' & Hres & Hq' & He' & _).
      exists v'. rewrite Hq. now repeat split.
    - destruct (resolve_status_infinite v Hq) as (v' & Hres & Hq' & He').
      exists v'. rewrite Hq. now repeat split. }
  destruct H as (v' & Hres & Hq' & He').
  exists v'. split; [exact Hres|].
  apply resolve_status_frame in Hres as Hfr.
  split.
  - split; [|split; [now rewrite Hq'|now rewrite He']].
    destruct Hfr as [->|[s ->]]; [exact Hs|now eexists].
  - destruct Hfr as [->|[s ->]]; reflexivity.
Qed.

End FallbackShape.

(** X15. When the oracle's answer is no JSON document, so that the regex
    fallback runs, [verify_claim] always returns: the confidence it stores
    is a float that is not negative (a number, or the infinity when the
    captured digits are out of the range of the doubles), so the
    comparisons of the status resolution cannot fail. The returned status
    is a string, the evidence a list of at most three items, and the
    method tag is gemini_regex, or demo_hardcoded, or still
    pattern_matching when [float] refused the captured confidence. *)
Theorem verify_claim_regex_fallback
    (E : env) (claim_text reply : string) (claim_id : option string)
    (db : claims_db) :
  undecodable E (resolved_text claim_text claim_id db) reply ->
  exists v : Verification.t,
    fst (verify_claim E claim_text claim_id db) = Ok v
    /\ well_formed v
    /\ (Verification.verification_method v = "gemini_regex"
        \/ Verification.verification_method v = "demo_hardcoded"
        \/ (Verification.verification_method v = "pattern_matching"
            /\ bad_confidence_group reply)).
Proof.
  intros (Hkey & Hreply & Hjson). unfold verify_claim, verification_stages.
  set (text := resolved_text claim_text claim_id db) in *.
  unfold verification_oracle_stage. rewrite Hkey, Hreply, Hjson.
  destruct (oracle_regex_shape reply (initial_verification E text)
              (well_formed_initial E text)) as [H1 Hm1].
  set (v1 := oracle_regex (PyStr.strip reply) (initial_verification E text))
    in *.
  pose proof (wikipedia_stage_well_formed E text v1 H1) as H2.
  pose proof (wikipedia_stage_frame E text v1) as (_ & _ & Hm2 & _).
  set (v2 := wikipedia_stage E text v1) in *. simpl in Hm2.
  pose proof (demo_stage_well_formed text v2 H2) as H3.
  destruct (resolve_status_well_formed _ H3) as (v & Hres & Hv & Hm).
  rewrite Hres. exists v. split; [reflexivity|]. split; [exact Hv|].
  rewrite Hm. unfold verification_demo_stage.
  destruct (_ && _); simpl; [right; now left|].
  rewrite Hm2. destruct Hm1 as [->|[-> Hbad]]; [now left|right; right].
  now split.
Qed.

Lemma verify_claim_regex_fallback_witness :
  exists v : Verification.t,
    fst (verify_claim (oracle_env unclamped_reply JSONDecodeError)
                      "The sky is green" None ∅) = Ok v
    /\ well_formed v
    /\ (Verification.verification_method v = "gemini_regex"
        \/ Verification.verification_method v = "demo_hardcoded"
        \/ (Verification.verification_method v = "pattern_matching"
            /\ bad_confidence_group unclamped_reply)).
Proof.
  apply (verify_claim_regex_fallback
           (oracle_env unclamped_reply JSONDecodeError)
           "The sky is green" unclamped_reply None ∅).
  repeat split.
Defined.

(** X16. On the regex fallback, when the status pattern matches (and
    [float] accepts the confidence group if there is one), the evidence
    holds the first quoted strings of the answer, at most three. The
    status key is itself a quoted string, so the evidence is never empty,
    and the lookup stage is skipped. *)
Theorem regex_fallback_skips_lookup
    (E : env) (text reply status : string) :
  undecodable E text reply ->
  Patterns.search_status (PyStr.strip reply) = Some status ->
  ~ bad_confidence_group reply ->
  let v := verification_oracle_stage E text (initial_verification E text) in
  Verification.status v = PStr status
  /\ Verification.evidence v
     = PList (map PStr (firstn 3 (Patterns.findall_quoted (PyStr.strip reply))))
  /\ PyVal.truthy (Verification.evidence v) = true
  /\ wikipedia_stage E text v = v.
Proof.
  intros (Hkey & Hreply & Hjson) Hstatus Hgood v.
  destruct (search_status_found _ _ Hstatus) as (_ & _ & Hfound).
  assert (Hv : Verification.status v = PStr status
               /\ Verification.evidence v
                  = PList (map PStr (firstn 3 (Patterns.findall_quoted
                                                 (PyStr.strip reply))))).
  { subst v. unfold verification_oracle_stage.
    rewrite Hkey, Hreply, Hjson. unfold oracle_regex. rewrite Hstatus.
    destruct (Patterns.search_confidence _) as [g|] eqn:Hg.
    - destruct (PyVal.float_of_string g) as [q|] eqn:Hf;
        [|destruct Hgood; now exists g].
      unfold oracle_regex_evidence.
      destruct (Patterns.findall_quoted _); [congruence|now split].
    - unfold oracle_regex_evidence.
      destruct (Patterns.findall_quoted _); [congruence|now split]. }
  destruct Hv as [Hs He].
  assert (Ht : PyVal.truthy (Verification.evidence v) = true).
  { rewrite He. destruct (Patterns.findall_quoted _); [congruence|reflexivity]. }
  split; [exact Hs|]. split; [exact He|]. split; [exact Ht|].
  now apply wikipedia_stage_skipped.
Qed.

Lemma regex_fallback_skips_lookup_witness :
  Verification.evidence
    (verification_oracle_stage (oracle_env status_reply JSONDecodeError)
       "The sky is green"
       (initial_verification (oracle_env status_reply JSONDecodeError)
          "The sky is green"))
  = PList [PStr "status"; PStr "False"].
Proof.
  destruct (regex_fallback_skips_lookup
              (oracle_env status_reply JSONDecodeError)
              "The sky is green" status_reply "False")
    as (_ & H & _).
  - repeat split.
  - reflexivity.
  - intros (g & Hg & _). discriminate Hg.
  - exact H.
Defined.

(** ** [calculate_source_credibility]: order, symmetry, sign *)

Section CredibilityFacts.
Local Open Scope Q_scope.

Lemma count_where_Permutation {A : Type} (p : A -> bool) (l l' : list A) :
  Permutation l l' -> count_where p l = count_where p l'.
Proof.
  induction 1 as [|x l l' _ IH|x y l|l l' l'' _ IH1 _ IH2]; simpl.
  - reflexivity.
  - now rewrite IH.
  - destruct (p x), (p y); reflexivity.
  - congruence.
Qed.







(** The term (T - F) / (2N) has the sign of T - F. *)
Lemma share_sign (d n : Z) :
  (0 < n)%Z ->
  (0 < inject_Z d / inject_Z (2 * n) <-> (0 < d)%Z)
  /\ (inject_Z d / inject_Z (2 * n) < 0 <-> (d < 0)%Z).
Proof.
  intros Hn. destruct (2 * n)%Z as [|p|p] eqn:Hp; try lia.
  unfold Qdiv, Qinv, Qmult, Qlt, inject_Z. simpl. split; split; lia.
Qed.

End CredibilityFacts.

(** X17. The score of [calculate_source_credibility] does not depend on
    the order of the verified claims. *)
Theorem calculate_source_credibility_order
    (vcs vcs' : list VerifiedClaim.t) :
  Permutation vcs vcs' ->
  calculate_source_credibility vcs = calculate_source_credibility vcs'.
Proof.
  intros Hp. unfold calculate_source_credibility.
  rewrite (count_where_Permutation (has_status "True") _ _ Hp).
  rewrite (count_where_Permutation (has_status "False") _ _ Hp).
  rewrite (Permutation_length Hp).
  destruct vcs as [|a l], vcs' as [|a' l']; try reflexivity.
  now apply Permutation_nil in Hp.
Qed.

Lemma calculate_source_credibility_order_witness :
  calculate_source_credibility
    [verified_as "True"; verified_as "False"; verified_as "Unverified"]
  = calculate_source_credibility
      [verified_as "False"; verified_as "Unverified"; verified_as "True"].
Proof.
  apply (calculate_source_credibility_order
           [verified_as "True"; verified_as "False"; verified_as "Unverified"]
           [verified_as "False"; verified_as "Unverified"; verified_as "True"]).
  apply (Permutation_cons_app [_; _] []). apply Permutation_refl.
Defined.


(** X19. The score of [calculate_source_credibility] lies above 0.5
    exactly when more verified claims have status True than False, and
    below 0.5 exactly when fewer do; claims with any other status never
    move it across 0.5. *)
Theorem calculate_source_credibility_sign (vcs : list VerifiedClaim.t) :
  ((0.5 < calculate_source_credibility vcs)%Q
   <-> (false_count vcs < true_count vcs)%Z)
  /\ ((calculate_source_credibility vcs < 0.5)%Q
      <-> (true_count vcs < false_count vcs)%Z).
Proof.
  destruct vcs as [|vc vcs].
  { unfold true_count, false_count. simpl. split; split;
      solve [lia | intros H; now apply Qlt_irrefl in H]. }
  rewrite (credibility_nonempty (vc :: vcs)) by discriminate.
  unfold raw_score.
  set (T := true_count (vc :: vcs)). set (F := false_count (vc :: vcs)).
  assert (Hn : (0 < total_count (vc :: vcs))%Z)
    by (unfold total_count; simpl length; lia).
  destruct (share_sign (T - F) _ Hn) as [Hpos Hneg].
  set (x := (inject_Z (T - F) / inject_Z (2 * total_count (vc :: vcs)))%Q) in *.
  assert (Hhi : (0.5 < Qmax 0.01 (Qmin 0.99 (0.5 + x)) <-> 0 < x)%Q).
  { destruct (Q.min_spec 0.99 (0.5 + x)) as [[H1 ->]|[H1 ->]];
      match goal with
      | |- context [Qmax ?a ?b] =>
          destruct (Q.max_spec a b) as [[? ->]|[? ->]]
      end; split; intros; lra. }
  assert (Hlo : (Qmax 0.01 (Qmin 0.99 (0.5 + x)) < 0.5 <-> x < 0)%Q).
  { destruct (Q.min_spec 0.99 (0.5 + x)) as [[H1 ->]|[H1 ->]];
      match goal with
      | |- context [Qmax ?a ?b] =>
          destruct (Q.max_spec a b) as [[? ->]|[? ->]]
      end; split; intros; lra. }
  rewrite Hhi, Hlo, Hpos, Hneg. split; split; lia.
Qed.

(** ** [analyze_source]: the loop and the report *)

Section AnalysisLoop.
Variable E : env.

Lemma verify_claim_text (claim_text : string) (claim_id : option string)
    (db : claims_db) (v : Verification.t) :
  fst (verify_claim E claim_text claim_id db) = Ok v ->
  Verification.claim v = resolved_text claim_text claim_id db.
Proof.
  unfold verify_claim.
  set (text := resolved_text claim_text claim_id db).
  destruct (resolve_status _) as [v'|e] eqn:Hres; [|discriminate].
  simpl. intros Hv. inversion Hv; subst v'. clear Hv.
  assert (Hc : Verification.claim (verification_stages E text) = text).
  { unfold verification_stages.
    pose proof (oracle_stage_frame E text (initial_verification E text))
      as (Hc1 & _).
    pose proof (wikipedia_stage_frame E text
                  (verification_oracle_stage E text
                     (initial_verification E text))) as (Hc2 & _).
    simpl in Hc1, Hc2. unfold verification_demo_stage.
    destruct (_ && _); simpl; now rewrite Hc2, Hc1. }
  apply resolve_status_frame in Hres as [->|[s ->]]; exact Hc.
Qed.

(** The oracle stage left a well-formed verification: the call returns. *)
Lemma verify_claim_returns (claim_text : string) (claim_id : option string)
    (db : claims_db) :
  well_formed
    (verification_oracle_stage E (resolved_text claim_text claim_id db)
       (initial_verification E (resolved_text claim_text claim_id db))) ->
  exists v, fst (verify_claim E claim_text claim_id db) = Ok v.
Proof.
  intros H1. unfold verify_claim, verification_stages.
  set (text := resolved_text claim_text claim_id db) in *.
  pose proof (wikipedia_stage_well_formed E text _ H1) as H2.
  pose proof (demo_stage_well_formed text _ H2) as H3.
  destruct (resolve_status_well_formed _ H3) as (v & Hres & _).
  rewrite Hres. now exists v.
Qed.

Lemma verify_each_raises (claims : list Claim.t)
    (acc : list VerifiedClaim.t) (db db' : claims_db) (e : exn) :
  verify_each E claims acc db = (Raise e, db') -> e = TypeError.
Proof.
  revert acc db. induction claims as [|c claims IH]; intros acc db; simpl.
  - discriminate.
  - unfold bind.
    destruct (verify_claim_outcomes E (Claim.text c) (Some (Claim.id c)) db)
      as [[v Hv]|Hr].
    + destruct (verify_claim E (Claim.text c) (Some (Claim.id c)) db)
        as [r db1]. simpl in Hv. subst r. apply IH.
    + rewrite Hr. intros H. now inversion H.
Qed.

(** The loop of [analyze_source] over claims that the store holds under
    distinct ids: one entry per claim, in order, each attached to its claim
    in the store; every other key is left alone. *)
Lemma verify_each_reported (claims : list Claim.t)
    (acc res : list VerifiedClaim.t) (db db' : claims_db) :
  List.NoDup (map Claim.id claims) ->
  Forall (fun c => db !! Claim.id c = Some c /\ Claim.id c <> EmptyString)
         claims ->
  verify_each E claims acc db = (Ok res, db') ->
  exists vcs,
    res = acc ++ vcs
    /\ Forall2 (reported db') claims vcs
    /\ forall key, ~ In key (map Claim.id claims) -> db' !! key = db !! key.
Proof.
  revert acc db. induction claims as [|c claims IH]; intros acc db Hnd Hall.
  - simpl. unfold ret. intros H. inversion H; subst.
    exists []. rewrite app_nil_r. repeat split. constructor.
  - simpl. unfold bind.
    inversion Hnd as [|x l Hnotin Hnd']; subst.
    inversion Hall as [|x l [Hc Hid] Hall']; subst.
    destruct (verify_claim_store E (Claim.text c) (Claim.id c) db c Hc)
      as [Hok _].
    pose proof (verify_claim_text (Claim.text c) (Some (Claim.id c)) db)
      as Htext.
    destruct (verify_claim E (Claim.text c) (Some (Claim.id c)) db)
      as [[v|e] db1] eqn:Hvc; [|discriminate].
    simpl in Hok, Htext. specialize (Hok v eq_refl Hid).
    specialize (Htext v eq_refl). subst db1.
    assert (Hres : resolved_text (Claim.text c) (Some (Claim.id c)) db
                   = Claim.text c).
    { unfold resolved_text, known_claim. apply String.eqb_neq in Hid.
      now rewrite Hid, Hc. }
    rewrite Hres in Htext.
    intros Hloop.
    apply IH in Hloop as (vcs & -> & Hrep & Hother); [|exact Hnd'|].
    + eexists (_ :: vcs). split; [now rewrite <- app_assoc|].
      split.
      * constructor; [|exact Hrep].
        assert (Hm : db' !! Claim.id c = Some (Claim.set_verification v c))
          by (rewrite (Hother _ Hnotin); apply lookup_insert_eq).
        split; [reflexivity|]. split; [reflexivity|].
        split; [exact Htext|]. split; [exact Hm|].
        exists (Claim.set_verification v c). split; [exact Hm|].
        split; [apply same_claim_set_verification|reflexivity].
      * intros key Hkey. simpl in Hkey.
        rewrite Hother by tauto.
        apply lookup_insert_ne. intros Heq. apply Hkey. now left.
    + rewrite List.Forall_forall in Hall' |- *. intros c' Hin.
      destruct (Hall' c' Hin) as [Hc' Hid']. split; [|exact Hid'].
      rewrite lookup_insert_ne; [exact Hc'|].
      intros Heq. apply Hnotin. rewrite Heq. now apply in_map.
Qed.

(** What [extract_claims] returns is in the store under distinct ids that
    are not empty. *)
Lemma extract_claims_stored (text url : string) (db : claims_db) :
  let cs := fst (extract_claims E text url db) in
  let db' := snd (extract_claims E text url db) in
  List.NoDup (map Claim.id cs)
  /\ Forall (fun c => db' !! Claim.id c = Some c /\ Claim.id c <> EmptyString)
            cs.
Proof.
  intros cs db'. subst cs db'.
  pose proof (extract_claims_NoDup E url text db) as Hnd.
  split; [exact Hnd|].
  destruct (extract_claims_shape E url text db) as [Hids Hstore].
  rewrite Hstore. apply List.Forall_forall. intros c Hin. split.
  - now apply store_of_lookup_in.
  - apply (in_map Claim.id) in Hin. rewrite Hids in Hin.
    apply in_map_iff in Hin as (n & <- & _). apply claim_key_not_empty.
Qed.

Lemma ingest_url_fetched (url : string) :
  fetched E url ->
  exists title domain,
    PyVal.getitem (ingest_url E url) "content" = Ok (PStr (fetched_text E url))
    /\ PyVal.getitem (ingest_url E url) "title" = Ok title
    /\ PyVal.getitem (ingest_url E url) "source_domain" = Ok domain.
Proof.
  intros (title & paragraphs & published & Hf).
  unfold fetched_text, ingest_url. rewrite Hf.
  eexists. eexists. repeat split.
Qed.

End AnalysisLoop.

(** X20. A report returned by [analyze_source] counts what it lists:
    [claims_found] and [claims_verified] are both the number of claims
    that [extract_claims] returned for the fetched text, the entries follow
    those claims in order with their texts and confidences, each
    verification is about its claim's text, the credibility score is the
    one of the listed entries, and after the call the store holds every
    extracted claim with the reported verification attached. *)
Theorem analyze_source_report
    (E : env) (url : string) (db db' : claims_db) (a : Analysis.t) :
  analyze_source E url db = (Ok a, db') ->
  let claims := fst (extract_claims E (fetched_text E url) url db) in
  Analysis.claims_found a = length claims
  /\ Analysis.claims_verified a = length claims
  /\ Forall2 (reported db') claims (Analysis.verified_claims a)
  /\ Analysis.credibility_score a
     = calculate_source_credibility (Analysis.verified_claims a).
Proof.
  unfold analyze_source, bind, lift, total, ret.
  destruct (fetch E url) as [message|title paragraphs published] eqn:Hf.
  { rewrite (ingest_url_failed E url message Hf). discriminate. }
  destruct (ingest_url_fetched E url) as (t & d & Hc & Ht & Hd);
    [now exists title, paragraphs, published|].
  rewrite Hc, Ht, Hd. cbn [as_text].
  destruct (extract_claims_stored E (fetched_text E url) url db)
    as [Hnd Hall].
  destruct (extract_claims E (fetched_text E url) url db) as [claims db1].
  cbn [fst snd] in *.
  destruct (verify_each E claims [] db1) as [[vcs|e] db2] eqn:Hloop;
    [|discriminate].
  intros H. inversion H; subst. clear H. simpl.
  apply verify_each_reported in Hloop as (vcs' & -> & Hrep & _);
    [|exact Hnd|exact Hall].
  simpl. split; [reflexivity|]. split; [|split; [exact Hrep|reflexivity]].
  symmetry. eapply Forall2_length. exact Hrep.
Qed.

Lemma analyze_source_report_witness :
  exists (a : Analysis.t) (vc : VerifiedClaim.t) (c' : Claim.t),
    fst (analyze_source online_env "https://news.example.org/paris" ∅) = Ok a
    /\ Analysis.claims_found a = 1
    /\ Analysis.claims_verified a = 1
    /\ Analysis.verified_claims a = [vc]
    /\ snd (analyze_source online_env "https://news.example.org/paris" ∅)
         !! "claim_1" = Some c'
    /\ Claim.verification c' = Some (VerifiedClaim.verification vc)
    /\ Claim.text c' = "Paris was named the capital of France".
Proof.
  destruct (analyze_source online_env "https://news.example.org/paris" ∅)
    as [[a|e] db'] eqn:Hrun; [|vm_compute in Hrun; discriminate Hrun].
  destruct (analyze_source_report online_env
              "https://news.example.org/paris" ∅ db' a Hrun)
    as (H1 & H2 & H3 & _).
  set (claims := fst (extract_claims online_env
                        (fetched_text online_env
                           "https://news.example.org/paris")
                        "https://news.example.org/paris" ∅)) in *.
  assert (Hclaims : exists c, claims = [c] /\ Claim.id c = "claim_1"
                              /\ Claim.text c
                                 = "Paris was named the capital of France")
    by (vm_compute; eexists; repeat split).
  destruct Hclaims as (c & Hc & Hid & Htext). rewrite Hc in H1, H2, H3.
  inversion H3 as [|c0 vc cs vcs Hrep Hrest Heq1 Heq2]. subst.
  inversion Hrest. subst.
  destruct Hrep as (_ & _ & _ & _ & c' & Hc' & Hsame & Hattachment).
  exists a, vc, c'. split; [reflexivity|]. split; [exact H1|].
  split; [exact H2|]. split; [congruence|].
  rewrite Hid in Hc'. split; [exact Hc'|]. split; [exact Hattachment|].
  destruct Hsame as (_ & Ht & _). now rewrite Ht.
Defined.

Section AnalysisOutcomes.
Variable E : env.

Lemma oracle_stage_well_formed (text : string) :
  verifier_silent E text \/ (exists reply, undecodable E text reply) ->
  well_formed (verification_oracle_stage E text (initial_verification E text)).
Proof.
  intros [Hsilent|(reply & Hkey & Hreply & Hjson)].
  - rewrite verifier_silent_stage by exact Hsilent. apply well_formed_initial.
  - unfold verification_oracle_stage. rewrite Hkey, Hreply, Hjson.
    apply oracle_regex_shape, well_formed_initial.
Qed.

Lemma verify_each_returns (claims : list Claim.t)
    (acc : list VerifiedClaim.t) (db : claims_db) :
  no_parsed_answer E ->
  exists res, fst (verify_each E claims acc db) = Ok res.
Proof.
  intros Hno. revert acc db.
  induction claims as [|c claims IH]; intros acc db; simpl.
  - now exists acc.
  - unfold bind.
    destruct (verify_claim_returns E (Claim.text c) (Some (Claim.id c)) db)
      as [v Hv]; [apply oracle_stage_well_formed, Hno|].
    destruct (verify_claim E (Claim.text c) (Some (Claim.id c)) db)
      as [r db1]. simpl in Hv. subst r. apply IH.
Qed.

End AnalysisOutcomes.

(** X21. When the page is fetched and the oracle never hands over a parsed
    JSON document (it is not configured, fails, or answers with text that
    cannot be decoded), [analyze_source] returns a report: the one way to
    make it raise after a successful fetch is an answer that parses. *)
Theorem analyze_source_returns (E : env) (url : string) (db : claims_db) :
  fetched E url ->
  no_parsed_answer E ->
  exists a : Analysis.t, fst (analyze_source E url db) = Ok a.
Proof.
  intros Hf Hno. unfold analyze_source, bind, lift, total, ret.
  destruct (ingest_url_fetched E url Hf) as (t & d & Hc & Ht & Hd).
  rewrite Hc, Ht, Hd. cbn [as_text].
  destruct (extract_claims E (fetched_text E url) url db) as [claims db1].
  destruct (verify_each_returns E claims [] db1 Hno) as [res Hres].
  destruct (verify_each E claims [] db1) as [r db2]. simpl in Hres. subst r.
  eexists. reflexivity.
Qed.

Lemma analyze_source_returns_witness :
  exists a : Analysis.t,
    fst (analyze_source online_env "https://news.example.org/paris" ∅) = Ok a.
Proof.
  apply (analyze_source_returns online_env
           "https://news.example.org/paris" ∅).
  - now eexists _, _, _.
  - intros text. left. now left.
Defined.

(** X22. An exception that leaves [analyze_source] is the [KeyError] on
    [content], which needs a failed fetch, or a [TypeError], which needs a
    fetched page; the reads of [title] and [source_domain] never fail. *)
Theorem analyze_source_exceptions
    (E : env) (url : string) (db : claims_db) (e : exn) :
  fst (analyze_source E url db) = Raise e ->
  (e = KeyError "content" /\ ~ fetched E url)
  \/ (e = TypeError /\ fetched E url).
Proof.
  unfold analyze_source, bind, lift, total, ret.
  destruct (fetch E url) as [message|title paragraphs published] eqn:Hf.
  - rewrite (ingest_url_failed E url message Hf). simpl.
    intros H. inversion H. left. split; [reflexivity|].
    intros (t & ps & p & Hf'). congruence.
  - assert (Hfetched : fetched E url) by now exists title, paragraphs, published.
    destruct (ingest_url_fetched E url Hfetched) as (t & d & Hc & Ht & Hd).
    rewrite Hc, Ht, Hd. cbn [as_text].
    destruct (extract_claims E (fetched_text E url) url db) as [claims db1].
    destruct (verify_each E claims [] db1) as [[res|e'] db2] eqn:Hloop;
      [discriminate|].
    apply verify_each_raises in Hloop. subst e'. simpl.
    intros H. inversion H. right. now split.
Qed.

Lemma analyze_source_exceptions_witness :
  (KeyError "content" = KeyError "content"
   /\ ~ fetched offline_env "https://news.example.org/paris")
  \/ (KeyError "content" = TypeError
      /\ fetched offline_env "https://news.example.org/paris").
Proof.
  apply (analyze_source_exceptions offline_env
           "https://news.example.org/paris" ∅ (KeyError "content")).
  reflexivity.
Defined.

(** ** [ingest_url]: the domain and the shape of the dict *)

Section Domain.
Import PyStr.

Lemma all_chars_ext (p q : ascii -> bool) (s : string) :
  (forall c, p c = q c) -> all_chars p s = all_chars q s.
Proof.
  intros H. induction s as [|c s IH]; simpl; [reflexivity|].
  now rewrite H, IH.
Qed.

Lemma take_length (n : nat) (s : string) :
  (String.length (take n s) <= n)%nat.
Proof.
  revert s. induction n as [|n IH]; intros s; simpl; [lia|].
  destruct s as [|c s]; simpl; [lia|]. specialize (IH s). lia.
Qed.

Lemma split_where_not_nil (sep : ascii -> bool) (s : string) :
  split_where sep s <> [].
Proof.
  destruct s as [|c s]; simpl; [discriminate|].
  destruct (sep c); [discriminate|].
  destruct (split_where sep s); discriminate.
Qed.

(** The first piece, when the string starts with a run of characters that
    are no separators and then ends or meets a separator. *)
Lemma split_where_head (sep : ascii -> bool) (host rest : string) :
  all_chars (fun c => negb (sep c)) host = true ->
  stops (fun c => negb (sep c)) rest ->
  hd EmptyString (split_where sep (host ++ rest)) = host.
Proof.
  intros Hhost Hrest. induction host as [|c host IH].
  - rewrite str_app_nil_l. destruct rest as [|r rest]; [reflexivity|].
    simpl in Hrest |- *. apply negb_false_iff in Hrest. now rewrite Hrest.
  - simpl in Hhost. apply andb_true_iff in Hhost as [Hc Hhost].
    rewrite str_app_cons. cbn [split_where].
    apply negb_true_iff in Hc. rewrite Hc.
    specialize (IH Hhost).
    pose proof (split_where_not_nil sep (host ++ rest)) as Hne.
    destruct (split_where sep (host ++ rest)) as [|h t]; [congruence|].
    simpl in IH |- *. now rewrite IH.
Qed.

Lemma split_str_aux_not_nil (fuel : nat) (sep s : string) :
  split_str_aux fuel sep s <> [].
Proof.
  destruct fuel as [|fuel]; simpl; [discriminate|].
  destruct s as [|c s]; [discriminate|].
  destruct (startswith sep (String c s)); [discriminate|].
  destruct (split_str_aux fuel sep s); discriminate.
Qed.

(** Nothing to split at. *)
Lemma split_str_aux_whole (fuel : nat) (sep s : string) :
  sep <> EmptyString ->
  contains sep s = false -> split_str_aux fuel sep s = [s].
Proof.
  intros Hsep. revert s. induction fuel as [|fuel IH]; intros s Hs; simpl;
    [reflexivity|].
  destruct s as [|c s]; [reflexivity|].
  cbn [contains] in Hs. apply orb_false_iff in Hs as [Hstart Hrest].
  rewrite Hstart. now rewrite (IH s Hrest).
Qed.

Lemma last_cons_not_nil {A : Type} (x d : A) (l : list A) :
  l <> [] -> List.last (x :: l) d = List.last l d.
Proof. destruct l; [congruence|reflexivity]. Qed.

Lemma last_head_grown (c : ascii) (l : list string) :
  l <> [] ->
  List.last match l with
            | h :: t => String c h :: t
            | [] => [String c EmptyString]
            end EmptyString
  = match l with
    | [_] => String c (List.last l EmptyString)
    | _ => List.last l EmptyString
    end.
Proof.
  destruct l as [|h [|h' t]]; [congruence|reflexivity|reflexivity].
Qed.

(** The piece after a separator whose left side holds no slash and whose
    right side holds no separator. *)
Lemma split_str_last (fuel : nat) (scheme t : string) :
  all_chars not_slash scheme = true ->
  contains "//" t = false ->
  (String.length (scheme ++ "//" ++ t) <= fuel)%nat ->
  List.last (split_str_aux fuel "//" (scheme ++ "//" ++ t)) EmptyString = t.
Proof.
  intros Hscheme Ht. revert fuel.
  induction scheme as [|c scheme IH]; intros fuel Hfuel.
  - rewrite str_app_nil_l in Hfuel |- *.
    destruct fuel as [|fuel]; [simpl in Hfuel; lia|].
    change ("//" ++ t)%string with (String "/" (String "/" t)).
    cbn [split_str_aux]. replace (startswith "//" (String "/" (String "/" t)))
      with true by reflexivity.
    cbn [drop String.length].
    rewrite last_cons_not_nil by apply split_str_aux_not_nil.
    now rewrite split_str_aux_whole.
  - simpl in Hscheme. apply andb_true_iff in Hscheme as [Hc Hscheme].
    rewrite str_app_cons in Hfuel |- *.
    destruct fuel as [|fuel]; [simpl in Hfuel; lia|].
    cbn [split_str_aux].
    assert (Hstart : startswith "//" (String c (scheme ++ "//" ++ t)) = false).
    { cbn [startswith]. unfold not_slash in Hc. apply negb_true_iff in Hc.
      rewrite Ascii.eqb_sym in Hc. now rewrite Hc. }
    rewrite Hstart.
    specialize (IH Hscheme fuel ltac:(simpl in Hfuel; lia)).
    pose proof (split_str_aux_not_nil fuel "//" (scheme ++ "//" ++ t)) as Hne.
    destruct (split_str_aux fuel "//" (scheme ++ "//" ++ t))
      as [|h [|h' l]] eqn:Hsplit; [congruence| |exact IH].
    exfalso. clear IH.
    assert (Hlen : forall f s, (String.length s <= f)%nat ->
              contains "//" s = true ->
              (2 <= length (split_str_aux f "//" s))%nat).
    { clear. induction f as [|f IHf]; intros s Hf Hs.
      - destruct s; [discriminate|simpl in Hf; lia].
      - destruct s as [|a s]; [discriminate|]. cbn [split_str_aux].
        cbn [contains] in Hs.
        destruct (startswith "//" (String a s)) eqn:Hst.
        + pose proof (split_str_aux_not_nil f "//"
                        (drop (String.length "//") (String a s))).
          destruct (split_str_aux f "//" _); [congruence|simpl; lia].
        + simpl in Hs. specialize (IHf s ltac:(simpl in Hf; lia) Hs).
          destruct (split_str_aux f "//" s) as [|x [|y l]]; simpl in *; lia. }
    assert (Hc2 : contains "//" (scheme ++ "//" ++ t) = true).
    { clear. induction scheme as [|a scheme IH].
      - rewrite str_app_nil_l. reflexivity.
      - rewrite str_app_cons. cbn [contains]. rewrite IH. apply orb_true_r. }
    assert (Hf : (String.length (scheme ++ "//" ++ t) <= fuel)%nat)
      by (simpl in Hfuel; lia).
    specialize (Hlen fuel _ Hf Hc2).
    rewrite Hsplit in Hlen. simpl in Hlen. lia.
Qed.

Lemma contains_after_host (host rest : string) :
  all_chars not_slash host = true ->
  contains "//" rest = false ->
  contains "//" (host ++ rest) = false.
Proof.
  intros Hhost Hrest. induction host as [|c host IH].
  - now rewrite str_app_nil_l.
  - simpl in Hhost. apply andb_true_iff in Hhost as [Hc Hhost].
    rewrite str_app_cons. cbn [contains startswith].
    unfold not_slash in Hc. apply negb_true_iff in Hc.
    rewrite Ascii.eqb_sym in Hc. rewrite Hc. simpl. now apply IH.
Qed.

End Domain.

(** X23. The domain that [ingest_url] derives from a URL never contains a
    slash, whatever the URL. *)
Theorem source_domain_of_no_slash (url : string) :
  all_chars not_slash (source_domain_of url) = true.
Proof.
  unfold source_domain_of.
  set (tail := List.last _ _).
  pose proof (split_where_pieces (Ascii.eqb "/"%char) tail) as Hall.
  pose proof (split_where_not_nil (Ascii.eqb "/"%char) tail) as Hne.
  destruct (PyStr.split_where _ tail) as [|h t]; [congruence|].
  inversion Hall as [|x l Hh _]; subst. simpl.
  erewrite all_chars_ext; [exact Hh|].
  intros c. unfold not_slash. cbv beta. now rewrite (Ascii.eqb_sym c).
Qed.

(** X24. For a URL made of a scheme without a slash, two slashes, a host
    without a slash and then nothing or a path that starts with a slash
    and holds no two slashes in a row, the derived domain is the host. *)
Theorem source_domain_of_url (scheme host rest : string) :
  all_chars not_slash scheme = true ->
  all_chars not_slash host = true ->
  stops not_slash rest ->
  PyStr.contains "//" rest = false ->
  source_domain_of (scheme ++ "//" ++ host ++ rest) = host.
Proof.
  intros Hscheme Hhost Hstop Hrest. unfold source_domain_of, PyStr.split_str.
  rewrite split_str_last;
    [|exact Hscheme|now apply contains_after_host|lia].
  apply split_where_head.
  - erewrite all_chars_ext; [exact Hhost|].
    intros c. unfold not_slash. cbv beta. now rewrite (Ascii.eqb_sym c).
  - destruct rest as [|r rest]; [exact I|]. cbn [stops] in Hstop |- *.
    unfold not_slash in Hstop. rewrite (Ascii.eqb_sym "/" r). exact Hstop.
Qed.

Lemma source_domain_of_url_witness :
  source_domain_of "https://news.example.org/world/paris?page=2"
  = "news.example.org".
Proof.
  apply (source_domain_of_url "https:" "news.example.org"
           "/world/paris?page=2"); reflexivity.
Defined.

(** X25. The dict of [ingest_url] always holds the URL it was given; it
    holds a [content] exactly when it holds no [error], and the content is
    a string of at most 5000 characters. *)
Theorem ingest_url_shape (E : env) (url : string) :
  PyVal.assoc (ingest_url E url) "url" = Some (PStr url)
  /\ has_key (ingest_url E url) "content"
     = negb (has_key (ingest_url E url) "error")
  /\ (String.length (fetched_text E url) <= 5000)%nat
  /\ (has_key (ingest_url E url) "content" = true ->
      PyVal.assoc (ingest_url E url) "content"
      = Some (PStr (fetched_text E url))).
Proof.
  unfold fetched_text, has_key, ingest_url.
  destruct (fetch E url) as [message|title paragraphs published].
  - simpl. repeat split; [lia|discriminate].
  - set (content := PyStr.take 5000 _).
    assert (Hlen : (String.length content <= 5000)%nat) by apply take_length.
    clearbody content. simpl. now repeat split.
Qed.

(** ** [search_news], [get_trending_misinfo], [setup_monitor] *)

Section Slices.

Lemma py_range_from_1 (b : Z) :
  py_range 1 b = first_numbers (Z.to_nat (b - 1)).
Proof.
  unfold py_range, first_numbers. rewrite <- seq_shift, map_map.
  apply map_ext. intros k. lia.
Qed.

Lemma demo_range_numbers (limit : Z) :
  demo_range limit = first_numbers (Z.to_nat (Z.min limit 5)).
Proof.
  unfold demo_range. rewrite py_range_from_1. f_equal. lia.
Qed.

Lemma slice_to_length {A : Type} (n : Z) (l : list A) :
  (length (slice_to n l) <= length l)%nat
  /\ ((0 <= n)%Z -> (length (slice_to n l) <= Z.to_nat n)%nat)
  /\ ((n < 0)%Z ->
      length (slice_to n l) = (length l - Z.to_nat (- n))%nat).
Proof.
  unfold slice_to. destruct (0 <=? n)%Z eqn:Hn.
  - apply Z.leb_le in Hn. rewrite length_firstn. repeat split; lia.
  - apply Z.leb_gt in Hn. rewrite length_firstn. repeat split; lia.
Qed.

Lemma firstn_sublist {A : Type} (n : nat) (l : list A) :
  sublist (firstn n l) l.
Proof.
  revert l. induction n as [|n IH]; intros l; simpl.
  - apply sublist_nil_l.
  - destruct l as [|x l]; [constructor|]. apply sublist_skip, IH.
Qed.

Lemma slice_to_sublist {A : Type} (n : Z) (l : list A) :
  sublist (slice_to n l) l.
Proof. unfold slice_to. destruct (0 <=? n)%Z; apply firstn_sublist. Qed.

Lemma filter_sublist {A : Type} (p : A -> bool) (l : list A) :
  sublist (List.filter p l) l.
Proof.
  induction l as [|x l IH]; simpl; [constructor|].
  destruct (p x); [now apply sublist_skip|now apply sublist_cons].
Qed.

Lemma sublist_Forall' {A : Type} (P : A -> Prop) (l l' : list A) :
  sublist l l' -> Forall P l' -> Forall P l.
Proof.
  induction 1 as [|x l l' _ IH|x l l' _ IH]; intros H; [constructor| |].
  - inversion H; subst. constructor; auto.
  - inversion H; subst. auto.
Qed.

End Slices.

Section NewsLoop.

Lemma converted_articles_all (articles : list pyval) (acc : list article) :
  forallb convertible articles = true ->
  exists items,
    converted_articles articles acc = Some (acc ++ items)
    /\ length items = length articles
    /\ Forall (fun item => map fst item = article_keys) items.
Proof.
  revert acc. induction articles as [|a articles IH]; intros acc Hall; simpl.
  - exists []. rewrite app_nil_r. repeat split. constructor.
  - simpl in Hall. apply andb_true_iff in Hall as [Ha Hall].
    unfold convertible in Ha.
    destruct (converted_article a) as [r|] eqn:Hr; [|discriminate].
    destruct (IH (acc ++ [r]) Hall) as (items & -> & Hlen & Hkeys).
    exists (r :: items). rewrite <- app_assoc. split; [reflexivity|].
    split; [simpl; now rewrite Hlen|]. constructor; [|exact Hkeys].
    unfold converted_article in Hr. destruct a; try discriminate.
    destruct (PyVal.get entries "source" (PDict [])); try discriminate.
    now inversion Hr.
Qed.

Lemma converted_articles_some (articles : list pyval) (acc : list article) :
  forallb convertible articles = false ->
  converted_articles articles acc = None.
Proof.
  revert acc. induction articles as [|a articles IH]; intros acc Hall; simpl.
  - discriminate.
  - simpl in Hall. unfold convertible in Hall at 1.
    destruct (converted_article a) as [r|]; [|reflexivity].
    apply IH. exact Hall.
Qed.

End NewsLoop.

(** X26. The reddit branch of [search_news], and the newsapi branch when
    no key is configured (or the key is demo_key), return the simulated
    items numbered 1, 2, ... up to the limit and at most 5, none at all for
    a limit of zero or less, and never use the network: the result is
    the same whatever the HTTP client would do. *)
Theorem search_news_simulated
    (N : news_env) (query source : string) (limit : Z) :
  simulated N source ->
  search_news N query source limit
  = Some (map (simulated_item N query source)
              (first_numbers (Z.to_nat (Z.min limit 5))))
  /\ forall get : string -> http_outcome,
      search_news (mk_news_env (NEWSAPI_KEY N) (news_now N) get)
                  query source limit
      = search_news N query source limit.
Proof.
  intros Hsim. unfold search_news, simulated_item.
  destruct Hsim as [->|[-> Hkey]].
  - simpl String.eqb. cbv iota. rewrite demo_range_numbers. now split.
  - simpl String.eqb. cbv iota. rewrite Hkey. simpl String.eqb. cbv iota.
    rewrite demo_range_numbers. split; [reflexivity|].
    intros get. unfold api_key in *. simpl. now rewrite Hkey.
Qed.

Lemma search_news_simulated_witness :
  search_news news_offline "elections" "newsapi" 2
  = Some [sample_article news_offline "elections" 1;
          sample_article news_offline "elections" 2].
Proof.
  destruct (search_news_simulated news_offline "elections" "newsapi" 2)
    as [H _]; [right; now split|exact H].
Defined.

(** X27. With a key configured, a 200 answer whose [articles] is a list,
    and every article among the first [limit] convertible (an object whose
    source, when present, is an object), [search_news] returns one dict
    per such article, each with exactly the keys title, url, source and
    published_at, and never more than [limit] of them when the limit is
    not negative. *)
Theorem search_news_converts
    (N : news_env) (query : string) (limit : Z) (articles : list pyval) :
  answered N query limit articles ->
  forallb convertible (slice_to limit articles) = true ->
  exists items : list article,
    search_news N query "newsapi" limit = Some items
    /\ length items = length (slice_to limit articles)
    /\ Forall (fun item => map fst item = article_keys) items
    /\ ((0 <= limit)%Z -> (length items <= Z.to_nat limit)%nat).
Proof.
  intros (Hkey & d & Hget & Harticles) Hall.
  unfold search_news. simpl String.eqb. cbv iota.
  apply String.eqb_neq in Hkey. rewrite Hkey, Hget. simpl Z.eqb. cbv iota.
  unfold newsapi_results, PyVal.get. rewrite Harticles.
  destruct (converted_articles_all _ [] Hall) as (items & -> & Hlen & Hkeys).
  exists items. split; [reflexivity|]. split; [exact Hlen|].
  split; [exact Hkeys|].
  intros Hlimit. rewrite Hlen. now apply slice_to_length.
Qed.

Lemma search_news_converts_witness :
  exists items : list article,
    search_news news_service "paris" "newsapi" 1 = Some items
    /\ length items = 1
    /\ Forall (fun item => map fst item = article_keys) items.
Proof.
  destruct (search_news_converts news_service "paris" 1 news_answer)
    as (items & H1 & H2 & H3 & _).
  - split; [discriminate|]. eexists. split; reflexivity.
  - reflexivity.
  - exists items. split; [exact H1|]. split; [exact H2|exact H3].
Defined.

(** X28. With a key configured and a 200 answer whose [articles] is a
    list, one entry among the first [limit] that is no object, or whose
    source is present and no object, makes [search_news] raise: nothing is
    returned, not even the articles converted before it. *)
Theorem search_news_malformed_article
    (N : news_env) (query : string) (limit : Z) (articles : list pyval) :
  answered N query limit articles ->
  forallb convertible (slice_to limit articles) = false ->
  search_news N query "newsapi" limit = None.
Proof.
  intros (Hkey & d & Hget & Harticles) Hall.
  unfold search_news. simpl String.eqb. cbv iota.
  apply String.eqb_neq in Hkey. rewrite Hkey, Hget. simpl Z.eqb. cbv iota.
  unfold newsapi_results, PyVal.get. rewrite Harticles.
  now apply converted_articles_some.
Qed.

Lemma search_news_malformed_article_witness :
  search_news news_service "paris" "newsapi" 2 = None.
Proof.
  apply (search_news_malformed_article news_service "paris" 2 news_answer).
  - split; [discriminate|]. eexists. split; reflexivity.
  - reflexivity.
Defined.

(** X29. [get_trending_misinfo] returns entries of its fixed table in the
    order of the table, at most five and at most [limit] of them when the
    limit is not negative; under a topic filter every entry returned
    matches the topic. A negative limit does not empty the result: it
    drops that many entries from the end of what the filter kept. *)
Theorem get_trending_misinfo_shape (topic : option string) (limit : Z) :
  let result := get_trending_misinfo topic limit in
  sublist result trending
  /\ (length result <= 5)%nat
  /\ ((0 <= limit)%Z -> (length result <= Z.to_nat limit)%nat)
  /\ (forall t : string,
         filtering topic t -> Forall (fun i => about_topic t i = true) result)
  /\ ((limit < 0)%Z ->
      length result
      = (length (get_trending_misinfo topic 5) - Z.to_nat (- limit))%nat).
Proof.
  intros result. subst result. unfold get_trending_misinfo.
  set (filtered := match topic with
                   | Some (String c t) =>
                       List.filter (about_topic (String c t)) trending
                   | _ => trending
                   end).
  assert (Hsub : sublist filtered trending).
  { subst filtered. destruct topic as [[|c t]|]; try reflexivity.
    apply filter_sublist. }
  assert (Hlen : (length filtered <= 5)%nat).
  { apply sublist_length in Hsub. exact Hsub. }
  destruct (slice_to_length limit filtered) as (Hle & Hpos & Hneg).
  split; [etransitivity; [apply slice_to_sublist|exact Hsub]|].
  split; [lia|]. split; [exact Hpos|]. split.
  - intros t [-> Ht]. destruct t as [|c t]; [congruence|].
    apply (sublist_Forall' _ _ filtered); [apply slice_to_sublist|].
    subst filtered. apply List.Forall_forall. intros i Hi.
    now apply filter_In in Hi.
  - intros Hlimit. rewrite (Hneg Hlimit). f_equal.
    unfold slice_to. simpl. now rewrite firstn_all2.
Qed.

(** X30. The id that [setup_monitor] builds is made of the number of
    keywords and the timestamp only: two monitors get the same id exactly
    when they have as many keywords and were created at the same reading
    of the clock, whatever the keywords and thresholds are. *)
Theorem setup_monitor_id
    (timestamp1 created1 timestamp2 created2 : string)
    (keywords1 keywords2 : list string) (threshold1 threshold2 : Q) :
  Monitor.id (setup_monitor timestamp1 created1 keywords1 threshold1)
  = Monitor.id (setup_monitor timestamp2 created2 keywords2 threshold2)
  <-> length keywords1 = length keywords2 /\ timestamp1 = timestamp2.
Proof.
  unfold setup_monitor. simpl. split.
  - intros H. apply (String.app_inj "monitor_") in H.
    assert (Hspan : forall n ts,
               Patterns.span PyStr.isdecimal (PyStr.of_nat n ++ "_" ++ ts)
               = (PyStr.of_nat n, "_" ++ ts)%string).
    { intros n ts. apply span_unique; [apply of_nat_digits|reflexivity]. }
    pose proof (Hspan (length keywords1) timestamp1) as H1.
    pose proof (Hspan (length keywords2) timestamp2) as H2.
    rewrite H in H1. rewrite H1 in H2. inversion H2 as [[Hn Ht]].
    split; [now apply of_nat_inj|].
    exact Ht.
  - intros [-> ->]. reflexivity.
Qed.
